(** * DocumentQA agentic skills: a shallow embedding and its properties

    The development follows the repository file by file:

    - [Py]: the Python built-ins the code relies on (slicing, [str.split],
      [str.strip], [str.lower], [str.join], stable sorting);
    - [Chunker]: [skills/document_preprocessor/scripts/chunk_document.py];
    - [Search]: [skills/query_retriever/scripts/semantic_search.py];
    - [Skills]: [skill_manager.py];
    - [Agent]: [agent_core.py].

    External collaborators (the NLTK tokenizers, the sentence-transformer
    encoder, the YAML parser, the JSON serializer and the Ollama runtime) are
    section variables: every theorem holds whatever they compute. So are
    [print], the rich console and the calls on the file system where the
    code runs them outside every [try]: each returns or raises. *)

From Stdlib Require Import ZArith QArith Lia Lqa List String Ascii Permutation Sorted
  DecimalString DecimalNat.
From stdpp Require Import base strings gmap list.

Set Warnings "-register-all".

Local Open Scope string_scope.
Local Open Scope list_scope.
Local Open Scope Z_scope.

(* ===================================================================== *)
(** * Python built-ins *)
(* ===================================================================== *)

Module Py.

(** [l[lo:hi]]: an index below zero counts from the end, and both ends are
    clamped to the list. *)
Definition clamp_index (n i : Z) : Z :=
  if i <? 0 then Z.max 0 (i + n) else Z.min i n.

Definition slice {A : Type} (l : list A) (lo hi : Z) : list A :=
  let n := Z.of_nat (length l) in
  let a := clamp_index n lo in
  let b := clamp_index n hi in
  firstn (Z.to_nat (b - a)) (skipn (Z.to_nat a) l).

(** [l[:k]]. *)
Definition take {A : Type} (l : list A) (k : Z) : list A := slice l 0 k.

(** [sep.join(l)]. *)
Definition join (sep : string) (l : list string) : string := String.concat sep l.

(** Characters are modelled as single bytes. [str.isspace] on them: tab,
    line feed, vertical tab, form feed, carriage return, the four separators
    0x1c-0x1f and the space. *)
Definition is_space (c : ascii) : bool :=
  let n := nat_of_ascii c in
  ((9 <=? n)%nat && (n <=? 13)%nat) || ((28 <=? n)%nat && (n <=? 32)%nat).

(** [str.lower] on the ASCII letters. *)
Definition lower_char (c : ascii) : ascii :=
  let n := nat_of_ascii c in
  if ((65 <=? n)%nat && (n <=? 90)%nat) then ascii_of_nat (n + 32) else c.

Fixpoint lower (s : string) : string :=
  match s with
  | EmptyString => EmptyString
  | String c s' => String (lower_char c) (lower s')
  end.

Definition of_rev (cur : list ascii) : string := string_of_list_ascii (rev cur).

(** [s.split()]: the maximal runs of characters that are not whitespace.
    [cur] holds the run being read, last character first. *)
Fixpoint split_ws_from (s : string) (cur : list ascii) : list string :=
  match s with
  | EmptyString => match cur with [] => [] | _ => [of_rev cur] end
  | String c s' =>
      if is_space c
      then match cur with
           | [] => split_ws_from s' []
           | _ => of_rev cur :: split_ws_from s' []
           end
      else split_ws_from s' (c :: cur)
  end.

Definition split_ws (s : string) : list string := split_ws_from s [].

(** [s.split(sep)] for a non-empty [sep]: [skip] counts the characters of
    a separator just recognised that are still to be passed over. *)
Fixpoint split_from (sep : string) (s : string) (skip : nat) (cur : list ascii)
  : list string :=
  match s with
  | EmptyString => [of_rev cur]
  | String c s' =>
      match skip with
      | S k => split_from sep s' k cur
      | O =>
          if String.prefix sep s
          then of_rev cur :: split_from sep s' (String.length sep - 1) []
          else split_from sep s' 0 (c :: cur)
      end
  end.

Definition split (s sep : string) : list string := split_from sep s 0 [].

(** [sub in s]. *)
Fixpoint contains (s sub : string) : bool :=
  String.prefix sub s ||
  match s with
  | EmptyString => false
  | String _ s' => contains s' sub
  end.

Fixpoint lstrip (s : string) : string :=
  match s with
  | EmptyString => EmptyString
  | String c s' => if is_space c then lstrip s' else s
  end.

Fixpoint drop_while_space (l : list ascii) : list ascii :=
  match l with
  | [] => []
  | c :: l' => if is_space c then drop_while_space l' else l
  end.

Definition rstrip (s : string) : string :=
  of_rev (drop_while_space (rev (list_ascii_of_string s))).

(** [s.strip()]. *)
Definition strip (s : string) : string := rstrip (lstrip s).

(** The exceptions the modelled code raises or catches. *)
Inductive exn : Type :=
  | ValueError (msg : string)
  | TypeError (msg : string)
  | AttributeError (msg : string)
  | IndexError (msg : string)
  | OtherError (msg : string).

(** A call either returns or raises. *)
Inductive result (A : Type) : Type :=
  | Ok (a : A)
  | Raise (e : exn).
Arguments Ok {A} a.
Arguments Raise {A} e.

Definition bind {A B : Type} (r : result A) (k : A -> result B) : result B :=
  match r with
  | Ok a => k a
  | Raise e => Raise e
  end.

Declare Scope result_scope.
Delimit Scope result_scope with result.
Bind Scope result_scope with result.

Notation "x <- m ;; k" := (bind m (fun x => k))
  (at level 20, m at level 99, k at level 200) : result_scope.

(** [try: body / except Exception as e: handler(e)]. *)
Definition try_except {A : Type} (body : result A) (handler : exn -> result A)
  : result A :=
  match body with
  | Ok a => Ok a
  | Raise e => handler e
  end.

(** [str(e)]. *)
Definition exn_message (e : exn) : string :=
  match e with
  | ValueError msg | TypeError msg | AttributeError msg | IndexError msg
  | OtherError msg => msg
  end.

(** [str(n)] for a natural number. *)
Definition str_of_nat (n : nat) : string := NilZero.string_of_uint (Nat.to_uint n).

Definition newline : ascii := ascii_of_nat 10.
Definition nl : string := String newline EmptyString.

(** [l[i]] for [i >= 0]; past the end it raises. *)
Definition item {A : Type} (l : list A) (i : nat) : result A :=
  match nth_error l i with
  | Some a => Ok a
  | None => Raise (IndexError "list index out of range")
  end.

(** [enumerate(l)]. *)
Definition enumerate {A : Type} (l : list A) : list (nat * A) :=
  combine (seq 0 (length l)) l.

(** A [dict], as the list of its items in insertion order. [dict_set]
    is [d[k] = v]: an existing key keeps its place. *)
Definition dict (K V : Type) : Type := list (K * V).

Section Dict.

Context {K V : Type} `{EqDecision K}.

Fixpoint dict_set (k : K) (v : V) (d : dict K V) : dict K V :=
  match d with
  | [] => [(k, v)]
  | (k', v') :: d' =>
      if bool_decide (k = k') then (k, v) :: d' else (k', v') :: dict_set k v d'
  end.

(** [{k: v for (k, v) in items}]. *)
Definition dict_of_items (items : list (K * V)) : dict K V :=
  fold_left (fun d kv => dict_set (fst kv) (snd kv) d) items [].

(** [d.get(k)], with [None] for a missing key. *)
Fixpoint dict_lookup (d : dict K V) (k : K) : option V :=
  match d with
  | [] => None
  | (k', v') :: d' => if bool_decide (k = k') then Some v' else dict_lookup d' k
  end.

(** [d.get(k, default)]. *)
Definition dict_get (d : dict K V) (k : K) (default : V) : V :=
  match dict_lookup d k with
  | Some v => v
  | None => default
  end.

(** [k in d]. *)
Definition dict_has (d : dict K V) (k : K) : bool :=
  match dict_lookup d k with
  | Some _ => true
  | None => false
  end.

(** [d.keys()] and [d.values()]. *)
Definition keys (d : dict K V) : list K := map fst d.
Definition values (d : dict K V) : list V := map snd d.

End Dict.

(** A stable sort: [insert_sorted before x l] puts [x] in front of the
    first element that need not come before it, so that elements that
    compare equal keep the order they had. *)
Fixpoint insert_sorted {A : Type} (before : A -> A -> bool) (x : A) (l : list A)
  : list A :=
  match l with
  | [] => [x]
  | y :: l' => if before y x then y :: insert_sorted before x l' else x :: l
  end.

Definition stable_sort {A : Type} (before : A -> A -> bool) (l : list A) : list A :=
  fold_right (insert_sorted before) [] l.

Definition Qltb (x y : Q) : bool := negb (Qle_bool y x).

(** [l[:k]] keeps a number of leading elements that depends on the length
    of [l] and on [k] alone. *)
Definition take_count (n : nat) (k : Z) : nat :=
  Z.to_nat (clamp_index (Z.of_nat n) k).

(** [a] may stand in front of [b] in a list sorted by [before]. *)
Definition may_precede {A : Type} (before : A -> A -> bool) (a b : A) : Prop :=
  before b a = false.

(** [sorted(l, key=key, reverse=True)]: descending, ties in their
    original order. *)
Definition sorted_reverse {A : Type} (key : A -> Q) (l : list A) : list A :=
  stable_sort (fun y x => Qltb (key x) (key y)) l.

(** [max(l)]; the first of the greatest elements. The callers guard
    against the empty list. *)
Fixpoint max_from (m : Q) (l : list Q) : Q :=
  match l with
  | [] => m
  | x :: l' => max_from (if Qltb m x then x else m) l'
  end.

Definition max_of (l : list Q) : result Q :=
  match l with
  | [] => Raise (ValueError "max() arg is an empty sequence")
  | x :: l' => Ok (max_from x l')
  end.

(** No character of [s] is an underscore. *)
Fixpoint plain (s : string) : Prop :=
  match s with
  | EmptyString => True
  | String c s' => c <> "_"%char /\ plain s'
  end.

End Py.

(* ===================================================================== *)
(** * semantic_search.py *)
(* ===================================================================== *)

Module Search.

Import Py.

Record Metadata : Type := mkMetadata {
  length_chars : nat;
  length_words : nat
}.

(** The dictionaries returned by [search]. *)
Record SearchResult : Type := mkSearchResult {
  index : nat;
  text : string;
  score : Q;
  metadata : Metadata
}.

(** The dictionaries returned by [hybrid_search]. *)
Record HybridResult : Type := mkHybridResult {
  h_index : nat;
  h_text : string;
  h_score : Q;
  semantic_score : Q;
  keyword_score : Q
}.

(** The attributes of a [SemanticSearch] object that the methods read and
    write; [embeddings] is [None] until [index_documents] runs. *)
Record SemanticSearch : Type := mkSemanticSearch {
  documents : list string;
  embeddings : option (list (list Q))
}.

(** [__init__]. *)
Definition new : SemanticSearch :=
  {| documents := []; embeddings := None |}.

(** [np.dot] of two vectors. *)
Fixpoint dot (u v : list Q) : Q :=
  match u, v with
  | x :: u', y :: v' => (x * y + dot u' v')%Q
  | _, _ => 0%Q
  end.

(** [np.argsort(a)]: the indices of [a] in ascending order of value.
    numpy leaves the order of equal values to the sort it picks; the model
    keeps them in index order, as an insertion sort does. *)
Definition argsort (a : list Q) : list nat :=
  stable_sort (fun y x => Qltb (nth y a 0%Q) (nth x a 0%Q)) (seq 0 (length a)).

Definition default_top_k : Z := 5.
Definition default_threshold : Q := (3 # 10)%Q.
Definition default_alpha : Q := (7 # 10)%Q.

Section WithModel.

(** [self.model.encode(text, normalize_embeddings=True)] for one text; a
    list of texts is encoded text by text. *)
Variable encode : string -> list Q.

(** [index_documents]. *)
Definition index_documents (self : SemanticSearch) (docs : list string)
  : SemanticSearch :=
  {| documents := docs; embeddings := Some (map encode docs) |}.

(** The loop [for idx in top_indices] of [search]. *)
Fixpoint collect_results (self_documents : list string) (similarities : list Q)
    (threshold : Q) (top_indices : list nat) : result (list SearchResult) :=
  match top_indices with
  | [] => Ok []
  | idx :: rest =>
      (s <- item similarities idx ;;
       if Qle_bool threshold s
       then
         doc <- item self_documents idx ;;
         results <- collect_results self_documents similarities threshold rest ;;
         Ok ({| index := idx;
                text := doc;
                score := s;
                metadata := {| length_chars := String.length doc;
                               length_words := length (split_ws doc) |} |}
             :: results)
       else collect_results self_documents similarities threshold rest)%result
  end.

(** [search]. *)
Definition search (self : SemanticSearch) (query : string) (top_k : Z)
    (threshold : Q) : result (list SearchResult) :=
  match embeddings self with
  | None => Raise (ValueError "No documents indexed. Call index_documents first.")
  | Some embs =>
      let query_embedding := encode query in
      let similarities := map (fun e => dot e query_embedding) embs in
      let top_indices := take (rev (argsort similarities)) top_k in
      collect_results (documents self) similarities threshold top_indices
  end.

(** [set(s.lower().split())]. *)
Definition terms (s : string) : gset string := list_to_set (split_ws (lower s)).

(** The keyword score of one document. *)
Definition keyword_ratio (query_terms : gset string) (doc : string) : Q :=
  let doc_terms := terms doc in
  let common_terms := query_terms ∩ doc_terms in
  if decide (query_terms = ∅) then 0%Q
  else (inject_Z (Z.of_nat (size common_terms))
        / inject_Z (Z.of_nat (size query_terms)))%Q.

(** The loop [for idx, score in top_indices] of [hybrid_search]. *)
Fixpoint collect_hybrid (docs : list string) (semantic_scores keyword_scores : dict nat Q)
    (top_indices : list (nat * Q)) : result (list HybridResult) :=
  match top_indices with
  | [] => Ok []
  | (idx, sc) :: rest =>
      if Qltb 0 sc
      then
        (doc <- item docs idx ;;
         results <- collect_hybrid docs semantic_scores keyword_scores rest ;;
         Ok ({| h_index := idx;
                h_text := doc;
                h_score := sc;
                semantic_score := dict_get semantic_scores idx 0%Q;
                keyword_score := dict_get keyword_scores idx 0%Q |}
             :: results))%result
      else collect_hybrid docs semantic_scores keyword_scores rest
  end.

(** [max(d.values()) if d else 1]. *)
Definition max_or_one (d : dict nat Q) : result Q :=
  match d with
  | [] => Ok 1%Q
  | _ => max_of (values d)
  end.

(** [d.get(i, 0) / m if m > 0 else 0]. *)
Definition normalized (d : dict nat Q) (i : nat) (m : Q) : Q :=
  if Qltb 0 m then (dict_get d i 0 / m)%Q else 0%Q.

(** [hybrid_search]. *)
Definition hybrid_search (self : SemanticSearch) (query : string)
    (docs : list string) (top_k : Z) (alpha : Q) : result (list HybridResult) :=
  (semantic_results <-
     search self query (Z.of_nat (length docs)) default_threshold ;;
   let semantic_scores :=
     dict_of_items (map (fun r => (index r, score r)) semantic_results) in
   let query_terms := terms query in
   let keyword_scores :=
     dict_of_items
       (map (fun id => (fst id, keyword_ratio query_terms (snd id)))
            (enumerate docs)) in
   max_semantic <- max_or_one semantic_scores ;;
   max_keyword <- max_or_one keyword_scores ;;
   let combined_scores :=
     dict_of_items
       (map (fun i =>
               let semantic := normalized semantic_scores i max_semantic in
               let keyword := normalized keyword_scores i max_keyword in
               (i, (alpha * semantic + (1 - alpha) * keyword)%Q))
            (seq 0 (length docs))) in
   let top_indices := take (sorted_reverse snd combined_scores) top_k in
   collect_hybrid docs semantic_scores keyword_scores top_indices)%result.

(** The scores [search] computes once [docs] are indexed. *)
Definition similarities (docs : list string) (query : string) : list Q :=
  map (fun e => dot e (encode query)) (map encode docs).

End WithModel.

(** The result [search] builds for index [i]. *)
Definition result_at (docs : list string) (similarities : list Q) (i : nat)
  : SearchResult :=
  let doc := nth i docs "" in
  {| index := i;
     text := doc;
     score := nth i similarities 0%Q;
     metadata := {| length_chars := String.length doc;
                    length_words := length (split_ws doc) |} |}.

(** The result [hybrid_search] builds for index [i] with blended score [sc]. *)
Definition hybrid_at (docs : list string) (semantic_scores keyword_scores : dict nat Q)
    (isc : nat * Q) : HybridResult :=
  {| h_index := fst isc;
     h_text := nth (fst isc) docs "";
     h_score := snd isc;
     semantic_score := dict_get semantic_scores (fst isc) 0%Q;
     keyword_score := dict_get keyword_scores (fst isc) 0%Q |}.

(** ** The rankings the specification speaks of *)

(** The indices of a list of results, in order. *)
Definition ranking (results : list SearchResult) : list nat := map index results.
Definition hybrid_ranking (results : list HybridResult) : list nat := map h_index results.

(** Ranking by lexical overlap alone: the documents in descending order of
    their ratio of shared terms (equal ratios in document order), the first
    [top_k] of them, those without any shared term left out. *)
Definition lexical_ranking (query : string) (docs : list string) (top_k : Z)
  : list nat :=
  let ratio (i : nat) := keyword_ratio (terms query) (nth i docs "") in
  List.filter (fun i => Qltb 0 (ratio i))
              (take (sorted_reverse ratio (seq 0 (length docs))) top_k).

(** ** What [hybrid_search] computes on the indexed documents *)

Section Scores.

Variable encode : string -> list Q.
Variable docs : list string.
Variable query : string.

(** The semantic score of document [i]. *)
Definition sim (i : nat) : Q := nth i (similarities encode docs query) 0%Q.

(** The lexical overlap score of document [i]. *)
Definition overlap_ratio (i : nat) : Q :=
  keyword_ratio (terms query) (nth i docs "").

(** The indices the inner [search] of [hybrid_search] reports: those at or
    above the default threshold, best first. *)
Definition reported : list nat :=
  List.filter (fun i => Qle_bool default_threshold (sim i))
              (rev (argsort (similarities encode docs query))).

(** The dictionaries [semantic_scores] and [keyword_scores]. *)
Definition semantic_dict : dict nat Q := map (fun i => (i, sim i)) reported.
Definition keyword_dict : dict nat Q :=
  map (fun i => (i, overlap_ratio i)) (seq 0 (length docs)).

(** The blended score of document [i]. *)
Definition blended (alpha max_semantic max_keyword : Q) (i : nat) : Q :=
  (alpha * normalized semantic_dict i max_semantic
   + (1 - alpha) * normalized keyword_dict i max_keyword)%Q.

(** No two documents whose score reaches the default threshold tie. *)
Definition distinct_scores : Prop :=
  forall i j : nat,
    (i < length docs)%nat -> (j < length docs)%nat -> i <> j ->
    (default_threshold <= sim i)%Q -> (default_threshold <= sim j)%Q ->
    ~ (sim i == sim j)%Q.

(** The indices sorted by blended score, as [hybrid_search] sorts them. *)
Definition by_blend (alpha max_semantic max_keyword : Q) : list nat :=
  stable_sort (fun a b => Qltb (blended alpha max_semantic max_keyword b)
                               (blended alpha max_semantic max_keyword a))
              (seq 0 (length docs)).

End Scores.

(** ** Data for examples *)

(** An encoder that gives every text the same unit vector, for examples. *)
Definition constant_encode (_ : string) : list Q := [1%Q].

(** An encoder that tells texts apart by their length, for examples. *)
Definition length_encode (s : string) : list Q :=
  [inject_Z (Z.of_nat (String.length s))].

Definition rank_of {A : Type} (rank : A -> list nat) (r : result A) : option (list nat) :=
  match r with
  | Ok a => Some (rank a)
  | Raise _ => None
  end.

End Search.

(* ===================================================================== *)
(** * chunk_document.py *)
(* ===================================================================== *)

Module Chunker.

(** The dictionaries appended by [chunk_by_tokens]. *)
Record TokenChunk : Type := mkTokenChunk {
  text : string;
  start_word : Z;
  end_word : Z;
  chunk_id : Z
}.

(** The dictionaries appended by [chunk_by_sentences]. *)
Record SentenceChunk : Type := mkSentenceChunk {
  s_text : string;
  start_sentence : Z;
  end_sentence : Z;
  s_chunk_id : Z
}.

Definition len {A : Type} (l : list A) : Z := Z.of_nat (length l).

(** Python's [-(-a // b)], the ceiling of [a / b] for [b > 0]. *)
Definition ceil_div (a b : Z) : Z := - ((- a) / b).

Section WithTokenizers.

(** [nltk.tokenize.word_tokenize] and [nltk.tokenize.sent_tokenize]. *)
Variable word_tokenize : string -> list string.
Variable sent_tokenize : string -> list string.

(** [DocumentChunker.__init__]. *)
Variable chunk_size : Z.
Variable overlap : Z.

(** ** chunk_by_tokens *)

(** The loop's state: [start] and [chunks]. *)
Definition token_state : Type := Z * list TokenChunk.

(** One pass through the body of [while start < len(words)]. *)
Definition token_body (words : list string) (st : token_state) : token_state :=
  let '(start, chunks) := st in
  let end_ := start + chunk_size in
  let chunk_words := Py.slice words (Z.max 0 (start - overlap)) end_ in
  let chunk_text := Py.join " " chunk_words in
  (end_ - overlap,
   chunks ++ [ {| text := chunk_text;
                  start_word := Z.max 0 (start - overlap);
                  end_word := end_;
                  chunk_id := len chunks |} ]).

(** The [while] loop, run for at most [fuel] passes: [None] when the guard
    still holds after [fuel] passes. *)
Fixpoint token_loop (fuel : nat) (words : list string) (st : token_state)
  : option (list TokenChunk) :=
  if fst st <? len words then
    match fuel with
    | O => None
    | S fuel' => token_loop fuel' words (token_body words st)
    end
  else Some (snd st).

Definition chunk_by_tokens (fuel : nat) (text : string) : option (list TokenChunk) :=
  let words := word_tokenize text in
  token_loop fuel words (0, []).

(** The value of [start] after [k] passes. *)
Fixpoint start_after (k : nat) (words : list string) (st : token_state) : Z :=
  match k with
  | O => fst st
  | S k' => start_after k' words (token_body words st)
  end.

(** ** chunk_by_sentences *)

Definition n_tokens (s : string) : Z := len (word_tokenize s).

(** The inner [for s in reversed(current_chunk)] loop; [rest] is what is
    left of the reversed chunk. *)
Fixpoint overlap_loop (rest : list string) (overlap_sentences : list string)
    (overlap_length : Z) : list string * Z :=
  match rest with
  | [] => (overlap_sentences, overlap_length)
  | s :: rest' =>
      let s_tokens := n_tokens s in
      if overlap_length + s_tokens <=? overlap
      then overlap_loop rest' (s :: overlap_sentences) (overlap_length + s_tokens)
      else (overlap_sentences, overlap_length)
  end.

(** The state of the outer loop: [chunks], [current_chunk], [current_length]. *)
Definition sentence_state : Type := list SentenceChunk * list string * Z.

(** The body of [for i, sentence in enumerate(sentences)]. *)
Definition sentence_body (i : Z) (sentence : string) (st : sentence_state)
  : sentence_state :=
  let '(chunks, current_chunk, current_length) := st in
  let sentence_tokens := n_tokens sentence in
  let '(chunks, current_chunk, current_length) :=
    if (chunk_size <? current_length + sentence_tokens)
       && negb (Nat.eqb (length current_chunk) 0)
    then
      let chunks' :=
        chunks ++ [ {| s_text := Py.join " " current_chunk;
                       start_sentence := i - len current_chunk;
                       end_sentence := i - 1;
                       s_chunk_id := len chunks |} ] in
      let '(overlap_sentences, overlap_length) :=
        overlap_loop (rev current_chunk) [] 0 in
      (chunks', overlap_sentences, overlap_length)
    else (chunks, current_chunk, current_length) in
  (chunks, current_chunk ++ [sentence], current_length + sentence_tokens).

Fixpoint sentence_loop (i : Z) (rest : list string) (st : sentence_state)
  : sentence_state :=
  match rest with
  | [] => st
  | sentence :: rest' => sentence_loop (i + 1) rest' (sentence_body i sentence st)
  end.

Definition chunks_of_sentences (sentences : list string) : list SentenceChunk :=
  let '(chunks, current_chunk, _) := sentence_loop 0 sentences ([], [], 0) in
  if negb (Nat.eqb (length current_chunk) 0)
  then chunks ++ [ {| s_text := Py.join " " current_chunk;
                      start_sentence := len sentences - len current_chunk;
                      end_sentence := len sentences - 1;
                      s_chunk_id := len chunks |} ]
  else chunks.

Definition chunk_by_sentences (text : string) : list SentenceChunk :=
  chunks_of_sentences (sent_tokenize text).

End WithTokenizers.

(** A chunk is [whole] when its text joins the sentences
    [start_sentence .. end_sentence] of the input, and nothing else. *)
Definition whole (sentences : list string) (c : SentenceChunk) : Prop :=
  exists before body after : list string,
    sentences = before ++ body ++ after
    /\ body <> []
    /\ s_text c = Py.join " " body
    /\ start_sentence c = len before
    /\ end_sentence c = len before + len body - 1.

(** The loop invariant, with [seen] the sentences already read:
    [current_chunk] is the tail of [seen], the chunks are whole, and every
    sentence read that is no longer in [current_chunk] is in a chunk. *)
Definition sentence_inv (sentences seen : list string) (st : sentence_state) : Prop :=
  let '(chunks, current_chunk, _) := st in
  (exists rest, sentences = seen ++ rest)
  /\ (exists before, seen = before ++ current_chunk)
  /\ Forall (whole sentences) chunks
  /\ (forall j : Z, 0 <= j < len seen - len current_chunk ->
        exists c, In c chunks /\ start_sentence c <= j <= end_sentence c).

(** ** Closed forms and measures *)

(** The [k]-th window of [chunk_by_tokens]. *)
Definition token_window (chunk_size overlap : Z) (words : list string) (k : nat)
  : TokenChunk :=
  let start := Z.of_nat k * (chunk_size - overlap) in
  {| text := Py.join " " (Py.slice words (Z.max 0 (start - overlap))
                                    (start + chunk_size));
     start_word := Z.max 0 (start - overlap);
     end_word := start + chunk_size;
     chunk_id := Z.of_nat k |}.

(** The number of tokens of a run of sentences, as the chunker counts
    them: sentence by sentence. *)
Definition total_tokens (word_tokenize : string -> list string) (l : list string)
  : Z :=
  fold_right (fun s n => n_tokens word_tokenize s + n) 0 l.

(** The sentences [start_sentence .. end_sentence] of a chunk. *)
Definition chunk_sentences (sentences : list string) (c : SentenceChunk)
  : list string :=
  Py.slice sentences (start_sentence c) (end_sentence c + 1).

(** The sentences two chunks have in common when the second follows the
    first: those from the start of the second to the end of the first. *)
Definition shared_sentences (sentences : list string) (c1 c2 : SentenceChunk)
  : list string :=
  Py.slice sentences (start_sentence c2) (end_sentence c1 + 1).

(** How a chunk of [chunk_by_sentences] follows the one before it. *)
Definition follows (word_tokenize : string -> list string) (overlap : Z)
    (sentences : list string) (c1 c2 : SentenceChunk) : Prop :=
  start_sentence c1 <= start_sentence c2 <= end_sentence c1 + 1
  /\ end_sentence c1 < end_sentence c2
  /\ total_tokens word_tokenize (shared_sentences sentences c1 c2)
     <= Z.max 0 overlap.

(** The invariant behind the order of the chunks of [chunk_by_sentences]:
    [current_length] counts the tokens of [current_chunk], the chunks are
    numbered from zero and follow one another, the first starts at sentence
    0, and [current_chunk] is what the last chunk left ([kept]) followed by
    the sentences read since ([fresh]). *)
Definition sentence_order_inv (word_tokenize : string -> list string) (overlap : Z)
    (sentences seen : list string) (st : list SentenceChunk * list string * Z)
  : Prop :=
  let '(chunks, current_chunk, current_length) := st in
  (exists rest, sentences = seen ++ rest)
  /\ (exists before, seen = before ++ current_chunk)
  /\ current_length = total_tokens word_tokenize current_chunk
  /\ (forall k c, nth_error chunks k = Some c -> s_chunk_id c = Z.of_nat k)
  /\ (chunks = [] -> current_chunk = seen)
  /\ (forall c, head chunks = Some c -> start_sentence c = 0)
  /\ (forall c, last chunks = Some c ->
        exists before kept fresh : list string,
          seen = before ++ kept ++ fresh
          /\ current_chunk = kept ++ fresh
          /\ fresh <> []
          /\ end_sentence c + 1 = len before + len kept
          /\ start_sentence c <= len before
          /\ total_tokens word_tokenize kept <= Z.max 0 overlap)
  /\ Sorted (follows word_tokenize overlap sentences) chunks.

(** ** chunk_by_paragraphs *)

(** The dictionaries appended by [chunk_by_paragraphs]. *)
Record ParagraphChunk : Type := mkParagraphChunk {
  p_text : string;
  start_para : Z;
  end_para : Z;
  p_chunk_id : Z
}.

Definition blank_line : string := (Py.nl ++ Py.nl)%string.

(** [[p.strip() for p in text.split('\n\n') if p.strip()]]. *)
Definition paragraphs_of (text : string) : list string :=
  map Py.strip
      (List.filter (fun p => negb (String.eqb (Py.strip p) ""))
                   (Py.split text blank_line)).

Section Paragraphs.

Variable word_tokenize : string -> list string.
Variable chunk_size : Z.

Definition paragraph_state : Type := list ParagraphChunk * list string * Z.

(** The body of [for i, para in enumerate(paragraphs)]. *)
Definition paragraph_body (i : Z) (para : string) (st : paragraph_state)
  : paragraph_state :=
  let '(chunks, current_chunk, current_length) := st in
  let para_tokens := n_tokens word_tokenize para in
  let '(chunks, current_chunk, current_length) :=
    if (chunk_size <? current_length + para_tokens)
       && negb (Nat.eqb (length current_chunk) 0)
    then
      let chunks' :=
        chunks ++ [ {| p_text := Py.join blank_line current_chunk;
                       start_para := i - len current_chunk;
                       end_para := i - 1;
                       p_chunk_id := len chunks |} ] in
      match rev current_chunk with
      | last_para :: _ => (chunks', [last_para], n_tokens word_tokenize last_para)
      | [] => (chunks', [], 0)
      end
    else (chunks, current_chunk, current_length) in
  (chunks, current_chunk ++ [para], current_length + para_tokens).

Fixpoint paragraph_loop (i : Z) (rest : list string) (st : paragraph_state)
  : paragraph_state :=
  match rest with
  | [] => st
  | para :: rest' => paragraph_loop (i + 1) rest' (paragraph_body i para st)
  end.

Definition chunks_of_paragraphs (paragraphs : list string) : list ParagraphChunk :=
  let '(chunks, current_chunk, _) := paragraph_loop 0 paragraphs ([], [], 0) in
  if negb (Nat.eqb (length current_chunk) 0)
  then chunks ++ [ {| p_text := Py.join blank_line current_chunk;
                      start_para := len paragraphs - len current_chunk;
                      end_para := len paragraphs - 1;
                      p_chunk_id := len chunks |} ]
  else chunks.

Definition chunk_by_paragraphs (text : string) : list ParagraphChunk :=
  chunks_of_paragraphs (paragraphs_of text).

End Paragraphs.

(** The paragraphs [start_para .. end_para] of a chunk. *)
Definition chunk_paragraphs (paragraphs : list string) (c : ParagraphChunk)
  : list string :=
  Py.slice paragraphs (start_para c) (end_para c + 1).

(** A chunk spans whole paragraphs of the text and joins them. *)
Definition spans (paragraphs : list string) (c : ParagraphChunk) : Prop :=
  0 <= start_para c <= end_para c
  /\ end_para c < len paragraphs
  /\ p_text c = Py.join blank_line (chunk_paragraphs paragraphs c).

(** A chunk starts with the last paragraph of the chunk before it. *)
Definition resumes (c1 c2 : ParagraphChunk) : Prop :=
  start_para c2 = end_para c1 /\ end_para c1 < end_para c2.

Definition paragraph_inv (paragraphs seen : list string) (st : paragraph_state)
  : Prop :=
  let '(chunks, cur, _) := st in
  (exists before rest, paragraphs = before ++ cur ++ rest /\ seen = before ++ cur)
  /\ (forall k c, nth_error chunks k = Some c -> p_chunk_id c = Z.of_nat k)
  /\ (chunks = [] -> cur = seen)
  /\ (forall c, head chunks = Some c -> start_para c = 0)
  /\ (forall c, last chunks = Some c ->
        end_para c = len seen - len cur /\ 2 <= len cur)
  /\ Forall (spans paragraphs) chunks
  /\ (forall j, 0 <= j < len seen - len cur ->
        exists c, In c chunks /\ start_para c <= j <= end_para c)
  /\ Sorted resumes chunks.

End Chunker.

(* ===================================================================== *)
(** * skill_manager.py *)
(* ===================================================================== *)

Module Skills.

Import Py.

(** What [yaml.safe_load] returns: null, booleans, integers, strings,
    sequences and mappings with string keys. *)
Inductive yaml : Type :=
  | YNull
  | YBool (b : bool)
  | YInt (z : Z)
  | YStr (s : string)
  | YList (items : list yaml)
  | YMap (items : dict string yaml).

Definition is_str (k : string) (y : yaml) : bool :=
  match y with
  | YStr s => String.eqb s k
  | _ => false
  end.

(** [k in y] for a string [k]. *)
Definition yaml_in (k : string) (y : yaml) : result bool :=
  match y with
  | YMap items => Ok (dict_has items k)
  | YStr s => Ok (contains s k)
  | YList items => Ok (existsb (is_str k) items)
  | YNull => Raise (TypeError "argument of type 'NoneType' is not iterable")
  | YBool _ => Raise (TypeError "argument of type 'bool' is not iterable")
  | YInt _ => Raise (TypeError "argument of type 'int' is not iterable")
  end.

(** [y[k]] for a string [k]. *)
Definition yaml_getitem (y : yaml) (k : string) : result yaml :=
  match y with
  | YMap items =>
      match dict_lookup items k with
      | Some v => Ok v
      | None => Raise (OtherError k)
      end
  | YStr _ => Raise (TypeError "string indices must be integers")
  | YList _ => Raise (TypeError "list indices must be integers or slices, not str")
  | _ => Raise (TypeError "object is not subscriptable")
  end.

(** [y.get(k, default)]. *)
Definition yaml_get (y : yaml) (k : string) (default : yaml) : result yaml :=
  match y with
  | YMap items => Ok (dict_get items k default)
  | _ => Raise (AttributeError "object has no attribute 'get'")
  end.

(** The truth value of [y]. *)
Definition truthy (y : yaml) : bool :=
  match y with
  | YNull => false
  | YBool b => b
  | YInt z => negb (z =? 0)
  | YStr s => negb (String.eqb s "")
  | YList items => negb (Nat.eqb (length items) 0)
  | YMap items => negb (Nat.eqb (length items) 0)
  end.

(** [y.split()]. *)
Definition yaml_split (y : yaml) : result (list string) :=
  match y with
  | YStr s => Ok (split_ws s)
  | _ => Raise (AttributeError "object has no attribute 'split'")
  end.

(** The keys a [dict] accepts among the values above; [True] and [False]
    are the keys [1] and [0]. *)
Inductive hashable : Type :=
  | HNone
  | HInt (z : Z)
  | HStr (s : string).

#[global] Instance hashable_eq_dec : EqDecision hashable.
Proof. solve_decision. Defined.

Definition hash_key (y : yaml) : result hashable :=
  match y with
  | YNull => Ok HNone
  | YBool b => Ok (HInt (if b then 1 else 0))
  | YInt z => Ok (HInt z)
  | YStr s => Ok (HStr s)
  | YList _ => Raise (TypeError "unhashable type: 'list'")
  | YMap _ => Raise (TypeError "unhashable type: 'dict'")
  end.

(** The dataclass [SkillMetadata]. *)
Record SkillMetadata : Type := mkSkillMetadata {
  name : yaml;
  description : yaml;
  license : yaml;
  compatibility : yaml;
  metadata : yaml;
  allowed_tools : option (list string);
  path : string
}.

(** The dictionary [load_skill] returns. *)
Record SkillData : Type := mkSkillData {
  sd_metadata : SkillMetadata;
  frontmatter : yaml;
  body : string;
  full_content : string
}.

(** [self.skills]. *)
Definition registry : Type := dict hashable SkillData.

(** ** The frontmatter pattern *)

(** The longest run of whitespace at the head of [s], and what follows. *)
Fixpoint span_space (s : string) : string * string :=
  match s with
  | EmptyString => (EmptyString, EmptyString)
  | String c s' =>
      if is_space c
      then let '(w, rest) := span_space s' in (String c w, rest)
      else (EmptyString, s)
  end.

(** What follows the last line feed of [w], if it has one. *)
Fixpoint after_last_newline (w : string) : option string :=
  match w with
  | EmptyString => None
  | String c w' =>
      match after_last_newline w' with
      | Some tail => Some tail
      | None => if Ascii.eqb c newline then Some w' else None
      end
  end.

Fixpoint drop (n : nat) (s : string) : string :=
  match n, s with
  | S n', String _ s' => drop n' s'
  | _, _ => s
  end.

(** The tail [(.*?)\n---\s*\n] of the pattern, matched from the head of
    [s]: the lazy group grows one character at a time ([group] holds it,
    last character first), and the greedy [\s*] gives back up to the last
    line feed of the whitespace after [---]. The result is the group and
    the text after the match. *)
Fixpoint match_close (s : string) (group : list ascii) : option (string * string) :=
  let here :=
    if String.prefix (nl ++ "---")%string s
    then let '(w, rest) := span_space (drop 4 s) in
         match after_last_newline w with
         | Some tail => Some (of_rev group, (tail ++ rest)%string)
         | None => None
         end
    else None in
  match here with
  | Some m => Some m
  | None =>
      match s with
      | EmptyString => None
      | String c s' => match_close s' (c :: group)
      end
  end.

(** The head [\s*\n] of the pattern after [---]: the greedy [\s*] is
    tried from the longest run down, [tried] being the whitespace given
    back so far together with the rest of the text. *)
Fixpoint match_open (run_reversed : list ascii) (tried : string)
  : option (string * string) :=
  match run_reversed with
  | [] => None
  | c :: run' =>
      let shorter := match_open run' (String c tried) in
      if Ascii.eqb c newline
      then match match_close tried [] with
           | Some m => Some m
           | None => shorter
           end
      else shorter
  end.

(** [re.match(r'^---\s*\n(.*?)\n---\s*\n', content, re.DOTALL)]: group 1
    and [content[match.end():]]. *)
Definition frontmatter_match (content : string) : option (string * string) :=
  if String.prefix "---" content
  then let '(w, rest) := span_space (drop 3 content) in
       match_open (rev (list_ascii_of_string w)) rest
  else None.

(** ** Loading and discovery *)

(** An entry [skill_dir] of [skills_dir.iterdir()]: its path as pathlib
    renders it ([str(skill_dir)], in pathlib's normal form, whatever the
    spelling of the directory the manager was given), its name, what
    [is_dir()] answers, and its [SKILL.md]: absent, unreadable or its text.
    The answers are those of calls that return; a call on the file system
    that raises is not guarded by any [try] and ends discovery, see
    [run_discover_entry]. *)
Record DirEntry : Type := mkDirEntry {
  entry_path : string;
  entry_name : string;
  is_dir : bool;
  skill_file : option (result string)
}.

Section WithYaml.

(** [yaml.safe_load]. *)
Variable yaml_safe_load : string -> result yaml.

(** The [try] block of [load_skill]; [skill_path] is [skill_file.parent]
    and [read_text] the outcome of reading the file. *)
Definition load_skill_try (skill_path : string) (read_text : result string)
  : result SkillData :=
  (content <- read_text ;;
   match frontmatter_match content with
   | None =>
       Raise (ValueError
                ("No YAML frontmatter found in " +:+ skill_path +:+ "/SKILL.md"))
   | Some (group1, rest) =>
       frontmatter <- yaml_safe_load group1 ;;
       let body := strip rest in
       missing <- (has_name <- yaml_in "name" frontmatter ;;
                   if negb has_name then Ok true
                   else has_description <- yaml_in "description" frontmatter ;;
                        Ok (negb has_description)) ;;
       if (missing : bool)
       then Raise (ValueError
                     ("Missing required fields in " +:+ skill_path +:+ "/SKILL.md"))
       else
         name <- yaml_getitem frontmatter "name" ;;
         description <- yaml_getitem frontmatter "description" ;;
         license <- yaml_get frontmatter "license" YNull ;;
         compatibility <- yaml_get frontmatter "compatibility" YNull ;;
         metadata <- yaml_get frontmatter "metadata" (YMap []) ;;
         allowed_tools <- (tools <- yaml_get frontmatter "allowed_tools" YNull ;;
                           if truthy tools
                           then tools' <- yaml_get frontmatter "allowed_tools" (YStr "") ;;
                                l <- yaml_split tools' ;;
                                Ok (Some l)
                           else Ok None) ;;
         Ok {| sd_metadata := {| name := name;
                                 description := description;
                                 license := license;
                                 compatibility := compatibility;
                                 metadata := metadata;
                                 allowed_tools := allowed_tools;
                                 path := skill_path |};
               frontmatter := frontmatter;
               body := body;
               full_content := content |}
   end)%result.

(** What [load_skill] returns: any exception is reported and turned into
    [None]. The report is a [print] in the handler, see [run_load_skill]. *)
Definition load_skill (skill_path : string) (read_text : result string)
  : option SkillData :=
  match load_skill_try skill_path read_text with
  | Ok skill_data => Some skill_data
  | Raise _ => None
  end.

(** The registry that the body of the loop of [discover_skills] leaves
    for one entry; [skill_file.parent] is the entry itself. What the body
    prints, and what it raises outside its [try], is in
    [run_discover_entry]. *)
Definition discover_entry (skills : registry) (d : DirEntry) : result registry :=
  if is_dir d
  then match skill_file d with
       | Some read_text =>
           try_except
             (match load_skill (entry_path d) read_text with
              | Some skill_data =>
                  (key <- hash_key (name (sd_metadata skill_data)) ;;
                   Ok (dict_set key skill_data skills))%result
              | None => Ok skills
              end)
             (fun _ => Ok skills)
       | None => Ok skills
       end
  else Ok skills.

(** The registry [discover_skills] leaves, over the entries in the order
    [iterdir] yields them. *)
Fixpoint discover_skills (skills : registry) (entries : list DirEntry)
  : result registry :=
  match entries with
  | [] => Ok skills
  | d :: entries' =>
      (skills' <- discover_entry skills d ;;
       discover_skills skills' entries')%result
  end.

(** The skill an entry contributes, with the key it is stored under. *)
Definition entry_skill (d : DirEntry) : option (hashable * SkillData) :=
  if is_dir d
  then match skill_file d with
       | Some read_text =>
           match load_skill (entry_path d) read_text with
           | Some skill_data =>
               match hash_key (name (sd_metadata skill_data)) with
               | Ok key => Some (key, skill_data)
               | Raise _ => None
               end
           | None => None
           end
       | None => None
       end
  else None.

(** The registry after an entry has been processed. *)
Definition add_entry (skills : registry) (d : DirEntry) : registry :=
  match entry_skill d with
  | Some (key, skill_data) => dict_set key skill_data skills
  | None => skills
  end.

(** A metadata document without the frontmatter block, or whose
    frontmatter lacks [name] or [description]. *)
Definition lacks_metadata (content : string) : Prop :=
  frontmatter_match content = None
  \/ exists (group1 rest : string) (frontmatter : yaml),
       frontmatter_match content = Some (group1, rest)
       /\ yaml_safe_load group1 = Ok frontmatter
       /\ (yaml_in "name" frontmatter <> Ok true
           \/ yaml_in "description" frontmatter <> Ok true).


End WithYaml.

(** A parser for examples: every line [key: value] is an item of a
    mapping, with a string for its value. *)
Definition flat_yaml (text : string) : result yaml :=
  Ok (YMap (dict_of_items
              (omap (fun line =>
                       match split line ": " with
                       | [k; v] => Some (k, YStr v)
                       | _ => None
                       end)
                    (split text nl)))).

(** ** Activation and workflows *)

(** The values of a context [Dict[str, Any]]. *)
Inductive pyval : Type :=
  | PNone
  | PBool (b : bool)
  | PInt (z : Z)
  | PStr (s : string)
  | PList (items : list pyval)
  | PDict (items : dict string pyval).

Abbreviation context := (dict string pyval).

(** The arguments of a call of [ollama.generate]. *)
Record GenerateCall : Type := mkGenerateCall {
  model : string;
  system : option string;
  prompt : string;
  temperature : Q;
  num_predict : Z
}.

(** What a run does that can be observed from outside: it enters
    [activate_skill], it calls [ollama.generate]. *)
Inductive event : Type :=
  | Activated (skill_name : string)
  | Generated (call : GenerateCall).

Definition generate_calls (trace : list event) : list GenerateCall :=
  omap (fun e => match e with Generated c => Some c | Activated _ => None end) trace.

Definition activations (trace : list event) : list string :=
  omap (fun e => match e with Activated n => Some n | Generated _ => None end) trace.

(** References to dictionaries, and the store that holds them. *)
Definition loc : Type := positive.

Record World : Type := mkWorld {
  heap : gmap loc context;
  trace : list event
}.

(** A computation reads and writes the world, and returns or raises;
    what it did before raising stays done. *)
Definition M (A : Type) : Type := World -> result A * World.

Definition ret {A : Type} (a : A) : M A := fun w => (Ok a, w).

Definition mbind {A B : Type} (m : M A) (k : A -> M B) : M B :=
  fun w =>
    match m w with
    | (Ok a, w') => k a w'
    | (Raise e, w') => (Raise e, w')
    end.

Declare Scope M_scope.
Delimit Scope M_scope with M.

Notation "x <- m ;; k" := (mbind m (fun x => k))
  (at level 20, m at level 99, k at level 200) : M_scope.

Definition lift {A : Type} (r : result A) : M A := fun w => (r, w).

(** [try: body / except Exception as e: handler(e)]. *)
Definition m_try {A : Type} (body : M A) (handler : exn -> M A) : M A :=
  fun w =>
    match body w with
    | (Ok a, w') => (Ok a, w')
    | (Raise e, w') => handler e w'
    end.

Definition log (e : event) : M unit :=
  fun w => (Ok tt, {| heap := heap w; trace := trace w ++ [e] |}).

(** [d.copy()] of the dictionary at [l]: a new dictionary with the same
    items. *)
Definition copy (l : loc) : M loc :=
  fun w =>
    match heap w !! l with
    | Some d =>
        let l' := fresh (dom (heap w)) in
        (Ok l', {| heap := <[l' := d]> (heap w); trace := trace w |})
    | None => (Raise (OtherError "no such object"), w)
    end.

(** The items of the dictionary at [l]. *)
Definition read (l : loc) : M context :=
  fun w =>
    match heap w !! l with
    | Some d => (Ok d, w)
    | None => (Raise (OtherError "no such object"), w)
    end.

(** [d[k] = v] on the dictionary at [l]. *)
Definition setitem (l : loc) (k : string) (v : pyval) : M unit :=
  fun w =>
    match heap w !! l with
    | Some d =>
        (Ok tt, {| heap := <[l := dict_set k v d]> (heap w); trace := trace w |})
    | None => (Raise (OtherError "no such object"), w)
    end.

(** The attributes of a [SkillManager]. *)
Record SkillManager : Type := mkSkillManager {
  skills_dir : string;
  skills : registry;
  ollama_model : string
}.

Section WithRuntime.

(** [json.dumps(v, indent=2)]. *)
Variable json_dumps : pyval -> result string.

(** [ollama.generate(...)['response']], which may depend on the calls made
    before. *)
Variable ollama_generate : list GenerateCall -> GenerateCall -> result string.

Definition generate (call : GenerateCall) : M string :=
  fun w =>
    (ollama_generate (generate_calls (trace w)) call,
     {| heap := heap w; trace := trace w ++ [Generated call] |}).

(** [activate_skill]. It only reads [context], which is passed by value. *)
Definition activate_skill (self : SkillManager) (skill_name : string)
    (context : context) : M string :=
  (_ <- log (Activated skill_name) ;;
   match dict_lookup (skills self) (HStr skill_name) with
   | None => ret ("Skill '" +:+ skill_name +:+ "' not found.")
   | Some skill_data =>
       dumped <- lift (json_dumps (PDict context)) ;;
       let prompt :=
         "You are executing the skill: " +:+ skill_name +:+ nl +:+ nl
         +:+ "SKILL INSTRUCTIONS:" +:+ nl
         +:+ body skill_data +:+ nl +:+ nl
         +:+ "CONTEXT DATA:" +:+ nl
         +:+ dumped +:+ nl +:+ nl
         +:+ "TASK: Based on the skill instructions above, process the context data and provide the result."
         +:+ nl +:+ "        " +:+ nl
         +:+ "RESULT:" in
       m_try
         (generate {| model := ollama_model self;
                      system := None;
                      prompt := prompt;
                      temperature := (3 # 10)%Q;
                      num_predict := 1000 |})
         (fun e => ret ("Error executing skill: " +:+ exn_message e))
   end)%M.

(** The key [f"step_{i+1}_{skill_name}"]. *)
Definition step_key (i : nat) (skill_name : string) : string :=
  "step_" +:+ str_of_nat (i + 1) +:+ "_" +:+ skill_name.

(** [print(s)]: it raises when the console does not take [s] (an encoding
    without one of its characters, a closed stream). *)
Variable print : string -> result unit.

(** The body of the loop of [execute_workflow] after its [print], on the
    dictionary at [context]. *)
Definition workflow_step (self : SkillManager) (context : loc) (i : nat)
    (skill_name : string) : M unit :=
  (items <- read context ;;
   result <- activate_skill self skill_name items ;;
   _ <- setitem context (step_key i skill_name) (PStr result) ;;
   setitem context "previous_result" (PStr result))%M.

(** The loop of [execute_workflow]; [total] is [len(workflow)]. Each pass
    announces its step, outside any [try], and then runs [workflow_step]. *)
Fixpoint workflow_loop (self : SkillManager) (context : loc) (total i : nat)
    (workflow : list string) : M unit :=
  match workflow with
  | [] => ret tt
  | skill_name :: workflow' =>
      (_ <- lift (print ("🚀 Executing step " +:+ str_of_nat (i + 1) +:+ "/"
                         +:+ str_of_nat total +:+ ": " +:+ skill_name)) ;;
       _ <- workflow_step self context i skill_name ;;
       workflow_loop self context total (i + 1) workflow')%M
  end.

(** [execute_workflow]. *)
Definition execute_workflow (self : SkillManager) (workflow : list string)
    (initial_context : loc) : M loc :=
  (context <- copy initial_context ;;
   _ <- workflow_loop self context (length workflow) 0 workflow ;;
   ret context)%M.

End WithRuntime.

(** ** Data for examples *)

Definition skill_text (name description body : string) : string :=
  "---" +:+ nl +:+ "name: " +:+ name +:+ nl +:+ "description: " +:+ description
  +:+ nl +:+ "---" +:+ nl +:+ body.

Definition skill_entry (dir : string) (content : string) : DirEntry :=
  {| entry_path := "skills/" +:+ dir;
     entry_name := dir;
     is_dir := true;
     skill_file := Some (Ok content) |}.

Definition loaded (dir name description body : string) : SkillData :=
  {| sd_metadata := {| name := YStr name;
                       description := YStr description;
                       license := YNull;
                       compatibility := YNull;
                       metadata := YMap [];
                       allowed_tools := None;
                       path := "skills/" +:+ dir |};
     frontmatter := YMap [("name", YStr name); ("description", YStr description)];
     body := body;
     full_content := skill_text name description body |}.

(** A runtime for examples: every value serializes, every call answers,
    the console takes every line. *)
Definition prints_all (_ : string) : result unit := Ok tt.
Definition json_braces (_ : pyval) : result string := Ok "{}".
Definition answers_done (_ : list GenerateCall) (_ : GenerateCall) : result string :=
  Ok "done".

Definition no_skills : SkillManager :=
  {| skills_dir := "skills"; skills := []; ollama_model := "qwen3:1.7b" |}.

Definition one_context : World :=
  {| heap := {[ 1%positive := [("user_query", PStr "q")] ]}; trace := [] |}.

(** The working dictionary after one step and after two. *)
Definition working_context (workflow : list string) : option context :=
  let '(r, w) :=
    execute_workflow json_braces answers_done prints_all no_skills workflow 1%positive
      one_context in
  match r with
  | Ok l => heap w !! l
  | Raise _ => None
  end.

(** ** Lookup and matching *)

(** [get_skill_instructions]. *)
Definition get_skill_instructions (self : SkillManager) (skill_name : string)
  : option string :=
  match dict_lookup (skills self) (HStr skill_name) with
  | Some skill_data => Some (full_content skill_data)
  | None => None
  end.

(** The keywords of [match_skill_to_query]. *)
Definition keywords : list string :=
  [ "document"; "pdf"; "text"; "extract"; "retrieve";
    "search"; "query"; "summarize"; "summary"; "answer" ].

(** [y.lower()] for a metadata field: only a string has the method. *)
Definition yaml_lower (y : yaml) : result string :=
  match y with
  | YStr s => Ok (lower s)
  | YNull => Raise (AttributeError "'NoneType' object has no attribute 'lower'")
  | YBool _ => Raise (AttributeError "'bool' object has no attribute 'lower'")
  | YInt _ => Raise (AttributeError "'int' object has no attribute 'lower'")
  | YList _ => Raise (AttributeError "'list' object has no attribute 'lower'")
  | YMap _ => Raise (AttributeError "'dict' object has no attribute 'lower'")
  end.

(** [any(keyword in query_lower and keyword in description
         for keyword in keywords)]. *)
Definition shares_keyword (query_lower description : string) : bool :=
  existsb (fun keyword => contains query_lower keyword && contains description keyword)
          keywords.

(** The loop [for skill_name, skill_data in self.skills.items()] of
    [match_skill_to_query]. *)
Fixpoint match_loop (query_lower : string) (items : list (hashable * SkillData))
    (matched_skills : list hashable) : result (list hashable) :=
  match items with
  | [] => Ok matched_skills
  | (skill_name, skill_data) :: items' =>
      (description <- yaml_lower (description (sd_metadata skill_data)) ;;
       match_loop query_lower items'
         (if shares_keyword query_lower description
          then matched_skills ++ [skill_name]
          else matched_skills))%result
  end.

(** [match_skill_to_query]. *)
Definition match_skill_to_query (self : SkillManager) (user_query : string)
  : result (list hashable) :=
  match_loop (lower user_query) (skills self) [].

(** ** Discovery as it runs *)

Section Running.

Variable yaml_safe_load : string -> result yaml.

(** [str(v)] for a value that is not a string. *)
Variable yaml_repr : yaml -> string.

(** [print(s)]. It raises when the stream does not take [s]: it is closed,
    or it cannot encode a character of [s], as for the name of a file with
    a byte that is no UTF-8, which Python keeps as a lone surrogate. *)
Variable print : string -> result unit.

(** [skill_dir.is_dir()] and, for a directory, [skill_file.exists()]: they
    answer as the entry says, or one of them raises. *)
Variable stat : DirEntry -> result unit.

(** [str(v)] for a value of the frontmatter, as an f-string formats it. *)
Definition str_yaml (y : yaml) : string :=
  match y with
  | YStr s => s
  | _ => yaml_repr y
  end.

(** [load_skill] as it runs: the handler prints what the [try] block
    raised and returns [None]; what this [print] raises leaves the
    method. *)
Definition run_load_skill (skill_path : string) (read_text : result string)
  : result (option SkillData) :=
  match load_skill_try yaml_safe_load skill_path read_text with
  | Ok skill_data => Ok (Some skill_data)
  | Raise e =>
      (_ <- print ("Error parsing " +:+ skill_path +:+ "/SKILL.md: "
                   +:+ exn_message e) ;;
       Ok None)%result
  end.

(** The body of the loop of [discover_skills] for one entry, as it runs.
    In the [try], the skill is stored before its line is printed, so it
    stays in the registry when that [print] raises: [tried] is the outcome
    of the [try] and the registry it leaves. The handler prints what the
    [try] raised, and no [try] guards this [print]. *)
Definition run_discover_entry (skills : registry) (d : DirEntry) : result registry :=
  (_ <- stat d ;;
   if is_dir d
   then match skill_file d with
        | Some read_text =>
            let '(skills', tried) :=
              match run_load_skill (entry_path d) read_text with
              | Raise e => (skills, Raise e)
              | Ok None => (skills, Ok tt)
              | Ok (Some skill_data) =>
                  match hash_key (name (sd_metadata skill_data)) with
                  | Raise e => (skills, Raise e)
                  | Ok key =>
                      (dict_set key skill_data skills,
                       print ("  ✓ Loaded skill: "
                              +:+ str_yaml (name (sd_metadata skill_data))))
                  end
              end in
            match tried with
            | Ok _ => Ok skills'
            | Raise e =>
                _ <- print ("  ✗ Error loading skill " +:+ entry_name d +:+ ": "
                            +:+ exn_message e) ;;
                Ok skills'
            end
        | None => Ok skills
        end
   else Ok skills)%result.

(** The loop of [discover_skills], as it runs. *)
Fixpoint run_discover_loop (skills : registry) (entries : list DirEntry)
  : result registry :=
  match entries with
  | [] => Ok skills
  | d :: entries' =>
      (skills' <- run_discover_entry skills d ;;
       run_discover_loop skills' entries')%result
  end.

(** [discover_skills], as it runs. [skills_dir] is [self.skills_dir] as
    text and [listing] what [self.skills_dir.iterdir()] gives: the entries,
    or an exception (for a path that is no directory, or one that may not
    be read). *)
Definition run_discover_skills (skills_dir : string)
    (listing : result (list DirEntry)) (skills : registry) : result registry :=
  (_ <- print ("🔍 Discovering skills in " +:+ skills_dir +:+ "...") ;;
   entries <- listing ;;
   run_discover_loop skills entries)%result.

(** [__init__]. [directory] is the outcome of [self.skills_dir.exists()]
    and, when the directory is not there, of [mkdir]. *)
Definition init (skills_dir : string) (directory : result unit)
    (listing : result (list DirEntry)) : result SkillManager :=
  (_ <- directory ;;
   skills <- run_discover_skills skills_dir listing [] ;;
   Ok {| skills_dir := skills_dir;
         skills := skills;
         ollama_model := "qwen3:1.7b" |})%result.

End Running.

(** For examples: file-system calls that return, and a stream that takes
    every line but those with the name [bad_name], which stands for a name
    it cannot encode. *)
Definition stats_all (_ : DirEntry) : result unit := Ok tt.

Definition no_text (_ : yaml) : string := "".

Definition UnicodeEncodeError : exn :=
  OtherError "'utf-8' codec can't encode character: surrogates not allowed".

Definition prints_names (line : string) : result unit :=
  if contains line "bad_name" then Raise UnicodeEncodeError else Ok tt.

(** Whether [match_skill_to_query] keeps an item of the registry. *)
Definition matches (query_lower : string) (item : hashable * SkillData) : bool :=
  match description (sd_metadata (snd item)) with
  | YStr s => shares_keyword query_lower (lower s)
  | _ => false
  end.

(** The description of an item of the registry is a string. *)
Definition described (item : hashable * SkillData) : Prop :=
  exists s : string, description (sd_metadata (snd item)) = YStr s.

(** A manager with two skills, and one whose only skill has a number for
    its description. *)
Definition two_loaded : SkillManager :=
  {| skills_dir := "skills";
     skills := [ (HStr "extract", loaded "a" "extract" "Extract text from a PDF" "One");
                 (HStr "summarize", loaded "b" "summarize" "Write a summary" "Two") ];
     ollama_model := "qwen3:1.7b" |}.

Definition numbered : SkillManager :=
  {| skills_dir := "skills";
     skills := [ (HStr "odd",
                  {| sd_metadata := {| name := YStr "odd";
                                       description := YInt 7;
                                       license := YNull;
                                       compatibility := YNull;
                                       metadata := YMap [];
                                       allowed_tools := None;
                                       path := "skills/odd" |};
                     frontmatter := YMap [("name", YStr "odd"); ("description", YInt 7)];
                     body := "";
                     full_content := "" |}) ];
     ollama_model := "qwen3:1.7b" |}.

End Skills.

(* ===================================================================== *)
(** * agent_core.py *)
(* ===================================================================== *)

Module Agent.

Import Py Skills.

(** The attributes of a [DocumentQAAgent] that the methods read. *)
Record DocumentQAAgent : Type := mkAgent {
  skill_manager : SkillManager;
  agent_model : string
}.

(** [OLLAMA_MODEL], from config.py. *)
Definition OLLAMA_MODEL : string := "qwen3:1.7b".

(** The marker that introduces a skill request. *)
Definition marker : string := "[USE_SKILL:".

(** [line.split('[USE_SKILL:')[1].split(']')[0].strip()]. *)
Definition requested_skill (line : string) : result string :=
  (after <- item (split line marker) 1 ;;
   inside <- item (split after "]") 0 ;;
   Ok (strip inside))%result.

(** The loop [for line in lines] of [_execute_skill_chain]. *)
Fixpoint skill_requests_of (lines : list string) : result (list string) :=
  match lines with
  | [] => Ok []
  | line :: lines' =>
      if contains line marker
      then (skill_name <- requested_skill line ;;
            rest <- skill_requests_of lines' ;;
            Ok (skill_name :: rest))%result
      else skill_requests_of lines'
  end.

Definition skill_requests (agent_response : string) : result (list string) :=
  skill_requests_of (split agent_response nl).

(** [s[:n]]. *)
Definition string_prefix (n : nat) (s : string) : string := String.substring 0 n s.

(** An entry [{'skill': ..., 'result': ...}] of [results]. *)
Definition result_entry (res : string * string) : pyval :=
  PDict [("skill", PStr (fst res)); ("result", PStr (snd res))].

(** The fallback answer built from [results]. *)
Fixpoint combine_results (results : list (string * string)) (combined : string)
  : string :=
  match results with
  | [] => combined
  | res :: results' =>
      combine_results results'
        (combined +:+ "**" +:+ fst res +:+ "**: "
         +:+ string_prefix 500 (snd res) +:+ "..." +:+ nl +:+ nl)
  end.

Section WithRuntime.

Variable json_dumps : pyval -> result string.
Variable ollama_generate : list GenerateCall -> GenerateCall -> result string.

(** [str(v)], as an f-string formats a value that is not a string. *)
Variable py_repr : pyval -> string.

Definition format (v : pyval) : string :=
  match v with
  | PStr s => s
  | _ => py_repr v
  end.

(** [str(v)] for a metadata field. *)
Variable yaml_repr : yaml -> string.

Definition format_yaml (y : yaml) : string :=
  match y with
  | YStr s => s
  | _ => yaml_repr y
  end.

(** [get_available_skills_xml], from skill_manager.py. *)
Definition get_available_skills_xml (self : SkillManager) : string :=
  fold_left
    (fun skills_xml item =>
       let metadata := sd_metadata (snd item) in
       skills_xml +:+ "  <skill>" +:+ nl
       +:+ "    <name>" +:+ format_yaml (name metadata) +:+ "</name>" +:+ nl
       +:+ "    <description>" +:+ format_yaml (description metadata)
       +:+ "</description>" +:+ nl
       +:+ "    <path>" +:+ path metadata +:+ "</path>" +:+ nl
       +:+ "  </skill>" +:+ nl)
    (skills self) ("<available_skills>" +:+ nl)
  +:+ "</available_skills>".

(** [get_system_prompt]. *)
Definition get_system_prompt (self : DocumentQAAgent) : string :=
  "You are an intelligent document analysis assistant with access to specialized skills."
  +:+ nl +:+ nl
  +:+ "AVAILABLE SKILLS:" +:+ nl
  +:+ get_available_skills_xml (skill_manager self) +:+ nl +:+ nl
  +:+ "HOW TO USE SKILLS:" +:+ nl
  +:+ "1. Analyze the user's request to determine which skills are needed" +:+ nl
  +:+ "2. You can use multiple skills in sequence if needed" +:+ nl
  +:+ "3. Each skill provides specific instructions for its task" +:+ nl
  +:+ "4. When you decide to use a skill, output: [USE_SKILL:skill_name]" +:+ nl
  +:+ "5. After skill execution, continue processing with the results" +:+ nl +:+ nl
  +:+ "RESPONSE FORMAT:" +:+ nl
  +:+ "- Think step by step" +:+ nl
  +:+ "- Indicate which skills you're using" +:+ nl
  +:+ "- Provide clear, concise answers" +:+ nl
  +:+ "- Cite sources when relevant" +:+ nl
  +:+ "- Acknowledge limitations" +:+ nl.

(** The loop [for skill_name in skill_requests] of [_execute_skill_chain];
    the state is [workflow_context] and [results]. *)
Fixpoint run_requests (self : DocumentQAAgent) (requests : list string)
    (workflow_context : context) (results : list (string * string))
  : M (context * list (string * string)) :=
  match requests with
  | [] => ret (workflow_context, results)
  | skill_name :: requests' =>
      let skill_context : context :=
        [ ("user_query", dict_get workflow_context "user_query" (PStr ""));
          ("document_content", dict_get workflow_context "document_text" (PStr ""));
          ("previous_results", PList (map result_entry results));
          ("workflow_step", PInt (Z.of_nat (length results) + 1)) ] in
      (result <- activate_skill json_dumps ollama_generate (skill_manager self)
                   skill_name skill_context ;;
       run_requests self requests'
         (dict_set ("result_" +:+ skill_name) (PStr result) workflow_context)
         (results ++ [(skill_name, result)]))%M
  end.

(** [_execute_skill_chain]. The context is only read and copied, so it
    is passed by value; [None] stands for no context. *)
Definition execute_skill_chain (self : DocumentQAAgent) (agent_response : string)
    (context : option context) : M string :=
  (requests <- lift (skill_requests agent_response) ;;
   match requests with
   | [] => ret agent_response
   | _ =>
       let workflow_context : Skills.context :=
         match context with
         | Some (item :: items) => item :: items
         | _ => []
         end in
       state <- run_requests self requests workflow_context [] ;;
       let '(workflow_context, results) := state in
       dumped <- lift (json_dumps (PList (map result_entry results))) ;;
       let final_prompt :=
         "SKILL EXECUTION RESULTS:" +:+ nl
         +:+ dumped +:+ nl +:+ nl
         +:+ "ORIGINAL USER REQUEST: "
         +:+ format (dict_get workflow_context "user_query" (PStr "Unknown"))
         +:+ nl +:+ nl
         +:+ "TASK: Synthesize the skill execution results into a clear, comprehensive answer for the user."
         +:+ nl
         +:+ "Focus on accuracy, completeness, and relevance to the original question."
         +:+ nl +:+ nl
         +:+ "FINAL ANSWER:" in
       m_try
         (generate ollama_generate
                   {| model := agent_model self;
                      system := None;
                      prompt := final_prompt;
                      temperature := (2 # 10)%Q;
                      num_predict := 1500 |})
         (fun _ =>
            ret (combine_results results
                   ("Skill execution completed. Results:" +:+ nl +:+ nl)))
   end)%M.

(** What [d[:5000]] raises for a dict [d], whose keys are looked up by
    hash: TypeError (unhashable type: 'slice') up to Python 3.11, and
    KeyError for the slice from Python 3.12 on, where slices hash. *)
Variable slice_of_dict : exn.

(** [context['document_text'][:5000]], formatted: a string and a list are
    sliced, a dict is asked for the slice as a key, and the other values
    have no [__getitem__]. *)
Definition document_excerpt (v : pyval) : result string :=
  match v with
  | PStr s => Ok (string_prefix 5000 s)
  | PList items => Ok (py_repr (PList (firstn 5000 items)))
  | PDict _ => Raise slice_of_dict
  | PNone => Raise (TypeError "'NoneType' object is not subscriptable")
  | PBool _ => Raise (TypeError "'bool' object is not subscriptable")
  | PInt _ => Raise (TypeError "'int' object is not subscriptable")
  end.

(** [process_with_skills]. *)
Definition process_with_skills (self : DocumentQAAgent) (user_input : string)
    (context : option context) : M string :=
  let system_prompt := get_system_prompt self in
  let request := "USER REQUEST: " +:+ user_input +:+ nl +:+ nl in
  (user_prompt <-
     lift match context with
          | Some (item :: items) =>
              match dict_lookup (item :: items) "document_text" with
              | Some v =>
                  (excerpt <- document_excerpt v ;;
                   Ok (request +:+ "DOCUMENT CONTEXT:" +:+ nl +:+ excerpt
                       +:+ "..." +:+ nl))%result
              | None => Ok request
              end
          | _ => Ok request
          end ;;
   m_try
     (agent_response <- generate ollama_generate
                          {| model := agent_model self;
                             system := Some system_prompt;
                             prompt := user_prompt;
                             temperature := (3 # 10)%Q;
                             num_predict := 2000 |} ;;
      if contains agent_response marker
      then execute_skill_chain self agent_response context
      else ret agent_response)
     (fun e => ret ("Error: " +:+ exn_message e)))%M.

End WithRuntime.

(** ** Data for examples *)

(** An agent whose registry holds the skills [extract] and [summarize]. *)
Definition two_skills : DocumentQAAgent :=
  {| skill_manager :=
       {| skills_dir := "skills";
          skills := [ (HStr "extract", loaded "a" "extract" "first" "One");
                      (HStr "summarize", loaded "b" "summarize" "second" "Two") ];
          ollama_model := "qwen3:1.7b" |};
     agent_model := OLLAMA_MODEL |}.

Definition no_repr {A : Type} (_ : A) : string := "".

Definition nothing_yet : World := {| heap := ∅; trace := [] |}.

(** What a run of [_execute_skill_chain] on [two_skills] leaves in the
    trace: the skills activated, and the temperature of each call of
    [ollama.generate] (0.3 for a skill, 0.2 for the synthesis). *)
Definition chain_trace (agent_response : string) : list (string + Q) :=
  map (fun e => match e with
                | Activated n => inl n
                | Generated c => inr (temperature c)
                end)
      (trace (snd (execute_skill_chain json_braces answers_done no_repr two_skills
                     agent_response None nothing_yet))).

(** The document text of a context, if it has one. *)
Definition document_text (context : option context) : option pyval :=
  match context with
  | Some (item :: items) => dict_lookup (item :: items) "document_text"
  | _ => None
  end.

(** ** process_document *)

(** A record of [processed_documents]. *)
Record Document : Type := mkDocument {
  doc_id : string;
  doc_path : string;
  doc_content : string;
  doc_length : nat
}.

(** What [process_document] returns: [{"error": ...}], or the identifier
    and the preview. *)
Inductive Processed : Type :=
  | Failed (error : string)
  | Loaded (document_id content_preview : string).

(** What the file system holds at a path: the outcome of reading the file
    as UTF-8 text, and of the PyPDF2 fallback (opening the reader, then
    [extract_text] page by page). *)
Record FileOutcome : Type := mkFileOutcome {
  text_read : result string;
  pdf_read : result (list (result string))
}.

(** [for page in reader.pages: content += page.extract_text() + "\n\n"]. *)
Fixpoint pdf_pages (pages : list (result string)) (content : string)
  : result string :=
  match pages with
  | [] => Ok content
  | page :: pages' =>
      (page_text <- page ;;
       pdf_pages pages' (content +:+ page_text +:+ nl +:+ nl))%result
  end.

(** The two nested [try] blocks that read the content. *)
Definition read_document (file : FileOutcome) : result string :=
  match text_read file with
  | Ok content => Ok content
  | Raise _ => (pages <- pdf_read file ;; pdf_pages pages "")%result
  end.

Section WithFiles.

(** [Path(file_path).stem]. *)
Variable stem : string -> string.

(** [process_document], on [self.processed_documents]. *)
Definition process_document (processed_documents : dict string Document)
    (file_path : string) (file : FileOutcome)
  : Processed * dict string Document :=
  match read_document file with
  | Raise e =>
      (Failed ("Cannot read document: " +:+ exn_message e), processed_documents)
  | Ok content =>
      let doc_id := "doc_" +:+ stem file_path in
      (Loaded doc_id
              (if (500 <? String.length content)%nat
               then string_prefix 500 content +:+ "..."
               else content),
       dict_set doc_id
                {| doc_id := doc_id;
                   doc_path := file_path;
                   doc_content := content;
                   doc_length := String.length content |}
                processed_documents)
  end.

End WithFiles.

(** ** interactive_session *)

(** What the session hands to the console, [console.print] and the
    prompt of [console.input]: the opening panel, the prompt for a path,
    the two lines of [process_document] (with the file's name, and with the
    number of characters read), the error of a document that could not be
    read, the notice that a document is ready, the prompt for a question,
    the notice that a question is processed, the line [process_with_skills]
    prints before its [try], and the panel with an answer. *)
Inductive shown : Type :=
  | ShownWelcome
  | ShownPathPrompt
  | ShownProcessing (name : string)
  | ShownLoaded (chars : nat)
  | ShownError (error : string)
  | ShownReady
  | ShownQuestionPrompt
  | ShownQuestion
  | ShownThinking
  | ShownAnswer (response : string).

(** [s.lower() in ['quit', 'exit']]. *)
Definition quits (s : string) : bool :=
  String.eqb (lower s) "quit" || String.eqb (lower s) "exit".

(** [console.input] at the end of the input. *)
Definition EOFError : exn := OtherError "EOF when reading a line".

Section WithConsole.

Variable json_dumps : pyval -> result string.
Variable ollama_generate : list GenerateCall -> GenerateCall -> result string.
Variable py_repr : pyval -> string.
Variable yaml_repr : yaml -> string.
Variable slice_of_dict : exn.
Variable stem : string -> string.

(** [Path(file_path).name]. *)
Variable path_name : string -> string.

(** What the file system holds at each path. *)
Variable files : string -> FileOutcome.

(** The console: rich renders the markup of what it is given and writes
    it. It raises on markup it cannot parse, such as a closing tag that
    nothing opened in an error text or in a file's name, both put into the
    markup as they are, and on text the stream cannot encode. *)
Variable console : shown -> result unit.

(** One thing shown; [output] is what has been shown so far. *)
Definition show (x : shown) (output : list shown) : M (list shown) :=
  (_ <- lift (console x) ;; ret (output ++ [x]))%M.

(** [process_document] with the two lines it prints, the first before it
    reads and the second after it has stored the document. *)
Definition process_document_shown (processed_documents : dict string Document)
    (file_path : string) (output : list shown)
  : M (Processed * dict string Document * list shown) :=
  (output <- show (ShownProcessing (path_name file_path)) output ;;
   let file := files file_path in
   match read_document file with
   | Raise _ =>
       ret (process_document stem processed_documents file_path file, output)
   | Ok content =>
       output <- show (ShownLoaded (String.length content)) output ;;
       ret (process_document stem processed_documents file_path file, output)
   end)%M.

(** The loop [while True] of [interactive_session], over the lines the
    user still types, each pass showing one prompt and reading one line.
    [current_doc] is the result of [process_document] that the questions
    are about. The lines [_execute_skill_chain] prints are inside the [try]
    of [process_with_skills] and are not shown here. *)
Fixpoint session_loop (self : DocumentQAAgent) (inputs : list string)
    (current_doc : option (string * string))
    (processed_documents : dict string Document) (output : list shown)
  : M (dict string Document * list shown) :=
  (output <- show match current_doc with
                  | None => ShownPathPrompt
                  | Some _ => ShownQuestionPrompt
                  end output ;;
   match inputs with
   | [] => lift (Raise EOFError)
   | line :: inputs' =>
       match current_doc with
       | None =>
           let doc_path := strip line in
           if quits doc_path then ret (processed_documents, output)
           else
             state <- process_document_shown processed_documents doc_path output ;;
             let '(result, processed_documents', output) := state in
             match result with
             | Failed error =>
                 output <- show (ShownError error) output ;;
                 session_loop self inputs' None processed_documents' output
             | Loaded document_id content_preview =>
                 output <- show ShownReady output ;;
                 session_loop self inputs' (Some (document_id, content_preview))
                   processed_documents' output
             end
       | Some (document_id, content_preview) =>
           let question := strip line in
           if quits question then ret (processed_documents, output)
           else if String.eqb (lower question) "new"
           then session_loop self inputs' None processed_documents output
           else if String.eqb question ""
           then session_loop self inputs' current_doc processed_documents output
           else
             match dict_lookup processed_documents document_id with
             | None => lift (Raise (OtherError document_id))
             | Some document =>
                 let context : context :=
                   [ ("user_query", PStr question);
                     ("document_text", PStr (doc_content document));
                     ("document_id", PStr document_id) ] in
                 output <- show ShownQuestion output ;;
                 output <- show ShownThinking output ;;
                 response <- process_with_skills json_dumps ollama_generate
                               py_repr yaml_repr slice_of_dict self question
                               (Some context) ;;
                 output <- show (ShownAnswer response) output ;;
                 session_loop self inputs' current_doc processed_documents output
             end
       end
   end)%M.

(** [interactive_session]. *)
Definition interactive_session (self : DocumentQAAgent) (inputs : list string)
    (processed_documents : dict string Document)
  : M (dict string Document * list shown) :=
  (output <- show ShownWelcome [] ;;
   session_loop self inputs None processed_documents output)%M.

End WithConsole.

(** The answers among what a session has shown. *)
Definition answers (output : list shown) : list string :=
  omap (fun o => match o with ShownAnswer r => Some r | _ => None end) output.

(** The calls of [ollama.generate] that open a [process_with_skills]: those
    with a system prompt. *)
Definition opening_calls (trace : list event) : list GenerateCall :=
  List.filter (fun c => match system c with Some _ => true | None => false end)
              (generate_calls trace).

(** The current document is among the processed ones. *)
Definition known (current_doc : option (string * string))
    (docs : dict string Document) : Prop :=
  match current_doc with
  | Some (document_id, _) => dict_lookup docs document_id <> None
  | None => True
  end.

(** A line that does not end the session. *)
Definition stays (line : string) : Prop := quits (strip line) = false.

(** A file that reads as text, and one that reads neither way. *)
Definition text_file (content : string) : FileOutcome :=
  {| text_read := Ok content; pdf_read := Raise (OtherError "not a PDF") |}.

Definition no_file : FileOutcome :=
  {| text_read := Raise (OtherError "No such file or directory");
     pdf_read := Raise (OtherError "PdfReadError") |}.

(** A path at which there is no file: both attempts to open it fail, with
    the path in the message. *)
Definition missing_file (file_path : string) : FileOutcome :=
  let e := OtherError ("[Errno 2] No such file or directory: '" +:+ file_path +:+ "'") in
  {| text_read := Raise e; pdf_read := Raise e |}.

(** A stand-in for [Path.stem] and [Path.name] on paths without directory
    or suffix. *)
Definition whole_path (file_path : string) : string := file_path.

(** A console that takes everything, and one that takes everything but
    an error text or a file's name with a closing tag that nothing
    opened. *)
Definition shows_all (_ : shown) : result unit := Ok tt.

(** A stand-in for rich's MarkupError. *)
Definition MarkupError : exn := OtherError "closing tag doesn't match any open tag".

Definition parses_markup (x : shown) : result unit :=
  match x with
  | ShownError text | ShownProcessing text =>
      if contains text "[/x]" then Raise MarkupError else Ok tt
  | _ => Ok tt
  end.

(** What [d[:5000]] raises for a dict up to Python 3.11. *)
Definition unhashable_slice : exn := TypeError "unhashable type: 'slice'".

End Agent.

(* ===================================================================== *)
(** * Properties of the Python built-ins *)
(* ===================================================================== *)

Module PyFacts.
Import Py.

Lemma clamp_index_zero (n : Z) : 0 <= n -> clamp_index n 0 = 0.
Proof. intros Hn. unfold clamp_index. simpl. lia. Qed.

Lemma take_firstn {A : Type} (l : list A) (k : Z) :
  take l k = firstn (take_count (length l) k) l.
Proof.
  unfold take, slice, take_count.
  rewrite clamp_index_zero by lia. simpl skipn. rewrite Z.sub_0_r. reflexivity.
Qed.

Lemma take_map {A B : Type} (f : A -> B) (l : list A) (k : Z) :
  take (map f l) k = map f (take l k).
Proof. rewrite !take_firstn, length_map, firstn_map. reflexivity. Qed.

Lemma take_length_le {A : Type} (l : list A) (k : Z) :
  0 <= k -> Z.of_nat (length (take l k)) <= k.
Proof.
  intros Hk. rewrite take_firstn, length_firstn. unfold take_count, clamp_index.
  destruct (Z.ltb_spec k 0); lia.
Qed.

Lemma take_all {A : Type} (l : list A) : take l (Z.of_nat (length l)) = l.
Proof.
  rewrite take_firstn. unfold take_count, clamp_index.
  destruct (Z.ltb_spec (Z.of_nat (length l)) 0); [lia|].
  rewrite Z.min_id, Nat2Z.id. apply firstn_all.
Qed.

Lemma In_firstn {A : Type} (n : nat) (l : list A) (x : A) :
  In x (firstn n l) -> In x l.
Proof.
  revert l. induction n as [|n IH]; intros [|y l]; simpl; try tauto.
  intros [->|Hx]; [left; reflexivity|right; apply IH; exact Hx].
Qed.

Lemma take_incl {A : Type} (l : list A) (k : Z) (x : A) : In x (take l k) -> In x l.
Proof. rewrite take_firstn. apply In_firstn. Qed.

Section StableSort.

Context {A : Type}.
Variable before : A -> A -> bool.

Lemma insert_sorted_perm (x : A) (l : list A) :
  Permutation (insert_sorted before x l) (x :: l).
Proof.
  induction l as [|y l IH]; simpl.
  - reflexivity.
  - destruct (before y x).
    + rewrite IH. apply perm_swap.
    + reflexivity.
Qed.

Lemma stable_sort_perm (l : list A) : Permutation (stable_sort before l) l.
Proof.
  induction l as [|x l IH]; simpl.
  - reflexivity.
  - rewrite insert_sorted_perm. constructor. exact IH.
Qed.

Lemma stable_sort_in (l : list A) (x : A) : In x (stable_sort before l) <-> In x l.
Proof.
  split; apply Permutation_in;
    [apply stable_sort_perm | symmetry; apply stable_sort_perm].
Qed.

Lemma stable_sort_length (l : list A) : length (stable_sort before l) = length l.
Proof. apply Permutation_length, stable_sort_perm. Qed.

Local Abbreviation may_precede := (Py.may_precede before).

Hypothesis before_asym : forall a b, before a b = true -> before b a = false.
Hypothesis may_precede_trans :
  forall a b c, may_precede a b -> may_precede b c -> may_precede a c.

Lemma insert_sorted_sorted (x : A) (l : list A) :
  StronglySorted may_precede l -> StronglySorted may_precede (insert_sorted before x l).
Proof.
  induction 1 as [|y l Hsorted IH Hall]; simpl.
  - constructor; constructor.
  - destruct (before y x) eqn:Hyx.
    + constructor; [exact IH|].
      apply List.Forall_forall. intros z Hz.
      apply (Permutation_in _ (insert_sorted_perm x l)) in Hz.
      destruct Hz as [<-|Hz].
      * apply before_asym. exact Hyx.
      * exact (proj1 (List.Forall_forall _ _) Hall z Hz).
    + constructor; [constructor; assumption|].
      constructor; [exact Hyx|].
      apply List.Forall_forall. intros z Hz.
      apply (may_precede_trans x y z); [exact Hyx|].
      exact (proj1 (List.Forall_forall _ _) Hall z Hz).
Qed.

Lemma stable_sort_sorted (l : list A) : StronglySorted may_precede (stable_sort before l).
Proof.
  induction l as [|x l IH]; simpl.
  - constructor.
  - apply insert_sorted_sorted. exact IH.
Qed.

End StableSort.

(** Two orders that agree on the elements of a list sort it alike. *)
Lemma insert_sorted_ext {A : Type} (before1 before2 : A -> A -> bool) (x : A)
    (l : list A) :
  (forall y, In y l -> before1 y x = before2 y x) ->
  insert_sorted before1 x l = insert_sorted before2 x l.
Proof.
  induction l as [|y l IH]; intros Hagree; simpl.
  - reflexivity.
  - rewrite <- (Hagree y) by (left; reflexivity).
    destruct (before1 y x); [|reflexivity].
    f_equal. apply IH. intros z Hz. apply Hagree. right. exact Hz.
Qed.

Lemma stable_sort_ext {A : Type} (before1 before2 : A -> A -> bool) (l : list A) :
  (forall x y, In x l -> In y l -> before1 y x = before2 y x) ->
  stable_sort before1 l = stable_sort before2 l.
Proof.
  induction l as [|x l IH]; intros Hagree; simpl.
  - reflexivity.
  - rewrite IH by (intros; apply Hagree; right; assumption).
    apply insert_sorted_ext. intros y Hy.
    apply Hagree; [left; reflexivity|].
    right. apply (stable_sort_in before2). exact Hy.
Qed.

(** Sorting the images is the image of sorting by the order pulled back. *)
Lemma insert_sorted_map {A B : Type} (g : A -> B) (before : B -> B -> bool)
    (x : A) (l : list A) :
  insert_sorted before (g x) (map g l)
  = map g (insert_sorted (fun a b => before (g a) (g b)) x l).
Proof.
  induction l as [|y l IH]; simpl.
  - reflexivity.
  - destruct (before (g y) (g x)); simpl; [rewrite IH|]; reflexivity.
Qed.

Lemma stable_sort_map {A B : Type} (g : A -> B) (before : B -> B -> bool)
    (l : list A) :
  stable_sort before (map g l)
  = map g (stable_sort (fun a b => before (g a) (g b)) l).
Proof.
  induction l as [|x l IH]; simpl.
  - reflexivity.
  - rewrite IH. apply insert_sorted_map.
Qed.

(** ** Dictionaries *)

Section DictFacts.

Context {K V : Type} `{EqDecision K}.

Lemma dict_set_fresh (k : K) (v : V) (d : dict K V) :
  ~ In k (keys d) -> dict_set k v d = d ++ [(k, v)].
Proof.
  induction d as [|[k' v'] d IH]; simpl; intros Hfresh.
  - reflexivity.
  - case_bool_decide as Hk; [subst; tauto|].
    rewrite IH by tauto. reflexivity.
Qed.

Lemma dict_fold_distinct (items : list (K * V)) :
  forall d : dict K V,
    List.NoDup (keys (d ++ items)) ->
    fold_left (fun d kv => dict_set (fst kv) (snd kv) d) items d = d ++ items.
Proof.
  induction items as [|[k v] items IH]; intros d Hnodup; simpl.
  - rewrite app_nil_r. reflexivity.
  - rewrite dict_set_fresh.
    + rewrite IH; rewrite <- app_assoc; [reflexivity|exact Hnodup].
    + unfold keys in *. rewrite map_app in Hnodup. simpl in Hnodup.
      apply List.NoDup_remove_2 in Hnodup. intros Hin. apply Hnodup.
      apply in_or_app. left. exact Hin.
Qed.

(** Items with distinct keys make the dictionary that lists them. *)
Lemma dict_of_items_distinct (items : list (K * V)) :
  List.NoDup (keys items) -> dict_of_items items = items.
Proof. intros Hnodup. apply (dict_fold_distinct items []). exact Hnodup. Qed.

Lemma dict_lookup_set_eq (k : K) (v : V) (d : dict K V) :
  dict_lookup (dict_set k v d) k = Some v.
Proof.
  induction d as [|[k' v'] d IH]; simpl.
  - rewrite bool_decide_eq_true_2; reflexivity.
  - case_bool_decide as Hk; simpl.
    + rewrite bool_decide_eq_true_2; reflexivity.
    + rewrite bool_decide_eq_false_2 by exact Hk. exact IH.
Qed.

Lemma dict_lookup_set_ne (k k' : K) (v : V) (d : dict K V) :
  k' <> k -> dict_lookup (dict_set k v d) k' = dict_lookup d k'.
Proof.
  intros Hne. induction d as [|[k0 v0] d IH]; simpl.
  - rewrite bool_decide_eq_false_2 by exact Hne. reflexivity.
  - case_bool_decide as Hk; simpl.
    + subst k0. rewrite !bool_decide_eq_false_2 by exact Hne. reflexivity.
    + rewrite IH. reflexivity.
Qed.

Lemma dict_set_keys (k : K) (v : V) (d : dict K V) (k' : K) :
  In k' (keys (dict_set k v d)) <-> k' = k \/ In k' (keys d).
Proof.
  induction d as [|[k0 v0] d IH]; simpl.
  - intuition congruence.
  - case_bool_decide as Hk; simpl.
    + subst k0. intuition congruence.
    + rewrite IH. intuition congruence.
Qed.

(** Assignment keeps the keys of a dictionary distinct. *)
Lemma dict_set_nodup (k : K) (v : V) (d : dict K V) :
  List.NoDup (keys d) -> List.NoDup (keys (dict_set k v d)).
Proof.
  induction d as [|[k0 v0] d IH]; simpl; intros Hnodup.
  - constructor; [tauto|constructor].
  - apply List.NoDup_cons_iff in Hnodup as [Hk0 Hnodup].
    case_bool_decide as Hk; simpl.
    + subst k0. constructor; assumption.
    + constructor; [|apply IH; exact Hnodup].
      rewrite dict_set_keys. intuition congruence.
Qed.

Lemma dict_lookup_in (f : K -> V) (l : list K) (i : K) :
  In i l -> dict_lookup (map (fun k => (k, f k)) l) i = Some (f i).
Proof.
  induction l as [|k l IH]; simpl; [tauto|].
  intros Hin. case_bool_decide as Hk; [subst; reflexivity|].
  apply IH. destruct Hin; [congruence|assumption].
Qed.

Lemma dict_lookup_not_in (f : K -> V) (l : list K) (i : K) :
  ~ In i l -> dict_lookup (map (fun k => (k, f k)) l) i = None.
Proof.
  induction l as [|k l IH]; simpl; [reflexivity|].
  intros Hnin. case_bool_decide as Hk; [subst; tauto|].
  apply IH. tauto.
Qed.

Lemma dict_get_in (f : K -> V) (l : list K) (i : K) (default : V) :
  In i l -> dict_get (map (fun k => (k, f k)) l) i default = f i.
Proof. intros Hin. unfold dict_get. rewrite dict_lookup_in; auto. Qed.

Lemma dict_get_not_in (f : K -> V) (l : list K) (i : K) (default : V) :
  ~ In i l -> dict_get (map (fun k => (k, f k)) l) i default = default.
Proof. intros Hin. unfold dict_get. rewrite dict_lookup_not_in; auto. Qed.

End DictFacts.

Lemma enumerate_from {A : Type} (default : A) (l : list A) :
  forall a : nat,
    combine (seq a (length l)) l
    = map (fun i => (i, nth (i - a) l default)) (seq a (length l)).
Proof.
  induction l as [|x l IH]; intros a; simpl.
  - reflexivity.
  - rewrite Nat.sub_diag. f_equal. rewrite IH.
    apply map_ext_in. intros i Hi. apply in_seq in Hi.
    replace (i - a)%nat with (S (i - S a)) by lia. reflexivity.
Qed.

Lemma enumerate_nth {A : Type} (default : A) (l : list A) :
  enumerate l = map (fun i => (i, nth i l default)) (seq 0 (length l)).
Proof.
  unfold enumerate. rewrite (enumerate_from default).
  apply map_ext. intros i. rewrite Nat.sub_0_r. reflexivity.
Qed.

Lemma Permutation_filter {A : Type} (p : A -> bool) (l1 l2 : list A) :
  Permutation l1 l2 -> Permutation (List.filter p l1) (List.filter p l2).
Proof.
  induction 1 as [|x l1 l2 _ IH|x y l|l1 l2 l3 _ IH1 _ IH2]; simpl.
  - constructor.
  - destruct (p x); [constructor|]; exact IH.
  - destruct (p x), (p y); try reflexivity. apply perm_swap.
  - etransitivity; eassumption.
Qed.

(** On a list without repetition a sorted order can be read through any
    relation that agrees with it on distinct elements. *)
Lemma sorted_strengthen {A : Type} (R S : A -> A -> Prop) (l : list A) :
  List.NoDup l ->
  (forall a b, In a l -> In b l -> a <> b -> R a b -> S a b) ->
  StronglySorted R l -> StronglySorted S l.
Proof.
  intros Hnodup Himp Hs. induction Hs as [|x l Hs IH Hall].
  - constructor.
  - apply List.NoDup_cons_iff in Hnodup as [Hx Hnodup].
    constructor.
    + apply IH; [exact Hnodup|].
      intros a b Ha Hb. apply Himp; right; assumption.
    + apply List.Forall_forall. intros y Hy.
      apply Himp; [left; reflexivity|right; exact Hy|congruence|].
      exact (proj1 (List.Forall_forall _ _) Hall y Hy).
Qed.

(** A list sorted by a relation without cycles of length two is the only
    sorted arrangement of its elements. *)
Lemma sorted_unique {A : Type} (R : A -> A -> Prop) :
  (forall a b, R a b -> R b a -> False) ->
  forall l1 l2 : list A,
    StronglySorted R l1 -> StronglySorted R l2 -> Permutation l1 l2 -> l1 = l2.
Proof.
  intros Hasym. induction l1 as [|a l1 IH]; intros l2 Hs1 Hs2 Hperm.
  - apply Permutation_nil in Hperm. congruence.
  - destruct l2 as [|b l2].
    { symmetry in Hperm. apply Permutation_nil in Hperm. discriminate. }
    apply StronglySorted_inv in Hs1 as [Hs1 Ha].
    apply StronglySorted_inv in Hs2 as [Hs2 Hb].
    assert (Hab : a = b).
    { assert (Hina : In a (b :: l2))
        by (apply (Permutation_in _ Hperm); left; reflexivity).
      assert (Hinb : In b (a :: l1))
        by (apply (Permutation_in _ (Permutation_sym Hperm)); left; reflexivity).
      destruct Hina as [Heq|Hina]; [congruence|].
      destruct Hinb as [Heq|Hinb]; [congruence|].
      exfalso. apply (Hasym a b).
      - exact (proj1 (List.Forall_forall _ _) Ha b Hinb).
      - exact (proj1 (List.Forall_forall _ _) Hb a Hina). }
    subst b. f_equal. apply IH; try assumption.
    apply Permutation_cons_inv in Hperm. exact Hperm.
Qed.

Lemma sorted_filter {A : Type} (R : A -> A -> Prop) (p : A -> bool) (l : list A) :
  StronglySorted R l -> StronglySorted R (List.filter p l).
Proof.
  induction 1 as [|x l Hs IH Hall]; simpl.
  - constructor.
  - destruct (p x); [|exact IH].
    constructor; [exact IH|].
    apply List.Forall_forall. intros y Hy. apply List.filter_In in Hy as [Hy _].
    exact (proj1 (List.Forall_forall _ _) Hall y Hy).
Qed.

Lemma sorted_firstn {A : Type} (R : A -> A -> Prop) (n : nat) (l : list A) :
  StronglySorted R l -> StronglySorted R (firstn n l).
Proof.
  intros Hs. revert n. induction Hs as [|x l Hs IH Hall]; intros [|n]; simpl;
    try constructor.
  - apply IH.
  - apply List.Forall_forall. intros y Hy. apply In_firstn in Hy.
    exact (proj1 (List.Forall_forall _ _) Hall y Hy).
Qed.

Lemma sorted_app_single {A : Type} (R : A -> A -> Prop) (l : list A) (x : A) :
  StronglySorted R l -> Forall (fun y => R y x) l -> StronglySorted R (l ++ [x]).
Proof.
  induction 1 as [|y l Hs IH Hall]; intros Hx; simpl.
  - constructor; constructor.
  - apply List.Forall_cons_iff in Hx as [Hyx Hx].
    constructor; [apply IH; exact Hx|].
    apply List.Forall_app. split; [exact Hall|].
    constructor; [exact Hyx|constructor].
Qed.

Lemma sorted_rev {A : Type} (R : A -> A -> Prop) (l : list A) :
  StronglySorted R l -> StronglySorted (fun a b => R b a) (rev l).
Proof.
  induction 1 as [|x l Hs IH Hall]; simpl.
  - constructor.
  - apply sorted_app_single; [exact IH|].
    apply List.Forall_forall. intros y Hy. apply in_rev in Hy.
    exact (proj1 (List.Forall_forall _ _) Hall y Hy).
Qed.

Lemma sorted_weaken {A : Type} (R S : A -> A -> Prop) (l : list A) :
  (forall a b, In a l -> In b l -> R a b -> S a b) ->
  StronglySorted R l -> StronglySorted S l.
Proof.
  intros Himp Hs. induction Hs as [|x l Hs IH Hall].
  - constructor.
  - constructor.
    + apply IH. intros a b Ha Hb. apply Himp; right; assumption.
    + apply List.Forall_forall. intros y Hy.
      apply Himp; [left; reflexivity|right; exact Hy|].
      exact (proj1 (List.Forall_forall _ _) Hall y Hy).
Qed.

(** When everything in front of an element that passes [p] passes it too,
    filtering commutes with taking leading elements. *)
Lemma filter_firstn_sorted {A : Type} (R : A -> A -> Prop) (p : A -> bool) :
  (forall a b, R a b -> p b = true -> p a = true) ->
  forall (l : list A) (n : nat),
    StronglySorted R l ->
    List.filter p (firstn n l) = firstn n (List.filter p l).
Proof.
  intros Hup l n Hs. revert n.
  induction Hs as [|x l Hs IH Hall]; intros [|n]; simpl; try reflexivity.
  destruct (p x) eqn:Hpx.
  - simpl. rewrite IH. reflexivity.
  - assert (Hnone : forall l', (forall y, In y l' -> In y l) ->
                               List.filter p l' = []).
    { induction l' as [|y l' IHl']; intros Hsub; simpl; [reflexivity|].
      destruct (p y) eqn:Hpy.
      - assert (Hy : In y l) by (apply Hsub; left; reflexivity).
        pose proof (proj1 (List.Forall_forall _ _) Hall y Hy) as Hxy.
        rewrite (Hup x y Hxy Hpy) in Hpx. discriminate.
      - apply IHl'. intros z Hz. apply Hsub. right. exact Hz. }
    rewrite (Hnone (firstn n l)) by (intros y; apply In_firstn).
    rewrite (Hnone l) by tauto.
    reflexivity.
Qed.

End PyFacts.

(* ===================================================================== *)
(** * Properties of skill_manager.py *)
(* ===================================================================== *)

Module SkillsFacts.
Import Py PyFacts Skills.

Example frontmatter_match_plain :
  frontmatter_match
    ("---" +:+ nl +:+ "name: x" +:+ nl +:+ "description: y" +:+ nl +:+ "---"
     +:+ nl +:+ "Body")
  = Some ("name: x" +:+ nl +:+ "description: y", "Body").
Proof. vm_compute. reflexivity. Qed.

Example frontmatter_match_backtracks :
  frontmatter_match ("---" +:+ nl +:+ nl +:+ "---" +:+ nl) = Some ("", "").
Proof. vm_compute. reflexivity. Qed.

Example frontmatter_match_spaces :
  frontmatter_match
    ("--- " +:+ nl +:+ " a" +:+ nl +:+ "---  " +:+ nl +:+ nl +:+ "  body")
  = Some (" a", "  body").
Proof. vm_compute. reflexivity. Qed.

Example frontmatter_match_unclosed :
  frontmatter_match ("---" +:+ nl +:+ "name: x" +:+ nl +:+ "---") = None.
Proof. vm_compute. reflexivity. Qed.

Section Discovery.

Variable yaml_safe_load : string -> result yaml.

Local Abbreviation load_skill_try := (load_skill_try yaml_safe_load).
Local Abbreviation load_skill := (load_skill yaml_safe_load).
Local Abbreviation discover_entry := (discover_entry yaml_safe_load).
Local Abbreviation discover_skills := (discover_skills yaml_safe_load).
Local Abbreviation entry_skill := (entry_skill yaml_safe_load).
Local Abbreviation add_entry := (add_entry yaml_safe_load).
Local Abbreviation lacks_metadata := (lacks_metadata yaml_safe_load).



Lemma add_entry_nodup (skills : registry) (d : DirEntry) :
  List.NoDup (keys skills) -> List.NoDup (keys (add_entry skills d)).
Proof.
  intros Hnodup. unfold Skills.add_entry.
  destruct (entry_skill d) as [[key skill_data]|]; [|exact Hnodup].
  apply dict_set_nodup. exact Hnodup.
Qed.

Lemma fold_add_entry_nodup (entries : list DirEntry) :
  forall skills : registry,
    List.NoDup (keys skills) ->
    List.NoDup (keys (fold_left add_entry entries skills)).
Proof.
  induction entries as [|d entries IH]; intros skills Hnodup; simpl.
  - exact Hnodup.
  - apply IH, add_entry_nodup, Hnodup.
Qed.

(** Entries that store nothing under [key] leave its entry alone. *)
Lemma fold_add_entry_other (key : hashable) (entries : list DirEntry) :
  Forall (fun d => forall skill_data, entry_skill d <> Some (key, skill_data))
         entries ->
  forall skills : registry,
    dict_lookup (fold_left add_entry entries skills) key = dict_lookup skills key.
Proof.
  induction 1 as [|d entries Hd Hall IH]; intros skills; simpl.
  - reflexivity.
  - rewrite IH. unfold Skills.add_entry.
    destruct (entry_skill d) as [[key' skill_data]|] eqn:Hentry; [|reflexivity].
    apply dict_lookup_set_ne. intros ->. exact (Hd skill_data eq_refl).
Qed.



End Discovery.

Lemma step_key_not_previous (i : nat) (skill_name : string) :
  step_key i skill_name <> "previous_result".
Proof. unfold step_key. simpl. discriminate. Qed.

Section Runtime.

Variable json_dumps : pyval -> result string.
Variable ollama_generate : list GenerateCall -> GenerateCall -> result string.
Variable print : string -> result unit.

Local Abbreviation activate_skill := (activate_skill json_dumps ollama_generate).
Local Abbreviation workflow_step := (workflow_step json_dumps ollama_generate).
Local Abbreviation workflow_loop := (workflow_loop json_dumps ollama_generate print).
Local Abbreviation execute_workflow :=
  (execute_workflow json_dumps ollama_generate print).

Lemma dict_lookup_missing {K V : Type} `{EqDecision K} (d : dict K V) (k : K) :
  ~ In k (keys d) -> dict_lookup d k = None.
Proof.
  induction d as [|[k' v'] d IH]; simpl; intros Hk; [reflexivity|].
  case_bool_decide as Heq; [subst; tauto|]. apply IH. tauto.
Qed.

Lemma generate_calls_activated (trace : list event) (skill_name : string) :
  generate_calls (trace ++ [Activated skill_name]) = generate_calls trace.
Proof. unfold generate_calls. rewrite omap_app. simpl. apply app_nil_r. Qed.

(** C9: for a name that is not in the registry, [activate_skill] returns
    the sentinel string; it does not raise, calls [ollama.generate] not
    once, and leaves every dictionary as it was. *)
Theorem activate_skill_unknown (self : SkillManager) (skill_name : string)
    (context : context) (w : World) :
  ~ In (HStr skill_name) (keys (skills self)) ->
  exists w' : World,
    activate_skill self skill_name context w
    = (Ok ("Skill '" +:+ skill_name +:+ "' not found."), w')
    /\ generate_calls (trace w') = generate_calls (trace w)
    /\ heap w' = heap w.
Proof.
  intros Hmissing.
  unfold Skills.activate_skill, mbind, log.
  rewrite (dict_lookup_missing _ _ Hmissing).
  eexists. split; [reflexivity|]. split.
  - apply generate_calls_activated.
  - reflexivity.
Qed.

(** [activate_skill] leaves the store alone, whatever it returns. *)
Lemma activate_skill_heap (self : SkillManager) (skill_name : string)
    (context : context) (w : World) :
  heap (snd (activate_skill self skill_name context w)) = heap w.
Proof.
  unfold Skills.activate_skill, mbind, log, lift, m_try, generate, ret. simpl.
  destruct (dict_lookup (skills self) (HStr skill_name)); [|reflexivity].
  destruct (json_dumps (PDict context)); [|reflexivity].
  destruct (ollama_generate _ _); reflexivity.
Qed.

(** One step: either the activation raises and the store is as before, or
    the result is written under the step's key and under
    [previous_result]. *)
Lemma workflow_step_spec (self : SkillManager) (context : loc) (i : nat)
    (skill_name : string) (w : World) (items : Skills.context) :
  heap w !! context = Some items ->
  exists (r : result unit) (w' : World),
    workflow_step self context i skill_name w = (r, w')
    /\ ((exists e, r = Raise e /\ heap w' = heap w)
        \/ (exists result : string,
              r = Ok tt
              /\ heap w'
                 = <[context := dict_set "previous_result" (PStr result)
                                  (dict_set (step_key i skill_name) (PStr result)
                                     items)]> (heap w))).
Proof.
  intros Hctx.
  unfold Skills.workflow_step, mbind, read. rewrite Hctx.
  pose proof (activate_skill_heap self skill_name items w) as Hheap.
  destruct (activate_skill self skill_name items w) as [[result|e] w1];
    simpl in Hheap.
  - unfold setitem at 1. rewrite Hheap, Hctx.
    unfold setitem. cbn [heap]. rewrite lookup_insert_eq.
    eexists _, _. split; [reflexivity|]. right. exists result.
    split; [reflexivity|]. simpl. rewrite insert_insert_eq. reflexivity.
  - eexists _, _. split; [reflexivity|]. left. exists e. split; [reflexivity|].
    exact Hheap.
Qed.




End Runtime.

(** ** Examples *)

Example discover_two_directories :
  discover_skills flat_yaml []
    [ skill_entry "a" (skill_text "extract" "first" "One");
      skill_entry "b" "no header";
      skill_entry "c" (skill_text "extract" "second" "Two") ]
  = Ok [ (HStr "extract", loaded "c" "extract" "second" "Two") ].
Proof. vm_compute. reflexivity. Qed.


(** A frontmatter without [description] is a mapping that lacks a
    required field. *)
Example missing_description_lacks_metadata :
  lacks_metadata flat_yaml ("---" +:+ nl +:+ "name: x" +:+ nl +:+ "---" +:+ nl).
Proof.
  right. exists "name: x", "", (YMap [("name", YStr "x")]).
  split; [vm_compute; reflexivity|]. split; [vm_compute; reflexivity|].
  right. vm_compute. discriminate.
Qed.

Lemma activate_skill_unknown_witness :
  exists w' : World,
    activate_skill json_braces answers_done no_skills "extract" [] one_context
    = (Ok "Skill 'extract' not found.", w')
    /\ generate_calls (trace w') = generate_calls (trace one_context)
    /\ heap w' = heap one_context.
Proof.
  apply (activate_skill_unknown json_braces answers_done no_skills "extract" []
           one_context).
  simpl. tauto.
Defined.

Example workflow_one_step :
  working_context ["a"]
  = Some [ ("user_query", PStr "q");
           ("step_1_a", PStr "Skill 'a' not found.");
           ("previous_result", PStr "Skill 'a' not found.") ].
Proof. vm_compute. reflexivity. Qed.

Example workflow_two_steps :
  working_context ["a"; "b"]
  = Some [ ("user_query", PStr "q");
           ("step_1_a", PStr "Skill 'a' not found.");
           ("previous_result", PStr "Skill 'b' not found.");
           ("step_2_b", PStr "Skill 'b' not found.") ].
Proof. vm_compute. reflexivity. Qed.



(** ** What a loaded skill holds *)

Section Loading.

Variable yaml_safe_load : string -> result yaml.

Local Abbreviation load_skill := (Skills.load_skill yaml_safe_load).
Local Abbreviation discover_skills := (Skills.discover_skills yaml_safe_load).
Local Abbreviation entry_skill := (Skills.entry_skill yaml_safe_load).
Local Abbreviation add_entry := (Skills.add_entry yaml_safe_load).

Lemma dict_get_truthy (items : dict string yaml) (k : string) (default : yaml) :
  truthy (dict_get items k YNull) = true ->
  dict_get items k default = dict_get items k YNull.
Proof.
  unfold dict_get. destruct (dict_lookup items k); [reflexivity|discriminate].
Qed.

(** X13: [load_skill] returns a skill exactly for a document that
    opens with a frontmatter block whose YAML is a mapping with the keys
    [name] and [description], and whose [allowed_tools], when it is there and
    not empty, is a string. The skill then holds the two fields as they
    are, the optional fields or their defaults, [allowed_tools] split at
    whitespace, the directory as [path], the text after the block stripped
    as [body], and the whole document as [full_content]. *)
Theorem load_skill_some_iff (skill_path content : string) (data : SkillData) :
  load_skill skill_path (Ok content) = Some data
  <-> exists (group1 rest : string) (items : dict string yaml) (n d : yaml)
             (tools : option (list string)),
        frontmatter_match content = Some (group1, rest)
        /\ yaml_safe_load group1 = Ok (YMap items)
        /\ dict_lookup items "name" = Some n
        /\ dict_lookup items "description" = Some d
        /\ match dict_get items "allowed_tools" YNull with
           | YStr s => tools = if String.eqb s "" then None else Some (split_ws s)
           | y => truthy y = false /\ tools = None
           end
        /\ data = {| sd_metadata :=
                       {| name := n;
                          description := d;
                          license := dict_get items "license" YNull;
                          compatibility := dict_get items "compatibility" YNull;
                          metadata := dict_get items "metadata" (YMap []);
                          allowed_tools := tools;
                          path := skill_path |};
                     frontmatter := YMap items;
                     body := strip rest;
                     full_content := content |}.
Proof.
  unfold Skills.load_skill, load_skill_try. cbn [bind].
  destruct (frontmatter_match content) as [[group1 rest]|]; cbn [bind].
  2:{ split; [discriminate|]. intros (g & r & items & n & d & tools & H & _).
      discriminate. }
  destruct (yaml_safe_load group1) as [fm|e] eqn:Hload; cbn [bind].
  2:{ split; [discriminate|]. intros (g & r & items & n & d & tools & H1 & H2 & _).
      injection H1 as <- <-. congruence. }
  destruct fm as [| b | z | s | l | items].
  1-5: split; [|intros (g & r & items & n & d & tools & H1 & H2 & _);
                 injection H1 as <- <-; congruence].
  1-3: discriminate.
  - cbn. destruct (contains s "name"); cbn; [|discriminate].
    destruct (contains s "description"); cbn; discriminate.
  - cbn. destruct (existsb (is_str "name") l); cbn; [|discriminate].
    destruct (existsb (is_str "description") l); cbn; discriminate.
  - cbn [yaml_in yaml_getitem yaml_get bind]. unfold dict_has.
    destruct (dict_lookup items "name") as [n|] eqn:Hn; cbn [negb bind].
    2:{ split; [discriminate|].
        intros (g & r & items' & n & d & tools & H1 & H2 & H3 & _).
        injection H1 as <- <-. rewrite Hload in H2. injection H2 as <-.
        congruence. }
    destruct (dict_lookup items "description") as [d|] eqn:Hd; cbn [negb bind].
    2:{ split; [discriminate|].
        intros (g & r & items' & n' & d & tools & H1 & H2 & _ & H4 & _).
        injection H1 as <- <-. rewrite Hload in H2. injection H2 as <-.
        congruence. }
    destruct (truthy (dict_get items "allowed_tools" YNull)) eqn:Htools.
    + rewrite (dict_get_truthy items "allowed_tools" (YStr "") Htools).
      destruct (dict_get items "allowed_tools" YNull) as [| b | z | s | l | m]
        eqn:Hget; cbn [yaml_split bind].
      1,2,3,5,6:
        split; [discriminate|];
        intros (g & r & items' & n' & d' & tools & H1 & H2 & _ & _ & H5 & _);
        injection H1 as <- <-; rewrite Hload in H2; injection H2 as <-;
        rewrite Hget in H5; destruct H5 as [H5 _]; congruence.
      cbn [truthy] in Htools. apply negb_true_iff in Htools.
      split.
      * intros Hdata. injection Hdata as <-.
        exists group1, rest, items, n, d, (Some (split_ws s)).
        rewrite Hget, Htools. repeat split; assumption.
      * intros (g & r & items' & n' & d' & tools & H1 & H2 & H3 & H4 & H5 & ->).
        injection H1 as <- <-. rewrite Hload in H2. injection H2 as <-.
        rewrite Hget, Htools in H5. subst tools. congruence.
    + cbn [bind]. split.
      * intros Hdata. injection Hdata as <-.
        exists group1, rest, items, n, d, None.
        repeat split; try assumption.
        destruct (dict_get items "allowed_tools" YNull) as [| b | z | s | l | m];
          try (split; [exact Htools|reflexivity]).
        cbn [truthy] in Htools. apply negb_false_iff in Htools.
        rewrite Htools. reflexivity.
      * intros (g & r & items' & n' & d' & tools & H1 & H2 & H3 & H4 & H5 & ->).
        injection H1 as <- <-. rewrite Hload in H2. injection H2 as <-.
        assert (tools = None) as ->.
        { destruct (dict_get items "allowed_tools" YNull) as [| b | z | s | l | m];
            try exact (proj2 H5).
          cbn [truthy] in Htools. apply negb_false_iff in Htools.
          rewrite Htools in H5. exact H5. }
        congruence.
Qed.

(** ** The registry a new manager holds *)

Lemma load_skill_unreadable (skill_path : string) (e : exn) :
  load_skill skill_path (Raise e) = None.
Proof. reflexivity. Qed.

Lemma load_skill_keeps_text (skill_path content : string) (data : SkillData) :
  load_skill skill_path (Ok content) = Some data ->
  full_content data = content /\ path (sd_metadata data) = skill_path.
Proof.
  unfold Skills.load_skill, load_skill_try. cbn [bind].
  destruct (frontmatter_match content) as [[group1 rest]|]; [|discriminate].
  repeat match goal with
         | |- context [bind ?m _] => destruct m; cbn [bind]
         | |- context [if ?b then _ else _] => destruct b
         end;
    try discriminate; intros [= <-]; split; reflexivity.
Qed.

Lemma entry_skill_some (d : DirEntry) (key : hashable) (data : SkillData) :
  entry_skill d = Some (key, data) ->
  is_dir d = true
  /\ hash_key (name (sd_metadata data)) = Ok key
  /\ exists content : string,
       skill_file d = Some (Ok content)
       /\ load_skill (entry_path d) (Ok content) = Some data.
Proof.
  unfold Skills.entry_skill. destruct (is_dir d); [|discriminate].
  destruct (skill_file d) as [[content|e]|]; try discriminate.
  destruct (Skills.load_skill yaml_safe_load _ (Ok content)) as [data'|] eqn:Hload;
    [|discriminate].
  destruct (hash_key (name (sd_metadata data'))) as [key'|] eqn:Hkey; [|discriminate].
  intros [= <- <-]. split; [reflexivity|]. split; [exact Hkey|].
  exists content. split; [reflexivity|exact Hload].
Qed.

Lemma dict_lookup_set (k k' : hashable) (v : SkillData) (skills : registry) :
  dict_lookup (dict_set k v skills) k'
  = if bool_decide (k' = k) then Some v else dict_lookup skills k'.
Proof.
  case_bool_decide as Hk.
  - subst k'. apply dict_lookup_set_eq.
  - apply dict_lookup_set_ne. exact Hk.
Qed.

Lemma fold_add_entry_sound (P : hashable -> SkillData -> Prop)
    (entries : list DirEntry) :
  (forall d key data, In d entries -> entry_skill d = Some (key, data) -> P key data) ->
  forall skills : registry,
    (forall key data, dict_lookup skills key = Some data -> P key data) ->
    forall key data,
      dict_lookup (fold_left add_entry entries skills) key = Some data -> P key data.
Proof.
  induction entries as [|d entries IH]; intros Hentries skills Hskills; simpl.
  - exact Hskills.
  - apply IH; [intros d' key data Hd'; apply Hentries; right; exact Hd'|].
    intros key data. unfold Skills.add_entry.
    destruct (entry_skill d) as [[key' data']|] eqn:Hd; [|apply Hskills].
    rewrite dict_lookup_set. case_bool_decide as Hk; [|apply Hskills].
    intros [= <-]. subst key'. apply (Hentries d); [left; reflexivity|exact Hd].
Qed.

Lemma add_entry_keeps (skills : registry) (d : DirEntry) (key : hashable) :
  In key (keys skills) -> In key (keys (add_entry skills d)).
Proof.
  intros Hkey. unfold Skills.add_entry.
  destruct (entry_skill d) as [[key' data']|]; [|exact Hkey].
  apply dict_set_keys. right. exact Hkey.
Qed.

Lemma fold_add_entry_keeps (entries : list DirEntry) :
  forall (skills : registry) (key : hashable),
    In key (keys skills) -> In key (keys (fold_left add_entry entries skills)).
Proof.
  induction entries as [|d entries IH]; intros skills key Hkey; simpl.
  - exact Hkey.
  - apply IH, add_entry_keeps, Hkey.
Qed.

Lemma fold_add_entry_adds (entries : list DirEntry) (d : DirEntry) (key : hashable)
    (data : SkillData) :
  In d entries -> entry_skill d = Some (key, data) ->
  forall skills : registry, In key (keys (fold_left add_entry entries skills)).
Proof.
  induction entries as [|d' entries IH]; intros Hin Hd skills; simpl; [destruct Hin|].
  destruct Hin as [->|Hin]; [|apply IH; assumption].
  apply fold_add_entry_keeps. unfold Skills.add_entry. rewrite Hd.
  apply dict_set_keys. left. reflexivity.
Qed.

End Loading.

(** ** Discovery around a directory that does not load *)

Section Skipping.

Variable yaml_safe_load : string -> result yaml.

Local Abbreviation load_skill := (Skills.load_skill yaml_safe_load).
Local Abbreviation discover_skills := (Skills.discover_skills yaml_safe_load).
Local Abbreviation entry_skill := (Skills.entry_skill yaml_safe_load).
Local Abbreviation add_entry := (Skills.add_entry yaml_safe_load).




End Skipping.

(** ** Discovery as it runs *)

Section Running.

Variable yaml_safe_load : string -> result yaml.
Variable yaml_repr : yaml -> string.
Variable print : string -> result unit.
Variable stat : DirEntry -> result unit.

Local Abbreviation load_skill := (Skills.load_skill yaml_safe_load).
Local Abbreviation load_skill_try := (Skills.load_skill_try yaml_safe_load).
Local Abbreviation discover_skills := (Skills.discover_skills yaml_safe_load).
Local Abbreviation entry_skill := (Skills.entry_skill yaml_safe_load).
Local Abbreviation add_entry := (Skills.add_entry yaml_safe_load).
Local Abbreviation run_discover_entry :=
  (Skills.run_discover_entry yaml_safe_load yaml_repr print stat).
Local Abbreviation run_discover_loop :=
  (Skills.run_discover_loop yaml_safe_load yaml_repr print stat).
Local Abbreviation run_discover_skills :=
  (Skills.run_discover_skills yaml_safe_load yaml_repr print stat).
Local Abbreviation init := (Skills.init yaml_safe_load yaml_repr print stat).

(** An entry as it runs: what it returns is the registry with the entry
    added, and what it raises was raised by a call on the file system or
    by a [print]. *)
Lemma run_discover_entry_cases (skills : registry) (d : DirEntry) :
  match run_discover_entry skills d with
  | Ok skills' => skills' = add_entry skills d
  | Raise e => stat d = Raise e \/ exists line : string, print line = Raise e
  end.
Proof.
  unfold Skills.run_discover_entry, Skills.add_entry, Skills.entry_skill,
    Skills.run_load_skill, Skills.load_skill.
  destruct (stat d) as [[]|e] eqn:Hstat; cbn [bind]; [|left; reflexivity].
  destruct (is_dir d); [|reflexivity].
  destruct (skill_file d) as [read_text|]; [|reflexivity].
  destruct (load_skill_try (entry_path d) read_text) as [skill_data|e0];
    [destruct (hash_key (name (sd_metadata skill_data))) as [key|e1]|];
    repeat match goal with
           | |- context [print ?line] =>
               destruct (print line) as [[]|?e] eqn:?Hprint; cbn [bind]
           end;
    try reflexivity; right; eexists; eassumption.
Qed.

Lemma run_discover_entry_quiet (skills : registry) (d : DirEntry) :
  stat d = Ok tt -> (forall line : string, print line = Ok tt) ->
  run_discover_entry skills d = Ok (add_entry skills d).
Proof.
  intros Hstat Hprint. pose proof (run_discover_entry_cases skills d) as Hd.
  destruct (run_discover_entry skills d) as [skills'|e]; [congruence|].
  destruct Hd as [Hd|[line Hd]]; congruence.
Qed.

Lemma run_discover_loop_cases (entries : list DirEntry) :
  forall skills : registry,
    match run_discover_loop skills entries with
    | Ok skills' => skills' = fold_left add_entry entries skills
    | Raise e =>
        (exists d : DirEntry, In d entries /\ stat d = Raise e)
        \/ exists line : string, print line = Raise e
    end.
Proof.
  induction entries as [|d entries IH]; intros skills; cbn [Skills.run_discover_loop].
  - reflexivity.
  - pose proof (run_discover_entry_cases skills d) as Hd.
    destruct (run_discover_entry skills d) as [skills'|e]; cbn [bind].
    + subst skills'. specialize (IH (add_entry skills d)).
      destruct (run_discover_loop (add_entry skills d) entries) as [skills'|e].
      * exact IH.
      * destruct IH as [(d' & Hin & Hd')|Hline]; [left|right; exact Hline].
        exists d'. split; [right; exact Hin|exact Hd'].
    + destruct Hd as [Hd|Hline]; [left|right; exact Hline].
      exists d. split; [left; reflexivity|exact Hd].
Qed.

Lemma run_discover_loop_quiet (entries : list DirEntry) (skills : registry) :
  (forall d : DirEntry, stat d = Ok tt) -> (forall line : string, print line = Ok tt) ->
  run_discover_loop skills entries = Ok (fold_left add_entry entries skills).
Proof.
  intros Hstat Hprint. pose proof (run_discover_loop_cases entries skills) as Hrun.
  destruct (run_discover_loop skills entries) as [skills'|e]; [congruence|].
  destruct Hrun as [(d & _ & Hd)|[line Hline]]; congruence.
Qed.

(** The manager as it is built: what [init] returns and what it raises. *)
Lemma init_cases (skills_dir : string) (directory : result unit)
    (listing : result (list DirEntry)) :
  match init skills_dir directory listing with
  | Ok self =>
      exists entries : list DirEntry,
        directory = Ok tt /\ listing = Ok entries
        /\ self = {| Skills.skills_dir := skills_dir;
                     skills := fold_left add_entry entries [];
                     ollama_model := "qwen3:1.7b" |}
  | Raise e =>
      directory = Raise e
      \/ listing = Raise e
      \/ (exists line : string, print line = Raise e)
      \/ exists (entries : list DirEntry) (d : DirEntry),
           listing = Ok entries /\ In d entries /\ stat d = Raise e
  end.
Proof.
  unfold Skills.init, Skills.run_discover_skills.
  destruct directory as [[]|e]; cbn [bind]; [|left; reflexivity].
  destruct (print _) as [[]|e] eqn:Hprint; cbn [bind];
    [|right; right; left; eexists; exact Hprint].
  destruct listing as [entries|e]; cbn [bind]; [|right; left; reflexivity].
  pose proof (run_discover_loop_cases entries []) as Hrun.
  destruct (run_discover_loop [] entries) as [skills'|e]; cbn [bind].
  - subst skills'. exists entries. split; [reflexivity|]. split; reflexivity.
  - destruct Hrun as [(d & Hin & Hd)|Hline].
    + right. right. right. exists entries, d. tauto.
    + right. right. left. exact Hline.
Qed.

Lemma init_quiet (skills_dir : string) (entries : list DirEntry) :
  (forall d : DirEntry, stat d = Ok tt) -> (forall line : string, print line = Ok tt) ->
  init skills_dir (Ok tt) (Ok entries)
  = Ok {| Skills.skills_dir := skills_dir;
          skills := fold_left add_entry entries [];
          ollama_model := "qwen3:1.7b" |}.
Proof.
  intros Hstat Hprint. unfold Skills.init, Skills.run_discover_skills.
  cbn [bind]. rewrite Hprint. cbn [bind].
  rewrite (run_discover_loop_quiet entries [] Hstat Hprint). reflexivity.
Qed.

(** X14: building a [SkillManager] raises only what a call outside
    every [try] raises: [exists] or [mkdir] on the skills directory, its
    listing, [is_dir] or [exists] for one of its entries, or a [print];
    when all of them return, a manager is built. A manager that is built
    has the directory it was given and the default model; its registry has
    no name twice; every skill in it is stored under its own name and is
    what [load_skill] gives for the [SKILL.md] of a directory of the
    listing, at the path of that directory; and every directory that loads
    has its skill's name in the registry. *)
Theorem init_registry (skills_dir : string) (directory : result unit)
    (listing : result (list DirEntry)) :
  match init skills_dir directory listing with
  | Ok self =>
      exists entries : list DirEntry,
        directory = Ok tt /\ listing = Ok entries
        /\ Skills.skills_dir self = skills_dir
        /\ ollama_model self = "qwen3:1.7b"
        /\ List.NoDup (keys (skills self))
        /\ (forall key data,
              dict_lookup (skills self) key = Some data ->
              hash_key (name (sd_metadata data)) = Ok key
              /\ exists (d : DirEntry) (content : string),
                   In d entries
                   /\ is_dir d = true
                   /\ skill_file d = Some (Ok content)
                   /\ load_skill (entry_path d) (Ok content) = Some data)
        /\ (forall d key data,
              In d entries -> entry_skill d = Some (key, data) ->
              In key (keys (skills self)))
  | Raise e =>
      directory = Raise e
      \/ listing = Raise e
      \/ (exists line : string, print line = Raise e)
      \/ exists (entries : list DirEntry) (d : DirEntry),
           listing = Ok entries /\ In d entries /\ stat d = Raise e
  end
  /\ (directory = Ok tt ->
      (exists entries : list DirEntry, listing = Ok entries) ->
      (forall d : DirEntry, stat d = Ok tt) ->
      (forall line : string, print line = Ok tt) ->
      exists self : SkillManager, init skills_dir directory listing = Ok self).
Proof.
  split.
  - pose proof (init_cases skills_dir directory listing) as Hinit.
    destruct (init skills_dir directory listing) as [self|e]; [|exact Hinit].
    destruct Hinit as (entries & Hdirectory & Hlisting & ->).
    exists entries. cbn [Skills.skills_dir skills ollama_model].
    split; [exact Hdirectory|]. split; [exact Hlisting|].
    split; [reflexivity|]. split; [reflexivity|]. split; [|split].
    + apply fold_add_entry_nodup. constructor.
    + apply (fold_add_entry_sound yaml_safe_load
               (fun key data =>
                  hash_key (name (sd_metadata data)) = Ok key
                  /\ exists (d : DirEntry) (content : string),
                       In d entries /\ is_dir d = true
                       /\ skill_file d = Some (Ok content)
                       /\ load_skill (entry_path d) (Ok content) = Some data)).
      * intros d key data Hin Hd.
        destruct (entry_skill_some yaml_safe_load d key data Hd)
          as (Hdir & Hkey & content & Hfile & Hload).
        split; [exact Hkey|]. exists d, content. tauto.
      * intros key data Hnone. discriminate.
    + intros d key data Hin Hd.
      exact (fold_add_entry_adds yaml_safe_load entries d key data Hin Hd []).
  - intros -> (entries & ->) Hstat Hprint. eexists.
    apply (init_quiet skills_dir entries Hstat Hprint).
Qed.

(** X15: after a manager is built, [get_skill_instructions] gives for a
    name the whole text of the [SKILL.md] of the last directory of the
    listing that loaded under that name, and [None] when no directory did.
    A manager is built when every call outside every [try] returns. *)
Theorem get_skill_instructions_after_init (skills_dir skill_name : string)
    (directory : result unit) :
  (forall (before after : list DirEntry) (d : DirEntry) (data : SkillData)
          (self : SkillManager),
     init skills_dir directory (Ok (before ++ d :: after)) = Ok self ->
     entry_skill d = Some (HStr skill_name, data) ->
     Forall (fun d' => forall data', entry_skill d' <> Some (HStr skill_name, data'))
            after ->
     exists content : string,
       skill_file d = Some (Ok content)
       /\ get_skill_instructions self skill_name = Some content)
  /\ (forall (entries : list DirEntry) (self : SkillManager),
        init skills_dir directory (Ok entries) = Ok self ->
        Forall (fun d' => forall data', entry_skill d' <> Some (HStr skill_name, data'))
               entries ->
        get_skill_instructions self skill_name = None)
  /\ (forall entries : list DirEntry,
        (forall d : DirEntry, stat d = Ok tt) ->
        (forall line : string, print line = Ok tt) ->
        exists self : SkillManager,
          init skills_dir (Ok tt) (Ok entries) = Ok self).
Proof.
  split; [|split].
  - intros before after d data self Hinit Hd Hafter.
    pose proof (init_cases skills_dir directory (Ok (before ++ d :: after))) as Hself.
    rewrite Hinit in Hself. destruct Hself as (entries & _ & [= <-] & ->).
    destruct (entry_skill_some yaml_safe_load d _ data Hd)
      as (_ & _ & content & Hfile & Hload).
    exists content. split; [exact Hfile|].
    unfold get_skill_instructions. cbn [skills].
    rewrite fold_left_app. cbn [fold_left].
    rewrite (fold_add_entry_other yaml_safe_load _ after Hafter).
    unfold Skills.add_entry at 1. rewrite Hd, dict_lookup_set_eq.
    f_equal. exact (proj1 (load_skill_keeps_text yaml_safe_load _ _ _ Hload)).
  - intros entries self Hinit Hnone.
    pose proof (init_cases skills_dir directory (Ok entries)) as Hself.
    rewrite Hinit in Hself. destruct Hself as (entries' & _ & [= <-] & ->).
    unfold get_skill_instructions. cbn [skills].
    rewrite (fold_add_entry_other yaml_safe_load _ entries Hnone).
    reflexivity.
  - intros entries Hstat Hprint. eexists.
    apply (init_quiet skills_dir entries Hstat Hprint).
Qed.


End Running.

(** ** match_skill_to_query *)

Lemma lower_char_idempotent (c : ascii) : lower_char (lower_char c) = lower_char c.
Proof. destruct c as [[] [] [] [] [] [] [] []]; reflexivity. Qed.

Lemma lower_idempotent (s : string) : lower (lower s) = lower s.
Proof.
  induction s as [|c s IH]; simpl; [reflexivity|].
  rewrite lower_char_idempotent, IH. reflexivity.
Qed.

Lemma match_loop_described (query_lower : string)
    (items : list (hashable * SkillData)) :
  Forall described items ->
  forall matched_skills : list hashable,
    match_loop query_lower items matched_skills
    = Ok (matched_skills ++ map fst (List.filter (matches query_lower) items)).
Proof.
  induction 1 as [|[key data] items [s Hs] _ IH]; intros matched_skills; simpl.
  - rewrite app_nil_r. reflexivity.
  - unfold matches at 1. cbn [snd] in *. rewrite Hs. cbn [yaml_lower bind].
    rewrite IH. destruct (shares_keyword query_lower (lower s)); simpl.
    + rewrite <- app_assoc. reflexivity.
    + reflexivity.
Qed.

Lemma match_loop_not_described (query_lower : string)
    (items : list (hashable * SkillData)) :
  Exists (fun item => ~ described item) items ->
  forall matched_skills : list hashable,
    exists msg : string,
      match_loop query_lower items matched_skills = Raise (AttributeError msg).
Proof.
  induction items as [|[key data] items IH]; intros Hbad matched_skills.
  - inversion Hbad.
  - simpl. destruct (description (sd_metadata data)) as [| b | z | s | l | m] eqn:Hd;
      cbn [yaml_lower bind]; try (eexists; reflexivity).
    apply IH. apply List.Exists_cons in Hbad as [Hbad|Hbad]; [|exact Hbad].
    exfalso. apply Hbad. exists s. exact Hd.
Qed.

Lemma shares_keyword_spec (query_lower description : string) :
  shares_keyword query_lower description = true
  <-> exists keyword : string,
        In keyword keywords
        /\ contains query_lower keyword = true
        /\ contains description keyword = true.
Proof.
  unfold shares_keyword. rewrite existsb_exists.
  split; intros (k & Hk & H); exists k; (split; [exact Hk|]).
  - apply andb_true_iff in H. exact H.
  - apply andb_true_iff. exact H.
Qed.

(** X16: when every description in the registry is a string,
    [match_skill_to_query] returns the names of the skills that share one of
    the ten keywords with the query, both taken in lower case, in the order
    of the registry; the case of the query does not matter, and a query
    without any keyword matches no skill. *)
Theorem match_skill_to_query_described (self : SkillManager) (user_query : string) :
  Forall described (skills self) ->
  exists matched : list hashable,
    match_skill_to_query self user_query = Ok matched
    /\ matched = map fst (List.filter (matches (lower user_query)) (skills self))
    /\ (forall item,
          In item (List.filter (matches (lower user_query)) (skills self))
          <-> In item (skills self)
              /\ exists s keyword : string,
                   description (sd_metadata (snd item)) = YStr s
                   /\ In keyword keywords
                   /\ contains (lower user_query) keyword = true
                   /\ contains (lower s) keyword = true)
    /\ match_skill_to_query self (lower user_query) = Ok matched
    /\ (existsb (contains (lower user_query)) keywords = false -> matched = []).
Proof.
  intros Hdescribed. eexists.
  split; [apply (match_loop_described _ _ Hdescribed [])|]. cbn [app].
  split; [reflexivity|]. split; [|split].
  - intros item. rewrite List.filter_In. unfold matches.
    split; intros [Hin Hm]; (split; [exact Hin|]).
    + destruct (description (sd_metadata (snd item))) as [| | | s | |];
        try discriminate.
      apply shares_keyword_spec in Hm as (k & Hk & Hq & Hs).
      exists s, k. tauto.
    + destruct Hm as (s & k & -> & Hk & Hq & Hs).
      apply shares_keyword_spec. exists k. tauto.
  - unfold match_skill_to_query. rewrite lower_idempotent.
    apply (match_loop_described _ _ Hdescribed []).
  - intros Hnone.
    assert (Hfalse : forall item, matches (lower user_query) item = false).
    { intros item. unfold matches.
      destruct (description (sd_metadata (snd item))); try reflexivity.
      destruct (shares_keyword (lower user_query) (lower s)) eqn:Hs; [|reflexivity].
      apply shares_keyword_spec in Hs as (k & Hk & Hq & _).
      assert (Hsome : existsb (contains (lower user_query)) keywords = true)
        by (apply existsb_exists; exists k; tauto).
      congruence. }
    induction (skills self) as [|item items IH]; simpl; [reflexivity|].
    rewrite Hfalse. apply IH.
    apply List.Forall_cons_iff in Hdescribed. tauto.
Qed.

(** X17: one skill whose description is not a string (a number, a
    list, nothing) makes [match_skill_to_query] raise AttributeError for
    every query. *)
Theorem match_skill_to_query_not_described (self : SkillManager)
    (user_query : string) (item : hashable * SkillData) :
  In item (skills self) ->
  ~ described item ->
  exists msg : string,
    match_skill_to_query self user_query = Raise (AttributeError msg).
Proof.
  intros Hin Hbad. apply match_loop_not_described.
  apply List.Exists_exists. exists item. tauto.
Qed.

(** ** What an activation sends, and what a workflow leaves *)

Lemma contains_here (sub rest : string) : contains (sub +:+ rest) sub = true.
Proof.
  assert (Hprefix : String.prefix sub (sub +:+ rest) = true).
  { induction sub as [|c sub IH]; simpl; [destruct rest; reflexivity|].
    destruct (ascii_dec c c); [exact IH|congruence]. }
  destruct (sub +:+ rest); simpl in *; rewrite Hprefix; reflexivity.
Qed.

Lemma contains_skip (before s sub : string) :
  contains s sub = true -> contains (before +:+ s) sub = true.
Proof.
  intros Hs. induction before as [|c before IH]; simpl; [exact Hs|].
  rewrite IH. apply orb_true_r.
Qed.

Section Activation.

Variable json_dumps : pyval -> result string.
Variable ollama_generate : list GenerateCall -> GenerateCall -> result string.
Variable print : string -> result unit.

Local Abbreviation activate_skill := (activate_skill json_dumps ollama_generate).
Local Abbreviation workflow_step := (workflow_step json_dumps ollama_generate).
Local Abbreviation workflow_loop := (workflow_loop json_dumps ollama_generate print).
Local Abbreviation execute_workflow :=
  (execute_workflow json_dumps ollama_generate print).

(** X18: for a skill of the registry, [activate_skill] raises only
    when the context does not serialize, and then before any call of
    [ollama.generate]. Otherwise it makes exactly one call, with the
    manager's model, no system prompt, temperature 0.3 and 1000 tokens, and a
    prompt that contains the skill's name, its body and the serialized
    context; it returns the response, or, when the call raises, the text
    "Error executing skill: " followed by the message. *)
Theorem activate_skill_known (self : SkillManager) (skill_name : string)
    (context : Skills.context) (w : World) (skill_data : SkillData) :
  dict_lookup (skills self) (HStr skill_name) = Some skill_data ->
  (forall e : exn,
     json_dumps (PDict context) = Raise e ->
     activate_skill self skill_name context w
     = (Raise e, {| heap := heap w; trace := trace w ++ [Activated skill_name] |}))
  /\ (forall dumped : string,
        json_dumps (PDict context) = Ok dumped ->
        exists (call : GenerateCall) (answer : string),
          activate_skill self skill_name context w
          = (Ok answer,
             {| heap := heap w;
                trace := trace w ++ [Activated skill_name; Generated call] |})
          /\ model call = ollama_model self
          /\ system call = None
          /\ temperature call = (3 # 10)%Q
          /\ num_predict call = 1000
          /\ contains (prompt call) skill_name = true
          /\ contains (prompt call) (body skill_data) = true
          /\ contains (prompt call) dumped = true
          /\ answer = match ollama_generate (generate_calls (trace w)) call with
                      | Ok response => response
                      | Raise e => "Error executing skill: " +:+ exn_message e
                      end).
Proof.
  intros Hskill. split.
  - intros e Hdumps.
    unfold Skills.activate_skill, mbind, log, lift. cbn [heap trace].
    rewrite Hskill, Hdumps. reflexivity.
  - intros dumped Hdumps.
    unfold Skills.activate_skill, mbind, log, lift, m_try, generate, ret.
    cbn [heap trace]. rewrite Hskill, Hdumps. cbn [heap trace].
    rewrite generate_calls_activated, <- app_assoc. cbn [app].
    set (call := {| model := ollama_model self; system := None; prompt := _;
                    temperature := _; num_predict := _ |}).
    exists call,
      (match ollama_generate (generate_calls (trace w)) call with
       | Ok response => response
       | Raise e => "Error executing skill: " +:+ exn_message e
       end).
    split; [destruct (ollama_generate _ call); reflexivity|].
    subst call. cbn [model system temperature num_predict prompt].
    split; [reflexivity|]. split; [reflexivity|]. split; [reflexivity|].
    split; [reflexivity|]. split; [|split; [|split]].
    + apply contains_skip, contains_here.
    + do 6 apply contains_skip. apply contains_here.
    + do 11 apply contains_skip. apply contains_here.
    + reflexivity.
Qed.

(** *** The keys of the steps *)

Lemma to_uint_nonnil (n : nat) : Nat.to_uint n <> Decimal.Nil.
Proof.
  intros Hnil. pose proof (Unsigned.to_of (Nat.to_uint n)) as Hnorm.
  rewrite Unsigned.of_to, Hnil in Hnorm. discriminate Hnorm.
Qed.

Lemma str_of_nat_inj (a b : nat) : str_of_nat a = str_of_nat b -> a = b.
Proof.
  unfold str_of_nat. intros Heq. apply Unsigned.to_uint_inj.
  apply (f_equal NilZero.uint_of_string) in Heq.
  rewrite !NilZero.usu in Heq by apply to_uint_nonnil. congruence.
Qed.

Lemma digits_plain (d : Decimal.uint) : plain (NilEmpty.string_of_uint d).
Proof. induction d; simpl; try exact I; (split; [discriminate|exact IHd]). Qed.

Lemma str_of_nat_plain (n : nat) : plain (str_of_nat n).
Proof.
  unfold str_of_nat, NilZero.string_of_uint.
  destruct (Nat.to_uint n); try apply digits_plain.
  simpl. split; [discriminate|exact I].
Qed.

Lemma append_cons (c : ascii) (s t : string) : String c s +:+ t = String c (s +:+ t).
Proof. reflexivity. Qed.

Lemma append_nil (s : string) : "" +:+ s = s.
Proof. reflexivity. Qed.

Lemma append_cancel (a x y : string) : a +:+ x = a +:+ y -> x = y.
Proof.
  induction a as [|c a IH]; rewrite ?append_cons, ?append_nil; [tauto|].
  intros [= Heq]. apply IH. exact Heq.
Qed.

Lemma cut_at_underscore (s1 : string) :
  forall s2 a b : string,
    plain s1 -> plain s2 ->
    s1 +:+ "_" +:+ a = s2 +:+ "_" +:+ b -> s1 = s2 /\ a = b.
Proof.
  induction s1 as [|c1 s1 IH]; intros [|c2 s2] a b H1 H2 Heq;
    rewrite ?append_cons, ?append_nil in Heq; simpl in H1, H2.
  - injection Heq as <-. split; reflexivity.
  - injection Heq as <- _. destruct H2 as [H2 _]. congruence.
  - injection Heq as -> _. destruct H1 as [H1 _]. congruence.
  - injection Heq as <- Heq. destruct (IH s2 a b) as [-> ->]; tauto.
Qed.

Lemma step_key_inj (i j : nat) (n n' : string) :
  step_key i n = step_key j n' -> i = j /\ n = n'.
Proof.
  unfold step_key. intros Heq. apply append_cancel in Heq.
  destruct (cut_at_underscore _ _ _ _ (str_of_nat_plain _) (str_of_nat_plain _) Heq)
    as [Hnum ->].
  apply str_of_nat_inj in Hnum. split; [lia|reflexivity].
Qed.

(** X20: the keys of the steps tell the steps apart: two steps have
    the same key only if they are the same step of the same skill. So a step
    of a workflow leaves in place what a step at another position has
    stored under its key. *)
Theorem workflow_step_keeps_earlier (self : SkillManager) (context : loc)
    (i j : nat) (skill_name skill_name' : string) :
  (step_key i skill_name = step_key j skill_name' ->
   i = j /\ skill_name = skill_name')
  /\ (i <> j ->
      forall (w : World) (items : Skills.context) (v : pyval),
        heap w !! context = Some items ->
        dict_lookup items (step_key i skill_name) = Some v ->
        exists (r : result unit) (w' : World) (items' : Skills.context),
          workflow_step self context j skill_name' w = (r, w')
          /\ heap w' !! context = Some items'
          /\ dict_lookup items' (step_key i skill_name) = Some v).
Proof.
  split; [apply step_key_inj|].
  intros Hij w items v Hctx Hv.
  assert (Hkey : step_key i skill_name <> step_key j skill_name')
    by (intros Heq; apply step_key_inj in Heq; tauto).
  destruct (workflow_step_spec json_dumps ollama_generate self context j skill_name'
              w items Hctx)
    as (r & w' & Hstep & [(e & -> & Hheap)|(result & -> & Hheap)]).
  - exists (Raise e), w', items. rewrite Hheap. tauto.
  - eexists (Ok tt), w', _. split; [exact Hstep|].
    split; [rewrite Hheap; apply lookup_insert_eq|].
    rewrite !dict_lookup_set_ne; [exact Hv|exact Hkey|apply step_key_not_previous].
Qed.

(** Every value handed to [json.dumps] serializes. *)
Hypothesis json_dumps_total : forall v : pyval, exists s : string, json_dumps v = Ok s.

Lemma activate_skill_answers (self : SkillManager) (skill_name : string)
    (context : Skills.context) (w : World) :
  exists (result : string) (t : list event),
    activate_skill self skill_name context w
    = (Ok result, {| heap := heap w; trace := trace w ++ Activated skill_name :: t |})
    /\ activations t = [].
Proof.
  unfold Skills.activate_skill, mbind, log, lift, m_try, generate, ret.
  cbn [heap trace].
  destruct (dict_lookup (skills self) (HStr skill_name)) as [skill_data|].
  - destruct (json_dumps_total (PDict context)) as (dumped & ->).
    cbn [heap trace].
    destruct (ollama_generate _ _) as [response|e]; rewrite <- app_assoc;
      eexists _, [Generated _]; split; reflexivity.
  - eexists _, []. split; reflexivity.
Qed.

(** Every line handed to [print] is taken. *)
Hypothesis print_total : forall s : string, print s = Ok tt.

(** The loop over a workflow in two parts. *)
Lemma workflow_loop_app (self : SkillManager) (context : loc) (total : nat)
    (earlier later : list string) :
  forall (i : nat) (w : World),
    workflow_loop self context total i (earlier ++ later) w
    = (_ <- workflow_loop self context total i earlier ;;
       workflow_loop self context total (i + length earlier) later)%M w.
Proof.
  induction earlier as [|skill_name earlier IH]; intros i w.
  - cbn [app Skills.workflow_loop length]. unfold mbind, ret.
    rewrite Nat.add_0_r. reflexivity.
  - cbn [app Skills.workflow_loop length]. unfold mbind, lift.
    destruct (print _) as [[]|e]; [|reflexivity].
    destruct (workflow_step self context i skill_name w) as [[[]|e] w1];
      [|reflexivity].
    rewrite IH. unfold mbind.
    replace (i + 1 + length earlier)%nat
      with (i + S (length earlier))%nat by lia.
    reflexivity.
Qed.

(** When every line is printed, the number announced as the total does not
    matter. *)
Lemma workflow_loop_total (self : SkillManager) (context : loc)
    (total total' : nat) (workflow : list string) :
  forall (i : nat) (w : World),
    workflow_loop self context total i workflow w
    = workflow_loop self context total' i workflow w.
Proof.
  induction workflow as [|skill_name workflow IH]; intros i w; [reflexivity|].
  cbn [Skills.workflow_loop]. unfold mbind at 1 3, lift.
  rewrite !print_total. unfold mbind.
  destruct (workflow_step self context i skill_name w) as [[[]|e] w1];
    [apply IH|reflexivity].
Qed.

(** One step when every context serializes: the activation answers, and
    its answer is stored twice. *)
Lemma workflow_step_runs (self : SkillManager) (context : loc) (i : nat)
    (skill_name : string) (w : World) (items : Skills.context) :
  heap w !! context = Some items ->
  exists (result : string) (w_act : World) (t : list event),
    activate_skill self skill_name items w = (Ok result, w_act)
    /\ trace w_act = trace w ++ Activated skill_name :: t
    /\ activations t = []
    /\ workflow_step self context i skill_name w
       = (Ok tt,
          {| heap := <[context := dict_set "previous_result" (PStr result)
                                     (dict_set (step_key i skill_name)
                                        (PStr result) items)]> (heap w);
             trace := trace w_act |}).
Proof.
  intros Hctx.
  destruct (activate_skill_answers self skill_name items w)
    as (result & t & Hact & Ht).
  eexists result, _, t. split; [exact Hact|].
  split; [reflexivity|]. split; [exact Ht|].
  unfold Skills.workflow_step, mbind, read. rewrite Hctx, Hact.
  unfold setitem. cbn [heap trace]. rewrite Hctx. cbn [heap trace].
  rewrite lookup_insert_eq, insert_insert_eq. reflexivity.
Qed.

Lemma workflow_loop_runs (self : SkillManager) (context : loc) (total : nat)
    (workflow : list string) :
  forall (i : nat) (w : World) (items : Skills.context),
    heap w !! context = Some items ->
    exists (w' : World) (items' : Skills.context) (t : list event),
      workflow_loop self context total i workflow w = (Ok tt, w')
      /\ trace w' = trace w ++ t
      /\ activations t = workflow
      /\ heap w' = <[context := items']> (heap w)
      /\ (workflow = [] -> items' = items).
Proof.
  induction workflow as [|skill_name workflow IH]; intros i w items Hctx.
  - exists w, items, []. cbn. rewrite app_nil_r.
    split; [reflexivity|]. split; [reflexivity|]. split; [reflexivity|].
    split; [symmetry; apply insert_id; exact Hctx|reflexivity].
  - cbn [Skills.workflow_loop]. unfold mbind at 1, lift.
    rewrite print_total. unfold mbind at 1.
    destruct (workflow_step_runs self context i skill_name w items Hctx)
      as (result & w_act & t & _ & Htrace_act & Ht & ->).
    set (items1 := dict_set "previous_result" (PStr result)
                     (dict_set (step_key i skill_name) (PStr result) items)).
    destruct (IH (i + 1)%nat
                {| heap := <[context := items1]> (heap w);
                   trace := trace w_act |}
                items1 ltac:(apply lookup_insert_eq))
      as (w' & items' & t' & -> & Htrace & Hact & Hheap & Hnil).
    cbn [heap trace] in Htrace, Hheap. rewrite insert_insert_eq in Hheap.
    exists w', items', (Activated skill_name :: t ++ t').
    split; [reflexivity|].
    split; [rewrite Htrace, Htrace_act, <- app_assoc; reflexivity|].
    split.
    { change (Activated skill_name :: t ++ t')
        with ([Activated skill_name] ++ t ++ t').
      unfold activations in *. rewrite !omap_app, Ht, Hact. reflexivity. }
    split; [exact Hheap|discriminate].
Qed.

(** X19: when every context serializes and every line is printed,
    [execute_workflow] returns, whatever the skills named; it activates the
    skills of the workflow in their order, once each; the dictionary it
    returns is a new one, and no other dictionary changes; for an empty
    workflow it has the items of [initial_context]; and a workflow with one
    more skill at its end does what the shorter workflow does, then
    activates that skill on the dictionary the shorter workflow returns,
    and stores what this activation returned in that dictionary, under the
    step's key and under [previous_result]. *)
Theorem execute_workflow_runs_in_order (self : SkillManager) (workflow : list string)
    (initial_context : loc) (w : World) (items0 : Skills.context) :
  heap w !! initial_context = Some items0 ->
  exists (context : loc) (w' : World) (items' : Skills.context) (t : list event),
    execute_workflow self workflow initial_context w = (Ok context, w')
    /\ trace w' = trace w ++ t
    /\ activations t = workflow
    /\ heap w !! context = None
    /\ heap w' = <[context := items']> (heap w)
    /\ (workflow = [] -> items' = items0)
    /\ (forall (earlier : list string) (skill_name : string),
          workflow = earlier ++ [skill_name] ->
          exists (w_mid : World) (items_mid : Skills.context) (result : string)
                 (w_act : World),
            execute_workflow self earlier initial_context w = (Ok context, w_mid)
            /\ heap w_mid !! context = Some items_mid
            /\ activate_skill self skill_name items_mid w_mid = (Ok result, w_act)
            /\ trace w' = trace w_act
            /\ items' = dict_set "previous_result" (PStr result)
                          (dict_set (step_key (length earlier) skill_name)
                             (PStr result) items_mid)).
Proof.
  intros Hinit. unfold Skills.execute_workflow, mbind, copy. rewrite Hinit.
  set (context := fresh (dom (heap w))).
  assert (Hfresh : heap w !! context = None)
    by (apply not_elem_of_dom, is_fresh).
  set (w0 := {| heap := <[context := items0]> (heap w); trace := trace w |}).
  destruct (workflow_loop_runs self context (length workflow) workflow 0 w0
              items0 ltac:(apply lookup_insert_eq))
    as (w' & items' & t & Hrun & Htrace & Hact & Hheap & Hnil).
  rewrite Hrun.
  cbn [heap trace w0] in Htrace, Hheap. rewrite insert_insert_eq in Hheap.
  exists context, w', items', t. unfold ret.
  split; [reflexivity|]. split; [exact Htrace|]. split; [exact Hact|].
  split; [exact Hfresh|]. split; [exact Hheap|].
  split; [exact Hnil|].
  intros earlier skill_name ->.
  rewrite workflow_loop_app in Hrun.
  unfold mbind at 1 in Hrun.
  rewrite (workflow_loop_total self context _ (length earlier) earlier) in Hrun.
  destruct (workflow_loop_runs self context (length earlier) earlier 0 w0
              items0 ltac:(apply lookup_insert_eq))
    as (w_mid & items_mid & t_mid & Hmid & _ & _ & Hheap_mid & _).
  rewrite Hmid in Hrun |- *.
  assert (Hctx_mid : heap w_mid !! context = Some items_mid)
    by (rewrite Hheap_mid; apply lookup_insert_eq).
  cbn [Skills.workflow_loop] in Hrun. unfold mbind at 1, lift in Hrun.
  rewrite print_total in Hrun. unfold mbind at 1 in Hrun.
  destruct (workflow_step_runs self context (0 + length earlier) skill_name
              w_mid items_mid Hctx_mid)
    as (result & w_act & t_act & Hactivate & _ & _ & Hstep).
  rewrite Hstep in Hrun. unfold ret in Hrun. injection Hrun as <-.
  exists w_mid, items_mid, result, w_act.
  split; [reflexivity|]. split; [exact Hctx_mid|]. split; [exact Hactivate|].
  split; [reflexivity|].
  cbn [heap] in Hheap.
  apply (f_equal (fun h : gmap loc Skills.context => h !! context)) in Hheap.
  rewrite !lookup_insert_eq in Hheap. injection Hheap as <-. reflexivity.
Qed.

End Activation.

(** ** The theorems above at concrete inputs *)



(** Building a manager over the same listing raises, and it returns when
    the stream takes every line. *)
Example init_report_raises :
  init flat_yaml no_text prints_names stats_all "skills" (Ok tt)
    (Ok [ skill_entry "bad_name" "no header";
          skill_entry "c" (skill_text "summarize" "second" "Two") ])
  = Raise UnicodeEncodeError
  /\ init flat_yaml no_text prints_all stats_all "skills" (Ok tt)
       (Ok [ skill_entry "bad_name" "no header";
             skill_entry "c" (skill_text "summarize" "second" "Two") ])
     = Ok {| skills_dir := "skills";
             skills := [ (HStr "summarize", loaded "c" "summarize" "second" "Two") ];
             ollama_model := "qwen3:1.7b" |}.
Proof. split; vm_compute; reflexivity. Qed.

Lemma match_skill_to_query_described_witness :
  Forall described (skills two_loaded)
  /\ exists matched : list hashable,
       match_skill_to_query two_loaded "Give me a SUMMARY" = Ok matched
       /\ matched = [HStr "summarize"].
Proof.
  assert (Hdescribed : Forall described (skills two_loaded)).
  { repeat constructor; eexists; reflexivity. }
  split; [exact Hdescribed|].
  destruct (match_skill_to_query_described two_loaded "Give me a SUMMARY"
              Hdescribed) as (matched & Hrun & Hmatched & _).
  exists matched. split; [exact Hrun|]. rewrite Hmatched. vm_compute. reflexivity.
Defined.

Lemma match_skill_to_query_not_described_witness :
  In (HStr "odd", {| sd_metadata := {| name := YStr "odd";
                                       description := YInt 7;
                                       license := YNull;
                                       compatibility := YNull;
                                       metadata := YMap [];
                                       allowed_tools := None;
                                       path := "skills/odd" |};
                     frontmatter := YMap [("name", YStr "odd"); ("description", YInt 7)];
                     body := "";
                     full_content := "" |})
     (skills numbered)
  /\ exists msg : string,
       match_skill_to_query numbered "hello" = Raise (AttributeError msg).
Proof.
  split; [left; reflexivity|].
  apply (match_skill_to_query_not_described numbered "hello" _ (or_introl eq_refl)).
  intros [s Hs]. discriminate Hs.
Defined.

Lemma activate_skill_known_witness :
  dict_lookup (skills two_loaded) (HStr "summarize")
  = Some (loaded "b" "summarize" "Write a summary" "Two")
  /\ exists (call : GenerateCall) (answer : string),
       activate_skill json_braces answers_done two_loaded "summarize" [] one_context
       = (Ok answer,
          {| heap := heap one_context;
             trace := trace one_context ++ [Activated "summarize"; Generated call] |})
       /\ contains (prompt call) "Two" = true
       /\ answer = "done".
Proof.
  split; [reflexivity|].
  destruct (proj2 (activate_skill_known json_braces answers_done two_loaded
                     "summarize" [] one_context _ eq_refl) "{}" eq_refl)
    as (call & answer & Hrun & _ & _ & _ & _ & _ & Hbody & _ & Hanswer).
  exists call, answer. split; [exact Hrun|]. split; [exact Hbody|exact Hanswer].
Defined.

Lemma execute_workflow_runs_in_order_witness :
  (forall v : pyval, exists s : string, json_braces v = Ok s)
  /\ (forall s : string, prints_all s = Ok tt)
  /\ heap one_context !! 1%positive = Some [("user_query", PStr "q")]
  /\ exists (context : loc) (w' : World) (t : list event),
       execute_workflow json_braces answers_done prints_all two_loaded
         ["extract"; "summarize"] 1%positive one_context = (Ok context, w')
       /\ trace w' = trace one_context ++ t
       /\ activations t = ["extract"; "summarize"].
Proof.
  assert (Htotal : forall v : pyval, exists s : string, json_braces v = Ok s)
    by (intros v; exists "{}"; reflexivity).
  assert (Hprints : forall s : string, prints_all s = Ok tt)
    by (intros s; reflexivity).
  split; [exact Htotal|]. split; [exact Hprints|]. split; [reflexivity|].
  destruct (execute_workflow_runs_in_order json_braces answers_done prints_all
              Htotal Hprints two_loaded
              ["extract"; "summarize"] 1%positive one_context
              [("user_query", PStr "q")] eq_refl)
    as (context & w' & items' & t & Hrun & Htrace & Hact & _).
  exists context, w', t. split; [exact Hrun|]. split; [exact Htrace|exact Hact].
Defined.

End SkillsFacts.

(* ===================================================================== *)
(** * Properties of agent_core.py *)
(* ===================================================================== *)

Module AgentFacts.
Import Py Skills SkillsFacts Agent.

Section ChainTrace.

Variable json_dumps : pyval -> result string.
Variable ollama_generate : list GenerateCall -> GenerateCall -> result string.
Variable py_repr : pyval -> string.

(** Every value handed to [json.dumps] serializes. *)
Hypothesis json_dumps_total : forall v : pyval, exists s : string, json_dumps v = Ok s.

Lemma activations_app (t1 t2 : list event) :
  activations (t1 ++ t2) = activations t1 ++ activations t2.
Proof. apply omap_app. Qed.

(** An activation returns, and adds to the trace its own entry followed
    by at most a call of [ollama.generate]. *)
Lemma activate_skill_returns (manager : SkillManager) (skill_name : string)
    (context : Skills.context) (w : World) :
  exists (result : string) (t : list event),
    activate_skill json_dumps ollama_generate manager skill_name context w
    = (Ok result, {| heap := heap w; trace := trace w ++ Activated skill_name :: t |})
    /\ activations t = [].
Proof.
  unfold activate_skill, mbind, log, lift, m_try, generate, ret. cbn [heap trace].
  destruct (dict_lookup (skills manager) (HStr skill_name)) as [skill_data|].
  - destruct (json_dumps_total (PDict context)) as (dumped & ->).
    cbn [heap trace].
    destruct (ollama_generate _ _) as [response|e]; rewrite <- app_assoc;
      eexists _, [Generated _]; split; reflexivity.
  - eexists _, []. split; reflexivity.
Qed.

(** The loop over the requests activates them one after the other. *)
Lemma run_requests_returns (self : DocumentQAAgent) (requests : list string) :
  forall (workflow_context : Skills.context) (results : list (string * string))
         (w : World),
    exists (workflow_context' : Skills.context) (results' : list (string * string))
           (t : list event),
      run_requests json_dumps ollama_generate self requests workflow_context results w
      = (Ok (workflow_context', results'),
         {| heap := heap w; trace := trace w ++ t |})
      /\ activations t = requests
      /\ map fst results' = map fst results ++ requests.
Proof.
  induction requests as [|skill_name requests IH]; intros wc results w.
  - exists wc, results, []. rewrite !app_nil_r. destruct w. repeat split.
  - cbn [run_requests]. unfold mbind at 1.
    destruct (activate_skill_returns (skill_manager self) skill_name
                [ ("user_query", dict_get wc "user_query" (PStr ""));
                  ("document_content", dict_get wc "document_text" (PStr ""));
                  ("previous_results", PList (map result_entry results));
                  ("workflow_step", PInt (Z.of_nat (length results) + 1)) ] w)
      as (result & t1 & -> & Ht1).
    destruct (IH (dict_set ("result_" +:+ skill_name) (PStr result) wc)
                 (results ++ [(skill_name, result)])
                 {| heap := heap w; trace := trace w ++ Activated skill_name :: t1 |})
      as (wc' & results' & t2 & -> & Ht2 & Hres).
    exists wc', results', (Activated skill_name :: t1 ++ t2).
    cbn [heap trace]. split; [|split].
    + rewrite <- app_assoc. reflexivity.
    + change (activations (Activated skill_name :: t1 ++ t2))
        with (skill_name :: activations (t1 ++ t2)).
      rewrite activations_app, Ht1, Ht2. reflexivity.
    + rewrite Hres, map_app, <- app_assoc. reflexivity.
Qed.

(** A response with requests leads to their activations, in order, and
    then to exactly one more call of [ollama.generate]: the synthesis. *)
Lemma execute_skill_chain_trace (self : DocumentQAAgent) (agent_response : string)
    (context : option Skills.context) (w : World) (requests : list string) :
  skill_requests agent_response = Ok requests ->
  requests <> [] ->
  exists (answer : string) (t : list event) (synthesis : GenerateCall),
    execute_skill_chain json_dumps ollama_generate py_repr self agent_response
      context w
    = (Ok answer, {| heap := heap w; trace := trace w ++ t ++ [Generated synthesis] |})
    /\ activations t = requests
    /\ temperature synthesis = (2 # 10)%Q.
Proof.
  intros Hrequests Hne.
  unfold execute_skill_chain, mbind at 1, lift. rewrite Hrequests.
  destruct requests as [|r0 requests]; [congruence|].
  unfold mbind at 1.
  destruct (run_requests_returns self (r0 :: requests)
              match context with Some (item :: items) => item :: items | _ => [] end
              [] w)
    as (wc' & results' & t & -> & Ht & _).
  unfold mbind at 1, lift.
  destruct (json_dumps_total (PList (map result_entry results'))) as (dumped & ->).
  unfold m_try, generate, ret. cbn [heap trace].
  destruct (ollama_generate _ _) as [response|e]; rewrite <- app_assoc;
    eexists _, t, _; repeat split; exact Ht.
Qed.

End ChainTrace.

(** One marker a line: the names come out in order, duplicates kept. *)
Example skill_requests_in_order :
  skill_requests
    ("[USE_SKILL:extract]" +:+ nl +:+ "and then" +:+ nl
     +:+ "  [USE_SKILL: summarize ] " +:+ nl +:+ "[USE_SKILL:extract]")
  = Ok ["extract"; "summarize"; "extract"].
Proof. vm_compute. reflexivity. Qed.

(** Two markers on two lines: two activations in order, each with its
    call, then the one synthesis call. *)
Example two_lines_two_activations :
  chain_trace ("[USE_SKILL:extract]" +:+ nl +:+ "[USE_SKILL:summarize]")
  = [ inl "extract"; inr (3 # 10)%Q; inl "summarize"; inr (3 # 10)%Q;
      inr (2 # 10)%Q ].
Proof. vm_compute. reflexivity. Qed.

(** C4, at the input where the code departs from it: of two markers on
    one line only the first is read, so the response that names [extract]
    and [summarize] leads to one activation, not two, before the synthesis
    call. *)
Theorem same_line_marker_dropped :
  skill_requests "[USE_SKILL:extract] then [USE_SKILL:summarize]" = Ok ["extract"]
  /\ chain_trace "[USE_SKILL:extract] then [USE_SKILL:summarize]"
     = [ inl "extract"; inr (3 # 10)%Q; inr (2 # 10)%Q ].
Proof. split; vm_compute; reflexivity. Qed.

(** ** Reading the requests *)

Lemma split_from_nonempty (sep s : string) :
  forall (skip : nat) (cur : list ascii), split_from sep s skip cur <> [].
Proof.
  induction s as [|c s IH]; intros skip cur; cbn [split_from]; [discriminate|].
  destruct skip; [|apply IH].
  destruct (String.prefix sep (String c s)); [discriminate|apply IH].
Qed.

Lemma prefix_of_empty (sep : string) : sep <> "" -> String.prefix sep "" = false.
Proof. destruct sep; [congruence|reflexivity]. Qed.

(** A text that contains the separator splits into two parts at least. *)
Lemma split_from_two (sep s : string) :
  sep <> "" ->
  forall cur : list ascii,
    contains s sep = true -> (2 <= length (split_from sep s 0 cur))%nat.
Proof.
  intros Hsep. induction s as [|c s IH]; intros cur Hin.
  - cbn [contains] in Hin. rewrite (prefix_of_empty sep Hsep) in Hin. discriminate.
  - cbn [contains] in Hin. cbn [split_from].
    destruct (String.prefix sep (String c s)).
    + pose proof (split_from_nonempty sep s (String.length sep - 1) []) as Hne.
      destruct (split_from sep s (String.length sep - 1) []); [congruence|].
      simpl. lia.
    + apply IH. exact Hin.
Qed.

Lemma requested_skill_ok (line : string) :
  contains line marker = true -> exists skill_name, requested_skill line = Ok skill_name.
Proof.
  intros Hin. unfold requested_skill, item.
  pose proof (split_from_two marker line ltac:(discriminate) [] Hin) as Htwo.
  fold (split line marker) in Htwo.
  destruct (split line marker) as [|before [|after parts]]; simpl in Htwo; try lia.
  cbn [nth_error bind].
  pose proof (split_from_nonempty "]" after 0 []) as Hne.
  fold (split after "]") in Hne.
  destruct (split after "]") as [|inside parts']; [congruence|].
  cbn [nth_error bind]. eexists. reflexivity.
Qed.

Lemma skill_requests_of_ok (lines : list string) :
  exists requests : list string,
    skill_requests_of lines = Ok requests
    /\ length requests
       = length (List.filter (fun line => contains line marker) lines).
Proof.
  induction lines as [|line lines (requests & IH & Hlen)]; simpl.
  - exists []. split; reflexivity.
  - destruct (contains line marker) eqn:Hin.
    + destruct (requested_skill_ok line Hin) as (skill_name & ->).
      rewrite IH. cbn [bind]. exists (skill_name :: requests).
      split; [reflexivity|]. simpl. rewrite Hlen. reflexivity.
    + exists requests. split; [exact IH|exact Hlen].
Qed.

(** X21: reading the skill requests off a response never raises, and
    gives one request for each line that contains the marker, however many
    markers the line has. *)
Theorem skill_requests_one_per_line (agent_response : string) :
  exists requests : list string,
    skill_requests agent_response = Ok requests
    /\ length requests
       = length (List.filter (fun line => contains line marker)
                             (split agent_response nl)).
Proof. apply skill_requests_of_ok. Qed.

Lemma prefix_append (sub : string) :
  forall s t : string,
    String.prefix sub s = true -> String.prefix sub (s +:+ t) = true.
Proof.
  induction sub as [|c sub IH]; intros s t Hs; [destruct (s +:+ t); reflexivity|].
  destruct s as [|c' s]; [discriminate|].
  rewrite append_cons. simpl in *.
  destruct (ascii_dec c c'); [apply IH; exact Hs|discriminate].
Qed.

Lemma contains_append (s t sub : string) :
  contains s sub = true -> contains (s +:+ t) sub = true.
Proof.
  induction s as [|c s IH]; intros Hs.
  - cbn [contains] in Hs. rewrite orb_false_r in Hs.
    destruct sub; [|discriminate]. rewrite append_nil. destruct t; reflexivity.
  - rewrite append_cons. cbn [contains] in *.
    apply orb_true_iff in Hs as [Hs|Hs].
    + rewrite <- append_cons, (prefix_append _ _ _ Hs). reflexivity.
    + rewrite (IH Hs). apply orb_true_r.
Qed.

(** ** What the agent answers *)

Lemma generate_calls_app (t1 t2 : list event) :
  generate_calls (t1 ++ t2) = generate_calls t1 ++ generate_calls t2.
Proof. apply omap_app. Qed.

Lemma opening_calls_app (t1 t2 : list event) :
  opening_calls (t1 ++ t2) = opening_calls t1 ++ opening_calls t2.
Proof. unfold opening_calls. rewrite generate_calls_app. apply List.filter_app. Qed.

Section Answers.

Variable json_dumps : pyval -> result string.
Variable ollama_generate : list GenerateCall -> GenerateCall -> result string.
Variable py_repr : pyval -> string.
Variable yaml_repr : yaml -> string.
Variable slice_of_dict : exn.

(** Every value handed to [json.dumps] serializes. *)
Hypothesis json_dumps_total : forall v : pyval, exists s : string, json_dumps v = Ok s.

Local Abbreviation execute_skill_chain :=
  (execute_skill_chain json_dumps ollama_generate py_repr).
Local Abbreviation process_with_skills :=
  (process_with_skills json_dumps ollama_generate py_repr yaml_repr slice_of_dict).

(** The calls of an activation carry no system prompt. *)
Lemma activate_skill_plain (manager : SkillManager) (skill_name : string)
    (context : Skills.context) (w : World) :
  exists (result : string) (t : list event),
    activate_skill json_dumps ollama_generate manager skill_name context w
    = (Ok result, {| heap := heap w; trace := trace w ++ Activated skill_name :: t |})
    /\ activations t = []
    /\ opening_calls t = [].
Proof.
  unfold activate_skill, mbind, log, lift, m_try, generate, ret. cbn [heap trace].
  destruct (dict_lookup (skills manager) (HStr skill_name)) as [skill_data|].
  - destruct (json_dumps_total (PDict context)) as (dumped & ->).
    cbn [heap trace].
    destruct (ollama_generate _ _) as [response|e]; rewrite <- app_assoc;
      eexists _, [Generated _]; repeat split; reflexivity.
  - eexists _, []. repeat split; reflexivity.
Qed.

Lemma run_requests_plain (self : DocumentQAAgent) (requests : list string) :
  forall (workflow_context : Skills.context) (results : list (string * string))
         (w : World),
    exists (workflow_context' : Skills.context) (results' : list (string * string))
           (t : list event),
      run_requests json_dumps ollama_generate self requests workflow_context results w
      = (Ok (workflow_context', results'),
         {| heap := heap w; trace := trace w ++ t |})
      /\ activations t = requests
      /\ opening_calls t = []
      /\ map fst results' = map fst results ++ requests.
Proof.
  induction requests as [|skill_name requests IH]; intros wc results w.
  - exists wc, results, []. rewrite !app_nil_r. destruct w. repeat split.
  - cbn [run_requests]. unfold mbind at 1.
    destruct (activate_skill_plain (skill_manager self) skill_name
                [ ("user_query", dict_get wc "user_query" (PStr ""));
                  ("document_content", dict_get wc "document_text" (PStr ""));
                  ("previous_results", PList (map result_entry results));
                  ("workflow_step", PInt (Z.of_nat (length results) + 1)) ] w)
      as (result & t1 & -> & Ht1 & Hplain1).
    destruct (IH (dict_set ("result_" +:+ skill_name) (PStr result) wc)
                 (results ++ [(skill_name, result)])
                 {| heap := heap w; trace := trace w ++ Activated skill_name :: t1 |})
      as (wc' & results' & t2 & -> & Ht2 & Hplain2 & Hres).
    exists wc', results', (Activated skill_name :: t1 ++ t2).
    cbn [heap trace]. split; [|split; [|split]].
    + rewrite <- app_assoc. reflexivity.
    + change (activations (Activated skill_name :: t1 ++ t2))
        with (skill_name :: activations (t1 ++ t2)).
      rewrite activations_app, Ht1, Ht2. reflexivity.
    + change (opening_calls (Activated skill_name :: t1 ++ t2))
        with (opening_calls (t1 ++ t2)).
      rewrite opening_calls_app, Hplain1, Hplain2. reflexivity.
    + rewrite Hres, map_app, <- app_assoc. reflexivity.
Qed.

Lemma execute_skill_chain_runs (self : DocumentQAAgent) (agent_response : string)
    (context : option Skills.context) (w : World) :
  exists (requests : list string) (answer : string) (t : list event),
    skill_requests agent_response = Ok requests
    /\ execute_skill_chain self agent_response context w
       = (Ok answer, {| heap := heap w; trace := trace w ++ t |})
    /\ activations t = requests
    /\ opening_calls t = []
    /\ (requests = [] -> answer = agent_response /\ t = [])
    /\ (requests <> [] ->
        exists (t0 : list event) (synthesis : GenerateCall)
               (results : list (string * string)),
          t = t0 ++ [Generated synthesis]
          /\ model synthesis = agent_model self
          /\ system synthesis = None
          /\ temperature synthesis = (2 # 10)%Q
          /\ num_predict synthesis = 1500
          /\ map fst results = requests
          /\ answer
             = match ollama_generate (generate_calls (trace w ++ t0)) synthesis with
               | Ok response => response
               | Raise _ =>
                   combine_results results
                     ("Skill execution completed. Results:" +:+ nl +:+ nl)
               end).
Proof.
  destruct (skill_requests_of_ok (split agent_response nl)) as (requests & Hreq & _).
  fold (skill_requests agent_response) in Hreq.
  exists requests.
  unfold Agent.execute_skill_chain, mbind at 1, lift. rewrite Hreq.
  destruct requests as [|r0 requests].
  - exists agent_response, []. unfold ret. rewrite app_nil_r. destruct w.
    split; [reflexivity|]. split; [reflexivity|]. split; [reflexivity|].
    split; [reflexivity|]. split; [tauto|congruence].
  - unfold mbind at 1.
    destruct (run_requests_plain self (r0 :: requests)
                match context with Some (item :: items) => item :: items | _ => [] end
                [] w)
      as (wc' & results' & t & -> & Ht & Hplain & Hres).
    unfold mbind at 1, lift.
    destruct (json_dumps_total (PList (map result_entry results'))) as (dumped & ->).
    unfold m_try, generate, ret. cbn [heap trace].
    set (synthesis := {| model := agent_model self; system := None; prompt := _;
                         temperature := _; num_predict := _ |}).
    exists (match ollama_generate (generate_calls (trace w ++ t)) synthesis with
            | Ok response => response
            | Raise _ =>
                combine_results results'
                  ("Skill execution completed. Results:" +:+ nl +:+ nl)
            end), (t ++ [Generated synthesis]).
    split; [reflexivity|].
    split; [rewrite app_assoc; destruct (ollama_generate _ synthesis); reflexivity|].
    split; [rewrite activations_app, Ht; apply app_nil_r|].
    split; [rewrite opening_calls_app, Hplain; reflexivity|].
    split; [discriminate|]. intros _.
    exists t, synthesis, results'. repeat split. exact Hres.
Qed.

(** The keys the chain adds to its working context are not the keys it
    reads. *)
Lemma dict_get_result (wc : Skills.context) (skill_name k : string)
    (v default : pyval) :
  String.prefix "result_" k = false ->
  dict_get (dict_set ("result_" +:+ skill_name) v wc) k default
  = dict_get wc k default.
Proof.
  intros Hk. unfold dict_get. rewrite PyFacts.dict_lookup_set_ne; [reflexivity|].
  intros ->. rewrite (prefix_append "result_" "result_" skill_name eq_refl) in Hk.
  discriminate.
Qed.

(** The loop of the chain, activation by activation: [after k] is what the
    first [k] passes add to the trace. *)
Lemma run_requests_exact (self : DocumentQAAgent) (requests : list string) :
  forall (wc : Skills.context) (results : list (string * string)) (w : World),
    exists (wc' : Skills.context) (results' : list (string * string))
           (after : nat -> list event),
      run_requests json_dumps ollama_generate self requests wc results w
      = (Ok (wc', results ++ results'),
         {| heap := heap w; trace := trace w ++ after (length requests) |})
      /\ after 0%nat = []
      /\ length results' = length requests
      /\ activations (after (length requests)) = requests
      /\ (forall default : pyval,
            dict_get wc' "user_query" default = dict_get wc "user_query" default)
      /\ (forall (k : nat) (skill_name : string),
            nth_error requests k = Some skill_name ->
            exists result : string,
              nth_error results' k = Some (skill_name, result)
              /\ activate_skill json_dumps ollama_generate (skill_manager self)
                   skill_name
                   [ ("user_query", dict_get wc "user_query" (PStr ""));
                     ("document_content", dict_get wc "document_text" (PStr ""));
                     ("previous_results",
                      PList (map result_entry (results ++ firstn k results')));
                     ("workflow_step",
                      PInt (Z.of_nat (length (results ++ firstn k results')) + 1)) ]
                   {| heap := heap w; trace := trace w ++ after k |}
                 = (Ok result,
                    {| heap := heap w; trace := trace w ++ after (S k) |})).
Proof.
  induction requests as [|skill_name requests IH]; intros wc results w.
  - exists wc, [], (fun _ => []). cbn [run_requests length]. unfold ret.
    rewrite !app_nil_r. destruct w.
    split; [reflexivity|]. split; [reflexivity|]. split; [reflexivity|].
    split; [reflexivity|]. split; [reflexivity|].
    intros [|k] name Hk; discriminate.
  - cbn [run_requests]. unfold mbind at 1.
    destruct (activate_skill_plain (skill_manager self) skill_name
                [ ("user_query", dict_get wc "user_query" (PStr ""));
                  ("document_content", dict_get wc "document_text" (PStr ""));
                  ("previous_results", PList (map result_entry results));
                  ("workflow_step", PInt (Z.of_nat (length results) + 1)) ] w)
      as (result & t1 & Hact1 & Ht1 & _).
    rewrite Hact1.
    destruct (IH (dict_set ("result_" +:+ skill_name) (PStr result) wc)
                 (results ++ [(skill_name, result)])
                 {| heap := heap w; trace := trace w ++ Activated skill_name :: t1 |})
      as (wc' & results' & after & -> & Hzero & Hlen & Hacts & Hquery & Hstep).
    cbn [heap trace] in Hstep |- *.
    exists wc', ((skill_name, result) :: results'),
      (fun k => match k with
                | O => []
                | S k' => (Activated skill_name :: t1) ++ after k'
                end).
    cbn [length]. rewrite <- !app_assoc. cbn [app].
    split; [reflexivity|]. split; [reflexivity|].
    split; [rewrite Hlen; reflexivity|].
    split.
    { change (activations (Activated skill_name :: t1 ++ after (length requests)))
        with (skill_name :: activations (t1 ++ after (length requests))).
      rewrite activations_app, Ht1, Hacts. reflexivity. }
    split.
    { intros default. rewrite Hquery. apply dict_get_result. reflexivity. }
    intros [|k] name Hk.
    + cbn [nth_error] in Hk. injection Hk as <-. exists result.
      split; [reflexivity|]. cbn [firstn]. rewrite !app_nil_r, Hzero, app_nil_r.
      destruct w. exact Hact1.
    + cbn [nth_error] in Hk. destruct (Hstep k name Hk) as (result' & Hnth & Hact).
      exists result'. split; [exact Hnth|].
      rewrite !dict_get_result in Hact by reflexivity.
      cbn [firstn]. rewrite <- !app_assoc in Hact. cbn [app] in Hact.
      exact Hact.
Qed.

(** X22: when every value serializes, [_execute_skill_chain], the
    lines it prints on the console apart, never raises. A response without
    a request comes back as it is, with no
    activation and no call. Otherwise the requests are activated in their
    order, each on a context of four items: the user's query and the
    document text of the context given (the empty string for one that is
    not there), the results of the activations before it, each with its
    skill's name, and its number in the order. Then exactly one more call
    of [ollama.generate] is made, with the agent's model, no system prompt,
    temperature 0.2, 1500 tokens and a prompt made of the serialized
    results and the user's query: the answer is its response, or, when it
    raises, the list of the skills' results under the heading "Skill
    execution completed. Results:". *)
Theorem execute_skill_chain_outcome (self : DocumentQAAgent) (agent_response : string)
    (context : option Skills.context) (w : World) :
  exists (requests : list string) (answer : string) (t : list event),
    skill_requests agent_response = Ok requests
    /\ execute_skill_chain self agent_response context w
       = (Ok answer, {| heap := heap w; trace := trace w ++ t |})
    /\ activations t = requests
    /\ (requests = [] -> answer = agent_response /\ t = [])
    /\ (requests <> [] ->
        exists (after : nat -> list event) (results : list (string * string))
               (dumped : string),
          let workflow_context := default [] context in
          let synthesis :=
            {| model := agent_model self;
               system := None;
               prompt :=
                 "SKILL EXECUTION RESULTS:" +:+ nl
                 +:+ dumped +:+ nl +:+ nl
                 +:+ "ORIGINAL USER REQUEST: "
                 +:+ format py_repr
                       (dict_get workflow_context "user_query" (PStr "Unknown"))
                 +:+ nl +:+ nl
                 +:+ "TASK: Synthesize the skill execution results into a clear, comprehensive answer for the user."
                 +:+ nl
                 +:+ "Focus on accuracy, completeness, and relevance to the original question."
                 +:+ nl +:+ nl
                 +:+ "FINAL ANSWER:";
               temperature := (2 # 10)%Q;
               num_predict := 1500 |} in
          after 0%nat = []
          /\ length results = length requests
          /\ (forall (k : nat) (skill_name : string),
                nth_error requests k = Some skill_name ->
                exists result : string,
                  nth_error results k = Some (skill_name, result)
                  /\ activate_skill json_dumps ollama_generate (skill_manager self)
                       skill_name
                       [ ("user_query",
                          dict_get workflow_context "user_query" (PStr ""));
                         ("document_content",
                          dict_get workflow_context "document_text" (PStr ""));
                         ("previous_results",
                          PList (map result_entry (firstn k results)));
                         ("workflow_step", PInt (Z.of_nat k + 1)) ]
                       {| heap := heap w; trace := trace w ++ after k |}
                     = (Ok result,
                        {| heap := heap w; trace := trace w ++ after (S k) |}))
          /\ json_dumps (PList (map result_entry results)) = Ok dumped
          /\ t = after (length requests) ++ [Generated synthesis]
          /\ answer
             = match ollama_generate
                       (generate_calls (trace w ++ after (length requests)))
                       synthesis with
               | Ok response => response
               | Raise _ =>
                   combine_results results
                     ("Skill execution completed. Results:" +:+ nl +:+ nl)
               end).
Proof.
  destruct (skill_requests_of_ok (split agent_response nl)) as (requests & Hreq & _).
  fold (skill_requests agent_response) in Hreq.
  exists requests.
  unfold Agent.execute_skill_chain, mbind at 1, lift. rewrite Hreq.
  destruct requests as [|r0 requests].
  - exists agent_response, []. unfold ret. rewrite app_nil_r. destruct w.
    split; [reflexivity|]. split; [reflexivity|]. split; [reflexivity|].
    split; [tauto|congruence].
  - unfold mbind at 1.
    set (wc0 := match context with Some (item :: items) => _ | _ => _ end).
    assert (Hwc : wc0 = default [] context)
      by (subst wc0; destruct context as [[|item items]|]; reflexivity).
    clearbody wc0. subst wc0.
    destruct (run_requests_exact self (r0 :: requests) (default [] context) [] w)
      as (wc' & results & after & -> & Hzero & Hlen & Hacts & Hquery & Hstep).
    cbn [app]. unfold mbind at 1, lift.
    destruct (json_dumps_total (PList (map result_entry results)))
      as (dumped & Hdumped).
    rewrite Hdumped, Hquery.
    unfold m_try, generate, ret. cbn [heap trace].
    set (synthesis := {| model := agent_model self; system := None; prompt := _;
                         temperature := _; num_predict := _ |}).
    exists (match ollama_generate
                    (generate_calls (trace w ++ after (length (r0 :: requests))))
                    synthesis with
            | Ok response => response
            | Raise _ =>
                combine_results results
                  ("Skill execution completed. Results:" +:+ nl +:+ nl)
            end), (after (length (r0 :: requests)) ++ [Generated synthesis]).
    split; [reflexivity|].
    split; [rewrite app_assoc; destruct (ollama_generate _ synthesis); reflexivity|].
    split; [rewrite activations_app, Hacts; apply app_nil_r|].
    split; [discriminate|]. intros _.
    exists after, results, dumped. cbv zeta. fold synthesis.
    split; [exact Hzero|]. split; [exact Hlen|].
    split; [|split; [exact Hdumped|split; reflexivity]].
    intros k name Hk. destruct (Hstep k name Hk) as (result & Hnth & Hact).
    exists result. split; [exact Hnth|].
    cbn [app] in Hact. rewrite length_firstn in Hact.
    assert (Hlt : (k < length (r0 :: requests))%nat)
      by (apply List.nth_error_Some; congruence).
    replace (k `min` length results)%nat with k in Hact by lia.
    exact Hact.
Qed.

Lemma process_with_skills_runs (self : DocumentQAAgent) (user_input : string)
    (context : option Skills.context) (w : World) :
  (forall v, document_text context = Some v -> exists s, v = PStr s) ->
  exists (answer : string) (first : GenerateCall) (t : list event),
    process_with_skills self user_input context w
    = (Ok answer, {| heap := heap w; trace := trace w ++ Generated first :: t |})
    /\ model first = agent_model self
    /\ system first = Some (get_system_prompt yaml_repr self)
    /\ temperature first = (3 # 10)%Q
    /\ num_predict first = 2000
    /\ contains (prompt first) user_input = true
    /\ opening_calls t = []
    /\ (forall e, ollama_generate (generate_calls (trace w)) first = Raise e ->
                  answer = "Error: " +:+ exn_message e /\ t = [])
    /\ (forall response,
          ollama_generate (generate_calls (trace w)) first = Ok response ->
          contains response marker = false ->
          answer = response /\ t = []).
Proof.
  intros Hdoc. unfold Agent.process_with_skills.
  set (request := "USER REQUEST: " +:+ user_input +:+ nl +:+ nl).
  set (built := match context with
                | Some (item :: items) => _
                | _ => Ok request
                end).
  assert (Hbuilt : exists user_prompt,
             built = Ok user_prompt /\ contains user_prompt user_input = true).
  { assert (Hreq : contains request user_input = true)
      by (apply contains_skip, contains_here).
    subst built. destruct context as [[|item items]|]; try (exists request; tauto).
    destruct (dict_lookup (item :: items) "document_text") as [v|] eqn:Hv;
      [|exists request; tauto].
    destruct (Hdoc v Hv) as (s & ->). cbn [document_excerpt bind].
    eexists. split; [reflexivity|]. apply contains_append. exact Hreq. }
  destruct Hbuilt as (user_prompt & -> & Hprompt). clearbody request.
  unfold mbind at 1, lift. unfold m_try, mbind, generate. cbn [heap trace].
  set (first := {| model := agent_model self; system := Some _; prompt := user_prompt;
                   temperature := _; num_predict := _ |}).
  destruct (ollama_generate (generate_calls (trace w)) first) as [response|e] eqn:Hgen.
  - destruct (contains response marker) eqn:Hmarker.
    + destruct (execute_skill_chain_runs self response context
                  {| heap := heap w; trace := trace w ++ [Generated first] |})
        as (requests & answer & t & _ & -> & _ & Hplain & _).
      cbn [heap trace]. rewrite <- app_assoc. cbn [app].
      exists answer, first, t. split; [reflexivity|].
      repeat split; try exact Hprompt; try exact Hplain; intros; congruence.
    + exists response, first, []. unfold ret.
      split; [reflexivity|]. repeat split; try exact Hprompt; intros; congruence.
  - exists ("Error: " +:+ exn_message e), first, []. unfold ret.
    split; [reflexivity|]. repeat split; try exact Hprompt; intros; congruence.
Qed.


(** X24: a document text that is neither a string nor a list makes
    [process_with_skills] raise before anything is called: for None, a
    bool and an int the TypeError that names the type as not
    subscriptable, and for a dict what asking a dict for a slice raises. *)
Theorem process_with_skills_bad_document (self : DocumentQAAgent)
    (user_input : string) (context : option Skills.context) (w : World) (v : pyval) :
  document_text context = Some v ->
  (forall s, v <> PStr s) -> (forall items, v <> PList items) ->
  exists e : exn,
    process_with_skills self user_input context w = (Raise e, w)
    /\ match v with
       | PNone => e = TypeError "'NoneType' object is not subscriptable"
       | PBool _ => e = TypeError "'bool' object is not subscriptable"
       | PInt _ => e = TypeError "'int' object is not subscriptable"
       | PDict _ => e = slice_of_dict
       | PStr _ | PList _ => False
       end.
Proof.
  intros Hv Hstr Hlist. unfold Agent.process_with_skills, mbind, lift.
  destruct context as [[|item items]|]; try discriminate.
  cbn [document_text] in Hv. rewrite Hv.
  destruct v; cbn [document_excerpt bind];
    try (eexists; split; reflexivity);
    [exfalso; eapply Hstr|exfalso; eapply Hlist]; reflexivity.
Qed.

End Answers.

(** ** Documents *)

Lemma length_append (s t : string) :
  String.length (s +:+ t) = (String.length s + String.length t)%nat.
Proof.
  induction s as [|c s IH]; [reflexivity|].
  rewrite append_cons. simpl. rewrite IH. reflexivity.
Qed.

Lemma length_string_prefix (n : nat) (s : string) :
  String.length (string_prefix n s) = Nat.min n (String.length s).
Proof.
  unfold string_prefix. revert s. induction n as [|n IH]; intros [|c s]; simpl;
    try reflexivity.
  rewrite IH. reflexivity.
Qed.

Section Documents.

Variable stem : string -> string.

Local Abbreviation process_document := (Agent.process_document stem).


(** X26: when [process_document] returns an identifier, the processed
    documents hold under it a record with the path, the whole content and
    its length, and every other record is as before. The preview is the
    content when that has at most 500 characters, and otherwise its first
    500 characters followed by three dots, 503 characters in all. *)
Theorem process_document_stores (processed_documents : dict string Document)
    (file_path : string) (file : FileOutcome) (document_id preview : string) :
  fst (process_document processed_documents file_path file)
  = Loaded document_id preview ->
  exists content : string,
    read_document file = Ok content
    /\ document_id = "doc_" +:+ stem file_path
    /\ dict_lookup (snd (process_document processed_documents file_path file))
                   document_id
       = Some {| doc_id := document_id;
                 doc_path := file_path;
                 doc_content := content;
                 doc_length := String.length content |}
    /\ (forall other : string,
          other <> document_id ->
          dict_lookup (snd (process_document processed_documents file_path file))
                      other
          = dict_lookup processed_documents other)
    /\ ((String.length content <= 500)%nat -> preview = content)
    /\ ((500 < String.length content)%nat ->
        preview = string_prefix 500 content +:+ "..."
        /\ String.length preview = 503%nat).
Proof.
  unfold Agent.process_document.
  destruct (read_document file) as [content|e]; [|discriminate].
  cbn [fst snd]. intros [= <- <-]. exists content.
  split; [reflexivity|]. split; [reflexivity|].
  split; [apply PyFacts.dict_lookup_set_eq|].
  split; [intros other Hother; apply PyFacts.dict_lookup_set_ne; exact Hother|].
  destruct (Nat.ltb_spec 500 (String.length content)) as [Hlong|Hshort].
  - split; [lia|]. intros _. split; [reflexivity|].
    rewrite length_append, length_string_prefix.
    change (String.length "...") with 3%nat. lia.
  - split; [reflexivity|lia].
Qed.


End Documents.

(** ** Sessions *)

Section Sessions.

Variable json_dumps : pyval -> result string.
Variable ollama_generate : list GenerateCall -> GenerateCall -> result string.
Variable py_repr : pyval -> string.
Variable yaml_repr : yaml -> string.
Variable slice_of_dict : exn.
Variable stem : string -> string.
Variable path_name : string -> string.
Variable files : string -> FileOutcome.
Variable console : shown -> result unit.

(** Every value handed to [json.dumps] serializes. *)
Hypothesis json_dumps_total : forall v : pyval, exists s : string, json_dumps v = Ok s.

Local Abbreviation session_loop :=
  (Agent.session_loop json_dumps ollama_generate py_repr yaml_repr slice_of_dict
     stem path_name files console).
Local Abbreviation interactive_session :=
  (Agent.interactive_session json_dumps ollama_generate py_repr yaml_repr
     slice_of_dict stem path_name files console).
Local Abbreviation process_document := (Agent.process_document stem).
Local Abbreviation process_document_shown :=
  (Agent.process_document_shown stem path_name files console).

Lemma mbind_ext {A B : Type} (m : M A) (k1 k2 : A -> M B) (w : World) :
  (forall a w', k1 a w' = k2 a w') -> mbind m k1 w = mbind m k2 w.
Proof.
  intros Hk. unfold mbind. destruct (m w) as [[a|e] w']; [apply Hk|reflexivity].
Qed.

Lemma show_ok (x : shown) :
  console x = Ok tt ->
  forall (B : Type) (k : list shown -> M B) (output : list shown) (w : World),
    mbind (show console x output) k w = k (output ++ [x]) w.
Proof. intros Hx B k output w. unfold show, mbind, lift, ret. rewrite Hx. reflexivity. Qed.

Lemma show_raise (x : shown) (e : exn) :
  console x = Raise e ->
  forall (B : Type) (k : list shown -> M B) (output : list shown) (w : World),
    mbind (show console x output) k w = (Raise e, w).
Proof. intros Hx B k output w. unfold show, mbind, lift, ret. rewrite Hx. reflexivity. Qed.

(** What comes after the line that ends the session is not read. *)
Lemma session_ignores_rest (self : DocumentQAAgent) (before : list string)
    (q : string) (after : list string) :
  quits (strip q) = true ->
  forall (current_doc : option (string * string)) (docs : dict string Document)
         (output : list shown) (w : World),
    session_loop self (before ++ q :: after) current_doc docs output w
    = session_loop self (before ++ [q]) current_doc docs output w.
Proof.
  intros Hq. induction before as [|line before IH]; intros current_doc docs output w;
    cbn [app Agent.session_loop]; apply mbind_ext; intros output1 w1.
  - destruct current_doc as [[id pv]|]; rewrite Hq; reflexivity.
  - destruct current_doc as [[id pv]|].
    + destruct (quits (strip line)); [reflexivity|].
      destruct (String.eqb (lower (strip line)) "new"); [apply IH|].
      destruct (String.eqb (strip line) ""); [apply IH|].
      destruct (dict_lookup docs id); [|reflexivity].
      do 4 (apply mbind_ext; intros ? ?). apply IH.
    + destruct (quits (strip line)); [reflexivity|].
      apply mbind_ext. intros [[result docs'] output2] w2.
      destruct result; apply mbind_ext; intros ? ?; apply IH.
Qed.

Lemma process_document_keeps (docs : dict string Document) (file_path : string)
    (file : FileOutcome) (document_id : string) :
  dict_lookup docs document_id <> None ->
  dict_lookup (snd (process_document docs file_path file)) document_id <> None.
Proof.
  intros Hid. unfold Agent.process_document.
  destruct (read_document file) as [content|e]; cbn [snd]; [|exact Hid].
  destruct (decide (document_id = "doc_" +:+ stem file_path)) as [->|Hne].
  - rewrite PyFacts.dict_lookup_set_eq. discriminate.
  - rewrite PyFacts.dict_lookup_set_ne by exact Hne. exact Hid.
Qed.

Lemma process_document_known (docs : dict string Document) (file_path : string)
    (file : FileOutcome) (document_id preview : string) :
  fst (process_document docs file_path file) = Loaded document_id preview ->
  dict_lookup (snd (process_document docs file_path file)) document_id <> None.
Proof.
  unfold Agent.process_document.
  destruct (read_document file) as [content|e]; cbn [fst snd]; [|discriminate].
  intros [= <- _]. rewrite PyFacts.dict_lookup_set_eq. discriminate.
Qed.

(** [process_document] with its two lines: it fails only when the console
    does, and otherwise returns what [process_document] returns, having
    shown lines that are no answers. *)
Lemma process_document_shown_runs (docs : dict string Document) (file_path : string)
    (output : list shown) (w : World) :
  (exists (e : exn) (x : shown),
     console x = Raise e
     /\ process_document_shown docs file_path output w = (Raise e, w))
  \/ (exists more : list shown,
        process_document_shown docs file_path output w
        = (Ok (process_document docs file_path (files file_path), output ++ more), w)
        /\ answers more = []
        /\ Forall (fun x => console x = Ok tt) more).
Proof.
  unfold Agent.process_document_shown.
  destruct (console (ShownProcessing (path_name file_path))) as [[]|e] eqn:Hfirst.
  2:{ left. exists e, (ShownProcessing (path_name file_path)).
      split; [exact Hfirst|]. apply (show_raise _ _ Hfirst). }
  rewrite (show_ok _ Hfirst). cbv zeta.
  destruct (read_document (files file_path)) as [content|e0].
  - destruct (console (ShownLoaded (String.length content))) as [[]|e] eqn:Hsecond.
    2:{ left. exists e, (ShownLoaded (String.length content)).
        split; [exact Hsecond|]. apply (show_raise _ _ Hsecond). }
    rewrite (show_ok _ Hsecond). right.
    exists [ShownProcessing (path_name file_path); ShownLoaded (String.length content)].
    unfold ret. rewrite <- app_assoc.
    split; [reflexivity|]. split; [reflexivity|].
    repeat constructor; assumption.
  - right. exists [ShownProcessing (path_name file_path)]. unfold ret.
    split; [reflexivity|]. split; [reflexivity|].
    repeat constructor; assumption.
Qed.

(** How a run of the loop ends, from the documents [docs] and the
    output [output], on the lines [inputs], with the events [t]; [first]
    is the prompt it begins with. *)
Local Abbreviation ends docs output inputs first r t :=
  (match r with
   | Ok (docs', output') =>
       Exists (fun line => ~ stays line) inputs
       /\ (forall id : string,
             dict_lookup docs id <> None -> dict_lookup docs' id <> None)
       /\ exists more : list shown,
            output' = output ++ first :: more
            /\ length (answers (first :: more)) = length (opening_calls t)
            /\ Forall (fun x => console x = Ok tt) (first :: more)
   | Raise e =>
       (e = EOFError /\ Forall stays inputs) \/ exists x : shown, console x = Raise e
   end).

Lemma ends_later (docs docs1 : dict string Document) (output rest : list shown)
    (first first' : shown) (t1 t2 : list event) (line : string)
    (inputs : list string) (r : result (dict string Document * list shown)) :
  stays line ->
  (forall id : string, dict_lookup docs id <> None -> dict_lookup docs1 id <> None) ->
  Forall (fun x => console x = Ok tt) (first :: rest) ->
  length (answers (first :: rest)) = length (opening_calls t1) ->
  ends docs1 (output ++ first :: rest) inputs first' r t2 ->
  ends docs output (line :: inputs) first r (t1 ++ t2).
Proof.
  intros Hstay Hgrow Hok Hcount. destruct r as [[docs' output']|e].
  - intros (Hex & Hgrow' & more & -> & Hcount' & Hok').
    split; [right; exact Hex|]. split; [auto|].
    exists (rest ++ first' :: more).
    split; [rewrite <- app_assoc; reflexivity|].
    change (first :: rest ++ first' :: more)
      with ((first :: rest) ++ first' :: more).
    split; [|apply Forall_app; split; assumption].
    unfold answers in *. rewrite omap_app, opening_calls_app, !length_app. lia.
  - intros [[-> Hall]|Hx]; [left|right; exact Hx].
    split; [reflexivity|]. constructor; assumption.
Qed.

Lemma session_loop_runs (self : DocumentQAAgent) (inputs : list string) :
  forall (current_doc : option (string * string)) (docs : dict string Document)
         (output : list shown) (w : World),
    known current_doc docs ->
    exists (r : result (dict string Document * list shown)) (t : list event),
      session_loop self inputs current_doc docs output w
      = (r, {| heap := heap w; trace := trace w ++ t |})
      /\ ends docs output inputs
              match current_doc with
              | None => ShownPathPrompt
              | Some _ => ShownQuestionPrompt
              end r t.
Proof.
  assert (Hfails : forall (w w1 : World) (x : shown) (e : exn)
                          (docs : dict string Document) (output : list shown)
                          (lines : list string) (first : shown) (t : list event),
             w1 = {| heap := heap w; trace := trace w ++ t |} ->
             console x = Raise e ->
             exists (r : result (dict string Document * list shown)) (t' : list event),
               (Raise e, w1) = (r, {| heap := heap w; trace := trace w ++ t' |})
               /\ ends docs output lines first r t').
  { intros w w1 x e docs output lines first t -> Hx. exists (Raise e), t.
    split; [reflexivity|]. right. exists x. exact Hx. }
  induction inputs as [|line inputs IH]; intros current_doc docs output w Hknown;
    assert (Hw : w = {| heap := heap w; trace := trace w ++ [] |})
      by (rewrite app_nil_r; destruct w; reflexivity);
    cbn [Agent.session_loop];
    set (prompt := match current_doc with
                   | None => ShownPathPrompt
                   | Some _ => ShownQuestionPrompt
                   end);
    (destruct (console prompt) as [[]|e] eqn:Hprompt;
     [rewrite (show_ok _ Hprompt)
     |rewrite (show_raise _ _ Hprompt);
      apply (Hfails w w prompt e _ _ _ prompt []); [exact Hw|exact Hprompt]]).
  - exists (Raise EOFError), []. unfold lift. rewrite <- Hw.
    split; [reflexivity|]. left. split; [reflexivity|]. constructor.
  - assert (Hplain : answers [prompt] = [])
      by (subst prompt; destruct current_doc; reflexivity).
    assert (Hquit : quits (strip line) = true ->
                    exists (r : result (dict string Document * list shown))
                           (t : list event),
                      ret (docs, output ++ [prompt]) w
                      = (r, {| heap := heap w; trace := trace w ++ t |})
                      /\ ends docs output (line :: inputs) prompt r t).
    { intros Hq. exists (Ok (docs, output ++ [prompt])), []. unfold ret.
      rewrite <- Hw.
      split; [reflexivity|]. split; [left; unfold stays; congruence|].
      split; [tauto|]. exists []. split; [reflexivity|].
      split; [rewrite Hplain; reflexivity|]. repeat constructor. exact Hprompt. }
    assert (Hnext : forall current_doc' docs' rest t1 w1,
               w1 = {| heap := heap w; trace := trace w ++ t1 |} ->
               quits (strip line) = false ->
               known current_doc' docs' ->
               (forall id, dict_lookup docs id <> None ->
                           dict_lookup docs' id <> None) ->
               Forall (fun x => console x = Ok tt) rest ->
               length (answers rest) = length (opening_calls t1) ->
               exists (r : result (dict string Document * list shown))
                      (t : list event),
                 session_loop self inputs current_doc' docs' (output ++ prompt :: rest)
                   w1
                 = (r, {| heap := heap w; trace := trace w ++ t |})
                 /\ ends docs output (line :: inputs) prompt r t).
    { intros current_doc' docs' rest t1 w1 -> Hstay Hknown' Hgrow Hok Hcount.
      destruct (IH current_doc' docs' (output ++ prompt :: rest)
                  {| heap := heap w; trace := trace w ++ t1 |} Hknown')
        as (r & t2 & Hrun & Hr).
      cbn [heap trace] in Hrun. rewrite <- app_assoc in Hrun.
      exists r, (t1 ++ t2). split; [exact Hrun|].
      apply (ends_later docs docs' output rest prompt
               match current_doc' with
               | None => ShownPathPrompt
               | Some _ => ShownQuestionPrompt
               end t1 t2 line inputs r);
        try assumption.
      - constructor; assumption.
      - change (prompt :: rest) with ([prompt] ++ rest).
        unfold answers in *. rewrite omap_app, Hplain. exact Hcount. }
    clearbody prompt.
    destruct current_doc as [[id pv]|].
    + destruct (quits (strip line)) eqn:Hq; [apply Hquit; reflexivity|].
      destruct (String.eqb (lower (strip line)) "new").
      { rewrite <- (app_nil_r (output ++ [prompt])), <- app_assoc.
        apply (Hnext None docs [] [] w);
          [exact Hw|reflexivity|exact I|tauto|constructor|reflexivity]. }
      destruct (String.eqb (strip line) "").
      { rewrite <- (app_nil_r (output ++ [prompt])), <- app_assoc.
        apply (Hnext (Some (id, pv)) docs [] [] w);
          [exact Hw|reflexivity|exact Hknown|tauto|constructor|reflexivity]. }
      cbn [known] in Hknown.
      destruct (dict_lookup docs id) as [document|] eqn:Hdoc; [|congruence].
      destruct (console ShownQuestion) as [[]|e] eqn:Hquestion;
        [rewrite (show_ok _ Hquestion)
        |rewrite (show_raise _ _ Hquestion);
         apply (Hfails w w ShownQuestion e _ _ _ prompt []);
         [exact Hw|exact Hquestion]].
      destruct (console ShownThinking) as [[]|e] eqn:Hthinking;
        [rewrite (show_ok _ Hthinking)
        |rewrite (show_raise _ _ Hthinking);
         apply (Hfails w w ShownThinking e _ _ _ prompt []);
         [exact Hw|exact Hthinking]].
      unfold mbind at 1.
      destruct (process_with_skills_runs json_dumps ollama_generate py_repr yaml_repr
                  slice_of_dict json_dumps_total self (strip line)
                  (Some [ ("user_query", PStr (strip line));
                          ("document_text", PStr (doc_content document));
                          ("document_id", PStr id) ]) w)
        as (answer & first & t1 & Hanswer & _ & Hsystem & _ & _ & _ & Hnone & _).
      { intros v Hv. cbn in Hv. injection Hv as <-. eexists. reflexivity. }
      destruct (Agent.process_with_skills _ _ _ _ _ _ _ _ _) as [r0 w1] eqn:Hp.
      injection Hanswer as -> ->. clear Hp.
      destruct (console (ShownAnswer answer)) as [[]|e] eqn:Hshow;
        [rewrite (show_ok _ Hshow)
        |rewrite (show_raise _ _ Hshow);
         apply (Hfails w _ (ShownAnswer answer) e _ _ _ prompt (Generated first :: t1));
         [reflexivity|exact Hshow]].
      rewrite <- !app_assoc. cbn [app].
      apply (Hnext (Some (id, pv)) docs
               [ShownQuestion; ShownThinking; ShownAnswer answer]
               (Generated first :: t1));
        [reflexivity|reflexivity|cbn [known]; congruence|tauto
        |repeat constructor; assumption|].
      change (Generated first :: t1) with ([Generated first] ++ t1).
      rewrite opening_calls_app, Hnone.
      unfold opening_calls at 1.
      change (generate_calls [Generated first]) with [first].
      cbn [List.filter]. rewrite Hsystem. reflexivity.
    + destruct (quits (strip line)) eqn:Hq; [apply Hquit; reflexivity|].
      pose proof (process_document_keeps docs (strip line) (files (strip line)))
        as Hkeeps.
      pose proof (process_document_known docs (strip line) (files (strip line)))
        as Hloaded.
      unfold mbind at 1.
      destruct (process_document_shown_runs docs (strip line) (output ++ [prompt]) w)
        as [(e & x & Hx & ->)|(more & -> & Hnone & Hok)];
        [apply (Hfails w w x e _ _ _ prompt []); [exact Hw|exact Hx]|].
      destruct (Agent.process_document stem docs (strip line) (files (strip line)))
        as [[error|document_id preview] docs'].
      * destruct (console (ShownError error)) as [[]|e] eqn:Herror;
          [rewrite (show_ok _ Herror)
          |rewrite (show_raise _ _ Herror);
           apply (Hfails w w (ShownError error) e _ _ _ prompt []);
           [exact Hw|exact Herror]].
        rewrite <- !app_assoc. cbn [app].
        apply (Hnext None docs' (more ++ [ShownError error]) [] w);
          [exact Hw|reflexivity|exact I|exact Hkeeps| |].
        -- apply Forall_app. split; [exact Hok|repeat constructor; exact Herror].
        -- unfold answers in *. rewrite !omap_app, Hnone. reflexivity.
      * destruct (console ShownReady) as [[]|e] eqn:Hready;
          [rewrite (show_ok _ Hready)
          |rewrite (show_raise _ _ Hready);
           apply (Hfails w w ShownReady e _ _ _ prompt []);
           [exact Hw|exact Hready]].
        rewrite <- !app_assoc. cbn [app].
        apply (Hnext (Some (document_id, preview)) docs' (more ++ [ShownReady]) [] w);
          [exact Hw|reflexivity| |exact Hkeeps| |].
        -- cbn [known]. apply (Hloaded document_id preview). reflexivity.
        -- apply Forall_app. split; [exact Hok|repeat constructor; exact Hready].
        -- unfold answers in *. rewrite !omap_app, Hnone. reflexivity.
Qed.

(** The whole session, from its opening panel. *)
Lemma interactive_session_runs (self : DocumentQAAgent) (inputs : list string)
    (docs : dict string Document) (w : World) :
  exists (r : result (dict string Document * list shown)) (t : list event),
    interactive_session self inputs docs w
    = (r, {| heap := heap w; trace := trace w ++ t |})
    /\ match r with
       | Ok (docs', output) =>
           Exists (fun line => ~ stays line) inputs
           /\ (forall id : string,
                 dict_lookup docs id <> None -> dict_lookup docs' id <> None)
           /\ length (answers output) = length (opening_calls t)
           /\ Forall (fun x => console x = Ok tt) output
           /\ exists more : list shown,
                output = ShownWelcome :: ShownPathPrompt :: more
       | Raise e =>
           (e = EOFError /\ Forall stays inputs)
           \/ exists x : shown, console x = Raise e
       end.
Proof.
  unfold Agent.interactive_session.
  destruct (console ShownWelcome) as [[]|e] eqn:Hwelcome.
  2:{ rewrite (show_raise _ _ Hwelcome). exists (Raise e), [].
      rewrite app_nil_r. destruct w. split; [reflexivity|].
      right. exists ShownWelcome. exact Hwelcome. }
  rewrite (show_ok _ Hwelcome). cbn [app].
  destruct (session_loop_runs self inputs None docs [ShownWelcome] w I)
    as (r & t & Hrun & Hr).
  exists r, t. split; [exact Hrun|].
  destruct r as [[docs' output]|e]; [|exact Hr].
  destruct Hr as (Hex & Hgrow & more & -> & Hcount & Hok).
  split; [exact Hex|]. split; [exact Hgrow|].
  split; [exact Hcount|]. split; [constructor; assumption|].
  exists more. reflexivity.
Qed.

(** X28: at a line that is [quit] or [exit], in any case and with
    any space around it, whichever prompt it answers, the session ends:
    what follows that line is not read, and the session returns, unless
    the console raised on something it was given, and then the session
    raises the same exception. When it returns, everything it has shown
    was taken by the console, beginning with the opening panel and the
    prompt for a path; the documents processed before are still there; and
    it has shown as many answers as it has opened calls of
    [process_with_skills]. With a console that takes everything it
    returns. *)
Theorem interactive_session_ends_at_quit (self : DocumentQAAgent)
    (before : list string) (q : string) (after : list string)
    (docs : dict string Document) (w : World) :
  quits (strip q) = true ->
  interactive_session self (before ++ q :: after) docs w
  = interactive_session self (before ++ [q]) docs w
  /\ exists (r : result (dict string Document * list shown)) (t : list event),
       interactive_session self (before ++ q :: after) docs w
       = (r, {| heap := heap w; trace := trace w ++ t |})
       /\ match r with
          | Ok (docs', output) =>
              (forall id : string,
                 dict_lookup docs id <> None -> dict_lookup docs' id <> None)
              /\ length (answers output) = length (opening_calls t)
              /\ Forall (fun x => console x = Ok tt) output
              /\ exists more : list shown,
                   output = ShownWelcome :: ShownPathPrompt :: more
          | Raise e => exists x : shown, console x = Raise e
          end
       /\ ((forall x : shown, console x = Ok tt) ->
           exists (docs' : dict string Document) (output : list shown),
             r = Ok (docs', output)).
Proof.
  intros Hq. split.
  - unfold Agent.interactive_session. apply mbind_ext. intros output w'.
    apply session_ignores_rest. exact Hq.
  - destruct (interactive_session_runs self (before ++ q :: after) docs w)
      as (r & t & Hrun & Hr).
    exists r, t. split; [exact Hrun|].
    assert (Hends : ~ Forall stays (before ++ q :: after)).
    { intros Hall. apply Forall_app in Hall as [_ Hall].
      apply List.Forall_cons_iff in Hall as [Hstay _].
      unfold stays in Hstay. congruence. }
    destruct r as [[docs' output]|e].
    + split; [tauto|]. intros _. exists docs', output. reflexivity.
    + destruct Hr as [[_ Hall]|Hx]; [tauto|]. split; [exact Hx|].
      intros Hall. destruct Hx as (x & Hx). rewrite Hall in Hx. discriminate.
Qed.

(** X29: when no line is [quit] or [exit], the session does not
    return: it raises what the console raised on something it was given,
    or, having read every line, EOFError at the prompt after the last.
    With a console that takes everything it is EOFError. *)
Theorem interactive_session_without_quit (self : DocumentQAAgent)
    (inputs : list string) (docs : dict string Document) (w : World) :
  Forall (fun line => quits (strip line) = false) inputs ->
  exists (e : exn) (t : list event),
    interactive_session self inputs docs w
    = (Raise e, {| heap := heap w; trace := trace w ++ t |})
    /\ (e = EOFError \/ exists x : shown, console x = Raise e)
    /\ ((forall x : shown, console x = Ok tt) -> e = EOFError).
Proof.
  intros Hinputs.
  destruct (interactive_session_runs self inputs docs w) as (r & t & Hrun & Hr).
  destruct r as [[docs' output]|e].
  - destruct Hr as (Hex & _). exfalso.
    apply List.Exists_exists in Hex as (line & Hin & Hquit).
    apply Hquit. exact (proj1 (List.Forall_forall _ _) Hinputs line Hin).
  - exists e, t. split; [exact Hrun|].
    destruct Hr as [[-> _]|(x & Hx)].
    + split; [left; reflexivity|reflexivity].
    + split; [right; exists x; exact Hx|].
      intros Hall. rewrite Hall in Hx. discriminate.
Qed.

End Sessions.

(** ** The system prompt *)

Lemma fold_append_keeps {A : Type} (entry : A -> string) (items : list A) :
  forall (acc sub : string),
    contains acc sub = true ->
    contains (fold_left (fun a i => a +:+ entry i) items acc) sub = true.
Proof.
  induction items as [|i items IH]; intros acc sub Hacc; simpl; [exact Hacc|].
  apply IH, contains_append, Hacc.
Qed.

Lemma fold_append_contains {A : Type} (entry : A -> string) (items : list A)
    (item : A) (sub : string) :
  In item items ->
  contains (entry item) sub = true ->
  forall acc : string,
    contains (fold_left (fun a i => a +:+ entry i) items acc) sub = true.
Proof.
  intros Hin Hsub. induction items as [|i items IH]; intros acc; [destruct Hin|].
  simpl. destruct Hin as [->|Hin]; [|apply IH; exact Hin].
  apply fold_append_keeps, contains_skip, Hsub.
Qed.

Section Prompt.

Variable yaml_repr : yaml -> string.

(** X30: the system prompt names every skill of the registry: it
    contains the name, the description and the path of each, as they are
    formatted, with nothing escaped. *)
Theorem system_prompt_lists_skills (self : DocumentQAAgent) (key : hashable)
    (skill_data : SkillData) :
  In (key, skill_data) (skills (skill_manager self)) ->
  contains (get_system_prompt yaml_repr self)
           (format_yaml yaml_repr (name (sd_metadata skill_data))) = true
  /\ contains (get_system_prompt yaml_repr self)
              (format_yaml yaml_repr (description (sd_metadata skill_data))) = true
  /\ contains (get_system_prompt yaml_repr self)
              (path (sd_metadata skill_data)) = true.
Proof.
  intros Hin.
  assert (Hxml : forall sub : string,
             contains
               ("  <skill>" +:+ nl
                +:+ "    <name>" +:+ format_yaml yaml_repr (name (sd_metadata skill_data))
                +:+ "</name>" +:+ nl
                +:+ "    <description>"
                +:+ format_yaml yaml_repr (description (sd_metadata skill_data))
                +:+ "</description>" +:+ nl
                +:+ "    <path>" +:+ path (sd_metadata skill_data) +:+ "</path>" +:+ nl
                +:+ "  </skill>" +:+ nl) sub = true ->
             contains (get_system_prompt yaml_repr self) sub = true).
  { intros sub Hsub. unfold get_system_prompt.
    do 5 apply contains_skip. apply contains_append.
    unfold get_available_skills_xml. apply contains_append.
    apply (fold_append_contains
             (fun item : hashable * SkillData =>
                "  <skill>" +:+ nl
                +:+ "    <name>" +:+ format_yaml yaml_repr (name (sd_metadata (snd item)))
                +:+ "</name>" +:+ nl
                +:+ "    <description>"
                +:+ format_yaml yaml_repr (description (sd_metadata (snd item)))
                +:+ "</description>" +:+ nl
                +:+ "    <path>" +:+ path (sd_metadata (snd item)) +:+ "</path>" +:+ nl
                +:+ "  </skill>" +:+ nl)
             _ (key, skill_data) sub Hin Hsub). }
  split; [|split]; apply Hxml.
  - do 3 apply contains_skip. apply contains_here.
  - do 7 apply contains_skip. apply contains_here.
  - do 11 apply contains_skip. apply contains_here.
Qed.

End Prompt.

(** ** The theorems above at concrete inputs *)

Lemma json_braces_total : forall v : pyval, exists s : string, json_braces v = Ok s.
Proof. intros v. exists "{}". reflexivity. Qed.

Lemma execute_skill_chain_outcome_witness :
  (forall v : pyval, exists s : string, json_braces v = Ok s)
  /\ exists (requests : list string) (answer : string) (t : list event),
       skill_requests "[USE_SKILL:extract]" = Ok requests
       /\ execute_skill_chain json_braces answers_done no_repr two_skills
            "[USE_SKILL:extract]" None nothing_yet
          = (Ok answer, {| heap := heap nothing_yet; trace := trace nothing_yet ++ t |})
       /\ activations t = requests.
Proof.
  split; [exact json_braces_total|].
  destruct (execute_skill_chain_outcome json_braces answers_done no_repr
              json_braces_total two_skills "[USE_SKILL:extract]" None nothing_yet)
    as (requests & answer & t & Hreq & Hrun & Hact & _).
  exists requests, answer, t. tauto.
Defined.


Lemma process_with_skills_bad_document_witness :
  document_text (Some [("document_text", PInt 3)]) = Some (PInt 3)
  /\ (forall s, PInt 3 <> PStr s)
  /\ (forall items, PInt 3 <> PList items)
  /\ exists e : exn,
       process_with_skills json_braces answers_done no_repr no_repr unhashable_slice
         two_skills "why?" (Some [("document_text", PInt 3)]) nothing_yet
       = (Raise e, nothing_yet)
       /\ e = TypeError "'int' object is not subscriptable".
Proof.
  split; [reflexivity|]. split; [discriminate|]. split; [discriminate|].
  apply (process_with_skills_bad_document json_braces answers_done no_repr no_repr
           unhashable_slice two_skills "why?" (Some [("document_text", PInt 3)])
           nothing_yet (PInt 3));
    [reflexivity|discriminate|discriminate].
Defined.

(** A dict as the document text, up to Python 3.11. *)
Example process_with_skills_dict_document :
  process_with_skills json_braces answers_done no_repr no_repr unhashable_slice
    two_skills "why?" (Some [("document_text", PDict [])]) nothing_yet
  = (Raise (TypeError "unhashable type: 'slice'"), nothing_yet).
Proof. reflexivity. Qed.

(** A path that reads neither as text nor as a PDF: the error reported is
    that of the PDF attempt, and nothing is stored. *)
Example process_document_missing :
  process_document whole_path [] "missing" no_file
  = (Failed "Cannot read document: PdfReadError", []).
Proof. reflexivity. Qed.

Lemma process_document_stores_witness :
  fst (process_document whole_path [] "notes" (text_file "hello"))
  = Loaded "doc_notes" "hello"
  /\ exists content : string,
       read_document (text_file "hello") = Ok content
       /\ dict_lookup (snd (process_document whole_path [] "notes" (text_file "hello")))
                      "doc_notes"
          = Some {| doc_id := "doc_notes";
                    doc_path := "notes";
                    doc_content := content;
                    doc_length := String.length content |}.
Proof.
  split; [reflexivity|].
  destruct (process_document_stores whole_path [] "notes" (text_file "hello")
              "doc_notes" "hello" eq_refl)
    as (content & Hread & _ & Hstored & _).
  exists content. split; [exact Hread|exact Hstored].
Defined.


Lemma interactive_session_ends_at_quit_witness :
  (forall v : pyval, exists s : string, json_braces v = Ok s)
  /\ quits (strip " QUIT ") = true
  /\ interactive_session json_braces answers_done no_repr no_repr unhashable_slice
       whole_path whole_path text_file shows_all two_skills
       (["notes"; "why?"] ++ " QUIT " :: ["never read"]) [] nothing_yet
     = interactive_session json_braces answers_done no_repr no_repr unhashable_slice
         whole_path whole_path text_file shows_all two_skills
         (["notes"; "why?"] ++ [" QUIT "]) [] nothing_yet
  /\ exists (docs' : dict string Document) (output : list shown) (t : list event),
       interactive_session json_braces answers_done no_repr no_repr unhashable_slice
         whole_path whole_path text_file shows_all two_skills
         (["notes"; "why?"] ++ " QUIT " :: ["never read"]) [] nothing_yet
       = (Ok (docs', output),
          {| heap := heap nothing_yet; trace := trace nothing_yet ++ t |})
       /\ length (answers output) = length (opening_calls t).
Proof.
  split; [exact json_braces_total|]. split; [reflexivity|].
  destruct (interactive_session_ends_at_quit json_braces answers_done no_repr no_repr
              unhashable_slice whole_path whole_path text_file shows_all
              json_braces_total two_skills ["notes"; "why?"]
              " QUIT " ["never read"] [] nothing_yet eq_refl)
    as (Hsame & r & t & Hrun & Hr & Hreturns).
  split; [exact Hsame|].
  destruct (Hreturns (fun x => eq_refl)) as (docs' & output & ->).
  exists docs', output, t. split; [exact Hrun|exact (proj1 (proj2 Hr))].
Defined.

Lemma interactive_session_without_quit_witness :
  (forall v : pyval, exists s : string, json_braces v = Ok s)
  /\ Forall (fun line => quits (strip line) = false) ["notes"; "why?"]
  /\ exists (e : exn) (t : list event),
       interactive_session json_braces answers_done no_repr no_repr unhashable_slice
         whole_path whole_path text_file shows_all two_skills ["notes"; "why?"] []
         nothing_yet
       = (Raise e, {| heap := heap nothing_yet; trace := trace nothing_yet ++ t |})
       /\ e = EOFError.
Proof.
  assert (Hstay : Forall (fun line => quits (strip line) = false) ["notes"; "why?"])
    by (repeat constructor).
  split; [exact json_braces_total|]. split; [exact Hstay|].
  destruct (interactive_session_without_quit json_braces answers_done no_repr no_repr
              unhashable_slice whole_path whole_path text_file shows_all
              json_braces_total two_skills ["notes"; "why?"] [] nothing_yet Hstay)
    as (e & t & Hrun & _ & Heof).
  exists e, t. split; [exact Hrun|exact (Heof (fun x => eq_refl))].
Defined.

(** A session: the document is read, one question is answered, the session
    ends at [quit]. *)
Example interactive_session_once :
  fst (interactive_session json_braces answers_done no_repr no_repr unhashable_slice
         whole_path whole_path text_file shows_all two_skills
         ["notes"; ""; " why? "; "quit"; "never read"] [] nothing_yet)
  = Ok ([ ("doc_notes", mkDocument "doc_notes" "notes" "notes" 5) ],
        [ ShownWelcome;
          ShownPathPrompt; ShownProcessing "notes"; ShownLoaded 5; ShownReady;
          ShownQuestionPrompt;
          ShownQuestionPrompt; ShownQuestion; ShownThinking; ShownAnswer "done";
          ShownQuestionPrompt ]).
Proof. vm_compute. reflexivity. Qed.

(** A session that dies on the error text of a path: the text holds the
    path, whose closing tag nothing opened, and [quit] is never read. *)
Example interactive_session_markup :
  fst (interactive_session json_braces answers_done no_repr no_repr unhashable_slice
         whole_path (fun _ => "x]") missing_file parses_markup two_skills
         ["[/x]"; "quit"] [] nothing_yet)
  = Raise MarkupError.
Proof. vm_compute. reflexivity. Qed.

Lemma system_prompt_lists_skills_witness :
  In (HStr "extract", loaded "a" "extract" "first" "One")
     (skills (skill_manager two_skills))
  /\ contains (get_system_prompt no_repr two_skills) "extract" = true.
Proof.
  split; [left; reflexivity|].
  exact (proj1 (system_prompt_lists_skills no_repr two_skills (HStr "extract")
                  (loaded "a" "extract" "first" "One") (or_introl eq_refl))).
Defined.

End AgentFacts.

(* ===================================================================== *)
(** * Properties of semantic_search.py *)
(* ===================================================================== *)

Module SearchFacts.
Import Py PyFacts Search.

Lemma Qltb_lt (x y : Q) : Qltb x y = true <-> (x < y)%Q.
Proof.
  unfold Qltb. rewrite negb_true_iff. split.
  - intros H. apply Qnot_le_lt. intros Hle.
    apply Qle_bool_iff in Hle. congruence.
  - intros H. destruct (Qle_bool y x) eqn:Hle; [|reflexivity].
    apply Qle_bool_iff in Hle. exfalso. exact (Qlt_not_le _ _ H Hle).
Qed.

Lemma Qltb_ge (x y : Q) : Qltb x y = false <-> (y <= x)%Q.
Proof.
  unfold Qltb. rewrite negb_false_iff. apply Qle_bool_iff.
Qed.

Lemma sorted_map {A B : Type} (f : A -> B) (R : B -> B -> Prop) (l : list A) :
  StronglySorted (fun a b => R (f a) (f b)) l -> StronglySorted R (map f l).
Proof.
  induction 1 as [|x l Hs IH Hall]; simpl; constructor.
  - exact IH.
  - apply List.Forall_forall. intros y Hy.
    apply in_map_iff in Hy as (z & <- & Hz).
    exact (proj1 (List.Forall_forall _ _) Hall z Hz).
Qed.

(** ** argsort *)

Lemma argsort_perm (a : list Q) : Permutation (argsort a) (seq 0 (length a)).
Proof. apply stable_sort_perm. Qed.

Lemma argsort_bound (a : list Q) (i : nat) : In i (argsort a) -> (i < length a)%nat.
Proof.
  intros Hi. apply (Permutation_in _ (argsort_perm a)) in Hi.
  apply in_seq in Hi. lia.
Qed.

Lemma argsort_in (a : list Q) (i : nat) : In i (argsort a) <-> (i < length a)%nat.
Proof.
  split; [apply argsort_bound|].
  intros Hi. apply (Permutation_in _ (Permutation_sym (argsort_perm a))).
  apply in_seq. lia.
Qed.

Lemma argsort_length (a : list Q) : length (argsort a) = length a.
Proof. rewrite (Permutation_length (argsort_perm a)). apply length_seq. Qed.

Lemma argsort_ascending (a : list Q) :
  StronglySorted (fun i j => (nth i a 0 <= nth j a 0)%Q) (argsort a).
Proof.
  unfold argsort.
  eapply sorted_weaken; [|apply stable_sort_sorted].
  - intros i j _ _ H. apply Qltb_ge in H. exact H.
  - intros i j H. apply Qltb_lt in H. apply Qltb_ge. apply Qlt_le_weak. exact H.
  - unfold may_precede. intros i j k Hij Hjk.
    apply Qltb_ge in Hij, Hjk. apply Qltb_ge. eapply Qle_trans; eassumption.
Qed.

Lemma rev_argsort_descending (a : list Q) :
  StronglySorted (fun i j => (nth j a 0 <= nth i a 0)%Q) (rev (argsort a)).
Proof. apply (sorted_rev _ _ (argsort_ascending a)). Qed.

(** ** search *)

Section WithModel.

Variable encode : string -> list Q.

Local Abbreviation search := (search encode).
Local Abbreviation index_documents := (index_documents encode).
Local Abbreviation similarities := (similarities encode).

Lemma similarities_length (docs : list string) (query : string) :
  length (similarities docs query) = length docs.
Proof. unfold Search.similarities. rewrite !length_map. reflexivity. Qed.

Lemma collect_results_ok (docs : list string) (sims : list Q) (threshold : Q) :
  length docs = length sims ->
  forall idxs : list nat,
    Forall (fun i => (i < length sims)%nat) idxs ->
    collect_results docs sims threshold idxs
    = Ok (map (result_at docs sims)
              (List.filter (fun i => Qle_bool threshold (nth i sims 0%Q)) idxs)).
Proof.
  intros Hlen. induction 1 as [|i idxs Hi Hall IH]; simpl.
  - reflexivity.
  - unfold item.
    destruct (nth_error sims i) as [s|] eqn:Hs;
      [|apply nth_error_None in Hs; lia].
    rewrite (nth_error_nth _ _ 0%Q Hs). simpl.
    destruct (Qle_bool threshold s).
    + destruct (nth_error docs i) as [doc|] eqn:Hd;
        [|apply nth_error_None in Hd; lia].
      simpl. rewrite IH. simpl. unfold result_at.
      rewrite (nth_error_nth _ _ "" Hd), (nth_error_nth _ _ 0%Q Hs). reflexivity.
    + exact IH.
Qed.

(** What [search] returns once [docs] are indexed. *)
Lemma search_indexed (self : SemanticSearch) (docs : list string) (query : string)
    (top_k : Z) (threshold : Q) :
  search (index_documents self docs) query top_k threshold
  = Ok (map (result_at docs (similarities docs query))
            (List.filter
               (fun i => Qle_bool threshold (nth i (similarities docs query) 0%Q))
               (take (rev (argsort (similarities docs query))) top_k))).
Proof.
  unfold Search.search, Search.index_documents. simpl.
  fold (similarities docs query).
  apply collect_results_ok.
  - symmetry. apply similarities_length.
  - apply List.Forall_forall. intros i Hi.
    apply take_incl, in_rev in Hi. apply argsort_bound. exact Hi.
Qed.

(** C3 (amended): [search] raises on a fresh object, before
    [index_documents]; once documents are indexed it returns, for every
    query, every threshold and every top_k >= 0, at most top_k results, each
    with a score of at least the threshold, in descending order of score. *)
Theorem search_raises_then_ranks (self : SemanticSearch) (docs : list string)
    (query : string) (top_k : Z) (threshold : Q) :
  search new query top_k threshold
  = Raise (ValueError "No documents indexed. Call index_documents first.")
  /\ (0 <= top_k ->
      exists results : list SearchResult,
        search (index_documents self docs) query top_k threshold = Ok results
        /\ Z.of_nat (length results) <= top_k
        /\ Forall (fun r => (threshold <= score r)%Q) results
        /\ StronglySorted (fun r1 r2 => (score r2 <= score r1)%Q) results).
Proof.
  split; [reflexivity|]. intros Hk.
  eexists. split; [apply search_indexed|].
  set (sims := similarities docs query).
  split; [|split].
  - rewrite length_map.
    etransitivity; [|apply (take_length_le (rev (argsort sims)) top_k Hk)].
    apply Nat2Z.inj_le, List.filter_length_le.
  - apply List.Forall_forall. intros r Hr.
    apply in_map_iff in Hr as (i & <- & Hi).
    apply List.filter_In in Hi as [_ Hi]. apply Qle_bool_iff in Hi. exact Hi.
  - apply sorted_map. simpl. apply sorted_filter.
    rewrite take_firstn. apply sorted_firstn.
    apply rev_argsort_descending.
Qed.

End WithModel.

(** ** hybrid_search *)

Lemma bool_eq_iff (b1 b2 : bool) : (b1 = true <-> b2 = true) -> b1 = b2.
Proof. destruct b1, b2; intuition congruence. Qed.

Lemma Qltb_compat (x x' y y' : Q) :
  (x == x')%Q -> (y == y')%Q -> Qltb x y = Qltb x' y'.
Proof. intros Hx Hy. unfold Qltb. rewrite Hx, Hy. reflexivity. Qed.

Lemma Qltb_div (x y m : Q) : (0 < m)%Q -> Qltb (x / m) (y / m) = Qltb x y.
Proof.
  intros Hm. apply bool_eq_iff. rewrite !Qltb_lt. unfold Qdiv.
  apply Qmult_lt_r. apply Qinv_lt_0_compat. exact Hm.
Qed.

Lemma max_from_spec (l : list Q) :
  forall m0 : Q,
    In (max_from m0 l) (m0 :: l)
    /\ (m0 <= max_from m0 l)%Q
    /\ Forall (fun x => (x <= max_from m0 l)%Q) l.
Proof.
  induction l as [|x l IH]; intros m0; simpl.
  - split; [left; reflexivity|]. split; [apply Qle_refl|constructor].
  - destruct (Qltb m0 x) eqn:Hlt.
    + destruct (IH x) as (Hin & Hle & Hall). apply Qltb_lt in Hlt.
      split; [right; exact Hin|].
      split; [eapply Qle_trans; [apply Qlt_le_weak; exact Hlt|exact Hle]|].
      constructor; assumption.
    + destruct (IH m0) as (Hin & Hle & Hall). apply Qltb_ge in Hlt.
      split; [destruct Hin as [Hin|Hin]; [left; exact Hin|right; right; exact Hin]|].
      split; [exact Hle|].
      constructor; [eapply Qle_trans; eassumption|exact Hall].
Qed.

Lemma max_or_one_spec (d : dict nat Q) :
  exists m : Q,
    Search.max_or_one d = Ok m
    /\ ((d = [] /\ m = 1%Q)
        \/ (In m (values d) /\ Forall (fun x => (x <= m)%Q) (values d))).
Proof.
  destruct d as [|[k v] d].
  - exists 1%Q. split; [reflexivity|left; split; reflexivity].
  - exists (max_from v (values d)). split; [reflexivity|]. right.
    destruct (max_from_spec (values d) v) as (Hin & Hle & Hall).
    split; [exact Hin|]. constructor; assumption.
Qed.

Lemma collect_hybrid_ok (docs : list string) (semantic_scores keyword_scores : dict nat Q) :
  forall items : list (nat * Q),
    Forall (fun isc => (fst isc < length docs)%nat) items ->
    collect_hybrid docs semantic_scores keyword_scores items
    = Ok (map (hybrid_at docs semantic_scores keyword_scores)
              (List.filter (fun isc => Qltb 0 (snd isc)) items)).
Proof.
  induction 1 as [|[i sc] items Hi Hall IH]; simpl.
  - reflexivity.
  - destruct (Qltb 0 sc); [|exact IH].
    unfold item. simpl in Hi.
    destruct (nth_error docs i) as [doc|] eqn:Hd;
      [|apply nth_error_None in Hd; lia].
    simpl. rewrite IH. simpl. unfold hybrid_at. simpl.
    rewrite (nth_error_nth _ _ "" Hd). reflexivity.
Qed.

Section Hybrid.

Variable encode : string -> list Q.
Variable docs : list string.
Variable query : string.

Local Abbreviation sim := (sim encode docs query).
Local Abbreviation overlap_ratio := (overlap_ratio docs query).
Local Abbreviation reported := (reported encode docs query).
Local Abbreviation semantic_dict := (semantic_dict encode docs query).
Local Abbreviation keyword_dict := (keyword_dict docs query).
Local Abbreviation blended := (blended encode docs query).
Local Abbreviation distinct_scores := (distinct_scores encode docs query).
Local Abbreviation by_blend := (by_blend encode docs query).

Lemma rev_argsort_nodup : List.NoDup (rev (argsort (similarities encode docs query))).
Proof.
  apply (Permutation_NoDup (l := seq 0 (length (similarities encode docs query)))).
  - etransitivity; [symmetry; apply argsort_perm|apply Permutation_rev].
  - apply seq_NoDup.
Qed.

Lemma reported_nodup : List.NoDup reported.
Proof. apply List.NoDup_filter, rev_argsort_nodup. Qed.

Lemma in_reported (i : nat) :
  In i reported
  <-> (i < length docs)%nat /\ Qle_bool default_threshold (sim i) = true.
Proof.
  unfold Search.reported. rewrite List.filter_In, <- in_rev.
  rewrite argsort_in, similarities_length. tauto.
Qed.

Lemma filter_map_comm {A B : Type} (g : A -> B) (p : B -> bool) (l : list A) :
  List.filter p (map g l) = map g (List.filter (fun a => p (g a)) l).
Proof.
  induction l as [|a l IH]; simpl; [reflexivity|].
  destruct (p (g a)); simpl; rewrite IH; reflexivity.
Qed.

Lemma seq_keys_nodup {V : Type} (f : nat -> V) (l : list nat) :
  List.NoDup l -> List.NoDup (keys (map (fun i => (i, f i)) l)).
Proof.
  intros Hl. unfold keys. rewrite map_map. simpl. rewrite map_id. exact Hl.
Qed.

(** What [hybrid_search] computes when it is given the indexed documents:
    the two maxima exist, and the ranking is the leading part of the
    indices sorted by blended score, zero scores left out. *)
Lemma hybrid_search_indexed (self : SemanticSearch) (top_k : Z) (alpha : Q) :
  exists (max_semantic max_keyword : Q) (results : list HybridResult),
    Search.max_or_one semantic_dict = Ok max_semantic
    /\ Search.max_or_one keyword_dict = Ok max_keyword
    /\ hybrid_search encode (index_documents encode self docs) query docs top_k alpha
       = Ok results
    /\ hybrid_ranking results
       = List.filter (fun i => Qltb 0 (blended alpha max_semantic max_keyword i))
           (take (stable_sort
                    (fun a b => Qltb (blended alpha max_semantic max_keyword b)
                                     (blended alpha max_semantic max_keyword a))
                    (seq 0 (length docs)))
                 top_k).
Proof.
  destruct (max_or_one_spec semantic_dict) as (ms & Hms & _).
  destruct (max_or_one_spec keyword_dict) as (mk & Hmk & _).
  exists ms, mk. eexists. split; [exact Hms|]. split; [exact Hmk|].
  unfold Search.hybrid_search. rewrite search_indexed. cbn [bind].
  assert (Hall : take (rev (argsort (similarities encode docs query)))
                      (Z.of_nat (length docs))
                 = rev (argsort (similarities encode docs query))).
  { replace (length docs)
      with (length (rev (argsort (similarities encode docs query))))
      by (rewrite length_rev, argsort_length; apply similarities_length).
    apply take_all. }
  rewrite Hall, map_map. cbn [index score result_at].
  set (sd := dict_of_items (map _ (List.filter _ (rev _)))).
  assert (Hsd : sd = semantic_dict)
    by exact (dict_of_items_distinct semantic_dict
                (seq_keys_nodup _ _ reported_nodup)).
  clearbody sd. subst sd.
  set (kd := dict_of_items (map _ (enumerate docs))).
  assert (Hkd : kd = keyword_dict).
  { subst kd. rewrite (enumerate_nth ""), map_map. cbn [fst snd].
    exact (dict_of_items_distinct keyword_dict
             (seq_keys_nodup _ _ (seq_NoDup _ _))). }
  clearbody kd. subst kd.
  rewrite Hms, Hmk. cbn [bind].
  set (cd := dict_of_items (map _ (seq 0 (length docs)))).
  assert (Hcd : cd = map (fun i => (i, blended alpha ms mk i)) (seq 0 (length docs)))
    by exact (dict_of_items_distinct _ (seq_keys_nodup _ _ (seq_NoDup _ _))).
  clearbody cd. subst cd.
  unfold sorted_reverse. rewrite stable_sort_map, take_map. cbn [snd].
  rewrite collect_hybrid_ok.
  - split; [reflexivity|].
    unfold hybrid_ranking. rewrite map_map. cbn [h_index hybrid_at].
    rewrite filter_map_comm, map_map. cbn [fst snd]. rewrite map_id. reflexivity.
  - apply List.Forall_forall. intros [i sc] Hi. cbn [fst].
    apply in_map_iff in Hi as (j & Hj & Hin). injection Hj as <- _.
    apply take_incl, stable_sort_in, in_seq in Hin. lia.
Qed.

Lemma keyword_dict_get (i : nat) :
  (i < length docs)%nat -> dict_get keyword_dict i 0%Q = overlap_ratio i.
Proof.
  intros Hi. unfold Search.keyword_dict.
  apply (dict_get_in overlap_ratio). apply in_seq. lia.
Qed.

Lemma semantic_dict_get_reported (i : nat) :
  In i reported -> dict_get semantic_dict i 0%Q = sim i.
Proof. apply (dict_get_in sim). Qed.

Lemma semantic_dict_get_other (i : nat) :
  ~ In i reported -> dict_get semantic_dict i 0%Q = 0%Q.
Proof. apply (dict_get_not_in sim). Qed.

Lemma overlap_ratio_nonneg (i : nat) : (0 <= overlap_ratio i)%Q.
Proof.
  unfold Search.overlap_ratio, keyword_ratio.
  destruct (decide (terms query = ∅)); [apply Qle_refl|].
  unfold Qdiv. apply Qmult_le_0_compat.
  - change 0%Q with (inject_Z 0). rewrite <- Zle_Qle. lia.
  - apply Qinv_le_0_compat.
    change 0%Q with (inject_Z 0). rewrite <- Zle_Qle. lia.
Qed.

(** *** alpha = 0 *)

Section LexicalOnly.

Variable max_semantic max_keyword : Q.
Hypothesis max_keyword_is : Search.max_or_one keyword_dict = Ok max_keyword.

Lemma blended_zero (i : nat) :
  (i < length docs)%nat ->
  (blended 0 max_semantic max_keyword i
   == if Qltb 0 max_keyword then overlap_ratio i / max_keyword else 0)%Q.
Proof.
  intros Hi. unfold Search.blended, normalized at 2.
  rewrite (keyword_dict_get i Hi).
  destruct (Qltb 0 max_keyword); ring.
Qed.

Lemma overlap_ratio_le_max (i : nat) :
  (i < length docs)%nat -> (overlap_ratio i <= max_keyword)%Q.
Proof.
  intros Hi.
  destruct (max_or_one_spec keyword_dict) as (m & Hm & Hspec).
  rewrite max_keyword_is in Hm. injection Hm as <-.
  assert (Hin : In (overlap_ratio i) (values keyword_dict)).
  { unfold values, Search.keyword_dict. rewrite map_map. cbn [snd].
    apply in_map. apply in_seq. lia. }
  destruct Hspec as [[Hnil _]|[_ Hall]].
  - rewrite Hnil in Hin. destruct Hin.
  - exact (proj1 (List.Forall_forall _ _) Hall _ Hin).
Qed.

Lemma blended_zero_order (i j : nat) :
  (i < length docs)%nat -> (j < length docs)%nat ->
  Qltb (blended 0 max_semantic max_keyword i) (blended 0 max_semantic max_keyword j)
  = Qltb (overlap_ratio i) (overlap_ratio j).
Proof.
  intros Hi Hj.
  rewrite (Qltb_compat _ _ _ _ (blended_zero i Hi) (blended_zero j Hj)).
  destruct (Qltb 0 max_keyword) eqn:Hpos.
  - apply Qltb_div. apply Qltb_lt. exact Hpos.
  - apply Qltb_ge in Hpos.
    pose proof (overlap_ratio_le_max i Hi). pose proof (overlap_ratio_le_max j Hj).
    pose proof (overlap_ratio_nonneg i). pose proof (overlap_ratio_nonneg j).
    apply bool_eq_iff. rewrite !Qltb_lt. split; intros; lra.
Qed.

Lemma blended_zero_positive (i : nat) :
  (i < length docs)%nat ->
  Qltb 0 (blended 0 max_semantic max_keyword i) = Qltb 0 (overlap_ratio i).
Proof.
  intros Hi.
  rewrite (Qltb_compat _ _ _ _ (Qeq_refl 0) (blended_zero i Hi)).
  destruct (Qltb 0 max_keyword) eqn:Hpos.
  - rewrite <- (Qltb_div 0 (overlap_ratio i) max_keyword)
      by (apply Qltb_lt; exact Hpos).
    apply Qltb_compat; [|reflexivity]. field.
    apply Qltb_lt in Hpos. lra.
  - apply Qltb_ge in Hpos.
    pose proof (overlap_ratio_le_max i Hi). pose proof (overlap_ratio_nonneg i).
    apply bool_eq_iff. rewrite !Qltb_lt. split; intros; lra.
Qed.

End LexicalOnly.

Lemma hybrid_alpha_zero (self : SemanticSearch) (top_k : Z) :
  exists results : list HybridResult,
    hybrid_search encode (index_documents encode self docs) query docs top_k 0
    = Ok results
    /\ hybrid_ranking results = lexical_ranking query docs top_k.
Proof.
  destruct (hybrid_search_indexed self top_k 0)
    as (ms & mk & results & _ & Hmk & Hrun & Hrank).
  exists results. split; [exact Hrun|].
  rewrite Hrank. unfold lexical_ranking, sorted_reverse.
  fold overlap_ratio.
  rewrite (stable_sort_ext
             (fun a b => Qltb (blended 0 ms mk b) (blended 0 ms mk a))
             (fun y x => Qltb (overlap_ratio x) (overlap_ratio y))).
  - apply List.filter_ext_in. intros i Hi.
    apply take_incl, stable_sort_in, in_seq in Hi.
    apply (blended_zero_positive ms mk Hmk). lia.
  - intros x y Hx Hy. apply in_seq in Hx, Hy.
    apply (blended_zero_order ms mk Hmk); lia.
Qed.

(** *** alpha = 1 *)

Section SemanticOnly.

Variable max_semantic max_keyword : Q.
Hypothesis max_semantic_is : Search.max_or_one semantic_dict = Ok max_semantic.

Lemma max_semantic_positive : (0 < max_semantic)%Q.
Proof.
  destruct (max_or_one_spec semantic_dict) as (m & Hm & Hspec).
  rewrite max_semantic_is in Hm. injection Hm as <-.
  destruct Hspec as [[_ ->]|[Hin _]]; [reflexivity|].
  unfold values, Search.semantic_dict in Hin. rewrite map_map in Hin. cbn [snd] in Hin.
  apply in_map_iff in Hin as (i & <- & Hi).
  apply in_reported in Hi as [_ Hi]. apply Qle_bool_iff in Hi.
  unfold default_threshold in Hi. lra.
Qed.

Lemma blended_one_reported (i : nat) :
  In i reported ->
  (blended 1 max_semantic max_keyword i == sim i / max_semantic)%Q.
Proof.
  intros Hi. unfold Search.blended, normalized at 1.
  rewrite (semantic_dict_get_reported i Hi).
  pose proof max_semantic_positive as Hpos. apply Qltb_lt in Hpos.
  rewrite Hpos. ring.
Qed.

Lemma blended_one_other (i : nat) :
  ~ In i reported -> (blended 1 max_semantic max_keyword i == 0)%Q.
Proof.
  intros Hi. unfold Search.blended, normalized at 1.
  rewrite (semantic_dict_get_other i Hi).
  pose proof max_semantic_positive as Hpos.
  destruct (Qltb 0 max_semantic); [field; lra|ring].
Qed.

Lemma blended_one_positive (i : nat) :
  (i < length docs)%nat ->
  Qltb 0 (blended 1 max_semantic max_keyword i) = Qle_bool default_threshold (sim i).
Proof.
  intros Hi. pose proof max_semantic_positive as Hpos.
  destruct (Qle_bool default_threshold (sim i)) eqn:Hp.
  - assert (Hin : In i reported) by (apply in_reported; tauto).
    rewrite (Qltb_compat _ _ _ _ (Qeq_refl 0) (blended_one_reported i Hin)).
    apply Qltb_lt. apply Qle_bool_iff in Hp. unfold default_threshold in Hp.
    apply Qlt_shift_div_l; [exact Hpos|]. lra.
  - assert (Hnin : ~ In i reported).
    { intros Hin. apply in_reported in Hin as [_ Hin]. congruence. }
    rewrite (Qltb_compat _ _ _ _ (Qeq_refl 0) (blended_one_other i Hnin)).
    reflexivity.
Qed.

Lemma blended_one_order (i j : nat) :
  In i reported -> In j reported ->
  (blended 1 max_semantic max_keyword j <= blended 1 max_semantic max_keyword i)%Q ->
  (sim j <= sim i)%Q.
Proof.
  intros Hi Hj Hle. pose proof max_semantic_positive as Hpos.
  rewrite (blended_one_reported i Hi), (blended_one_reported j Hj) in Hle.
  unfold Qdiv in Hle.
  apply (Qmult_le_r _ _ (/ max_semantic)); [|exact Hle].
  apply Qinv_lt_0_compat. exact Hpos.
Qed.

End SemanticOnly.

Lemma by_blend_descending (alpha ms mk : Q) :
  StronglySorted (fun i j => (blended alpha ms mk j <= blended alpha ms mk i)%Q)
                 (by_blend alpha ms mk).
Proof.
  unfold Search.by_blend.
  eapply sorted_weaken; [|apply stable_sort_sorted].
  - intros i j _ _ H. apply Qltb_ge in H. exact H.
  - intros i j H. apply Qltb_lt in H. apply Qltb_ge. apply Qlt_le_weak. exact H.
  - unfold may_precede. intros i j k Hij Hjk.
    apply Qltb_ge in Hij, Hjk. apply Qltb_ge. eapply Qle_trans; eassumption.
Qed.

Lemma hybrid_alpha_one (self : SemanticSearch) (top_k : Z) :
  distinct_scores ->
  exists (semantic : list SearchResult) (hybrid : list HybridResult),
    search encode (index_documents encode self docs) query top_k default_threshold
    = Ok semantic
    /\ hybrid_search encode (index_documents encode self docs) query docs top_k 1
       = Ok hybrid
    /\ hybrid_ranking hybrid = ranking semantic.
Proof.
  intros Hdistinct.
  destruct (hybrid_search_indexed self top_k 1)
    as (ms & mk & hybrid & Hms & _ & Hrun & Hrank).
  eexists. exists hybrid. split; [apply search_indexed|].
  split; [exact Hrun|].
  rewrite Hrank. unfold ranking. rewrite map_map. cbn [index result_at].
  rewrite map_id. fold (by_blend 1 ms mk).
  set (sims := similarities encode docs query).
  set (p := fun i => Qle_bool default_threshold (nth i sims 0%Q)).
  set (q := fun i => Qltb 0 (blended 1 ms mk i)).
  assert (Hpq : forall i, (i < length docs)%nat -> q i = p i)
    by (intros i Hi; apply (blended_one_positive ms mk Hms i Hi)).
  assert (Hperm : Permutation (by_blend 1 ms mk) (rev (argsort sims))).
  { etransitivity; [apply stable_sort_perm|].
    etransitivity; [|apply Permutation_rev].
    symmetry. unfold sims. rewrite <- (similarities_length encode docs query).
    apply argsort_perm. }
  rewrite !take_firstn.
  rewrite (Permutation_length Hperm).
  rewrite (filter_firstn_sorted
             (fun i j => (blended 1 ms mk j <= blended 1 ms mk i)%Q) q);
    [| |apply by_blend_descending].
  2:{ intros a b Hab Hb. unfold q in *. apply Qltb_lt in Hb. apply Qltb_lt.
      eapply Qlt_le_trans; eassumption. }
  rewrite (filter_firstn_sorted (fun i j => (nth j sims 0 <= nth i sims 0)%Q) p);
    [| |apply rev_argsort_descending].
  2:{ intros a b Hab Hb. unfold p in *. apply Qle_bool_iff in Hb.
      apply Qle_bool_iff. eapply Qle_trans; eassumption. }
  f_equal.
  assert (Hq : List.filter q (by_blend 1 ms mk) = List.filter p (by_blend 1 ms mk)).
  { apply List.filter_ext_in. intros i Hi. apply Hpq.
    apply stable_sort_in, in_seq in Hi. lia. }
  rewrite Hq.
  assert (Hmem : forall l i, In i (List.filter p l) -> In i l /\ p i = true)
    by (intros l i; apply List.filter_In).
  assert (Hrep : forall i, In i (List.filter p (rev (argsort sims))) -> In i reported)
    by (intros i Hi; exact Hi).
  apply (sorted_unique (fun i j => (sim j < sim i)%Q)).
  - intros a b Hab Hba. exact (Qlt_irrefl _ (Qlt_trans _ _ _ Hab Hba)).
  - apply (sorted_strengthen
             (fun i j => (blended 1 ms mk j <= blended 1 ms mk i)%Q)).
    + apply List.NoDup_filter.
      apply (Permutation_NoDup (Permutation_sym Hperm)), rev_argsort_nodup.
    + intros a b Ha Hb Hne Hle.
      assert (Ha' : In a reported).
      { apply Hrep. apply (Permutation_in _ (Permutation_filter p _ _ Hperm)), Ha. }
      assert (Hb' : In b reported).
      { apply Hrep. apply (Permutation_in _ (Permutation_filter p _ _ Hperm)), Hb. }
      pose proof (blended_one_order ms mk Hms a b Ha' Hb' Hle) as Hsim.
      apply in_reported in Ha' as [Ha1 Ha2]. apply in_reported in Hb' as [Hb1 Hb2].
      apply Qle_bool_iff in Ha2, Hb2.
      pose proof (Hdistinct a b Ha1 Hb1 Hne Ha2 Hb2) as Hneq.
      apply Qle_lt_or_eq in Hsim as [Hlt|Heq]; [exact Hlt|].
      exfalso. apply Hneq. symmetry. exact Heq.
    + apply sorted_filter, by_blend_descending.
  - apply (sorted_strengthen (fun i j => (nth j sims 0 <= nth i sims 0)%Q)).
    + apply List.NoDup_filter, rev_argsort_nodup.
    + intros a b Ha Hb Hne Hle.
      apply Hrep in Ha, Hb.
      apply in_reported in Ha as [Ha1 Ha2]. apply in_reported in Hb as [Hb1 Hb2].
      apply Qle_bool_iff in Ha2, Hb2.
      pose proof (Hdistinct a b Ha1 Hb1 Hne Ha2 Hb2) as Hneq.
      apply Qle_lt_or_eq in Hle as [Hlt|Heq]; [exact Hlt|].
      exfalso. apply Hneq. symmetry. exact Heq.
    + apply sorted_filter, rev_argsort_descending.
  - apply Permutation_filter. exact Hperm.
Qed.

End Hybrid.

Lemma search_raises_then_ranks_witness :
  0 <= 2 /\
  exists results : list SearchResult,
    search constant_encode (index_documents constant_encode new ["a"; "b"; "c"])
           "q" 2 (3 # 10)
    = Ok results
    /\ Z.of_nat (length results) <= 2
    /\ Forall (fun r => (3 # 10 <= score r)%Q) results
    /\ StronglySorted (fun r1 r2 => (score r2 <= score r1)%Q) results.
Proof.
  split; [lia|].
  apply (search_raises_then_ranks constant_encode new ["a"; "b"; "c"] "q" 2 (3 # 10)).
  lia.
Defined.

(** A negative top_k drops that many indices from the end of the ranking
    instead of bounding the number of results. *)
Example search_negative_top_k :
  option_map ranking
    (match search constant_encode
             (index_documents constant_encode new ["a"; "b"; "c"]) "q" (-1) 0 with
     | Ok results => Some results
     | Raise _ => None
     end)
  = Some [2; 1]%nat.
Proof. vm_compute. reflexivity. Qed.

(** C3 as stated fails for a negative top_k: two results come back for
    top_k = -1. *)
Lemma search_at_most_top_k_fails :
  ~ (forall (encode : string -> list Q) (self : SemanticSearch)
            (docs : list string) (query : string) (top_k : Z) (threshold : Q),
       exists results : list SearchResult,
         search encode (index_documents encode self docs) query top_k threshold
         = Ok results
         /\ Z.of_nat (length results) <= top_k).
Proof.
  intros Hclaim.
  destruct (Hclaim constant_encode new ["a"; "b"; "c"] "q" (-1) 0%Q)
    as (results & Hrun & Hlen).
  vm_compute in Hrun. injection Hrun as <-. simpl in Hlen. lia.
Qed.

(** Two copies of one document tie: [search] lists the later copy first,
    [hybrid_search] the earlier one. *)
Example search_tie_order :
  rank_of ranking
    (search constant_encode (index_documents constant_encode new ["a"; "a"])
            "q" 5 default_threshold)
  = Some [1; 0]%nat.
Proof. vm_compute. reflexivity. Qed.

Example hybrid_tie_order :
  rank_of hybrid_ranking
    (hybrid_search constant_encode (index_documents constant_encode new ["a"; "a"])
                   "q" ["a"; "a"] 5 1)
  = Some [0; 1]%nat.
Proof. vm_compute. reflexivity. Qed.

(** C2 (amended): on the indexed documents, when no two documents whose
    semantic score reaches the default threshold tie, [hybrid_search] with
    alpha = 1 lists the documents in the order [search] lists them (same
    top_k, default threshold); and [hybrid_search] with alpha = 0 lists them
    by lexical overlap alone. *)
Theorem hybrid_search_extremes (encode : string -> list Q) (self : SemanticSearch)
    (docs : list string) (query : string) (top_k : Z) :
  (distinct_scores encode docs query ->
   exists (semantic : list SearchResult) (hybrid : list HybridResult),
     search encode (index_documents encode self docs) query top_k default_threshold
     = Ok semantic
     /\ hybrid_search encode (index_documents encode self docs) query docs top_k 1
        = Ok hybrid
     /\ hybrid_ranking hybrid = ranking semantic)
  /\ (exists lexical : list HybridResult,
        hybrid_search encode (index_documents encode self docs) query docs top_k 0
        = Ok lexical
        /\ hybrid_ranking lexical = lexical_ranking query docs top_k).
Proof.
  split.
  - apply hybrid_alpha_one.
  - apply hybrid_alpha_zero.
Qed.

Lemma hybrid_search_extremes_witness :
  distinct_scores length_encode ["a"; "bb"] "q"
  /\ exists (semantic : list SearchResult) (hybrid : list HybridResult),
       search length_encode (index_documents length_encode new ["a"; "bb"])
              "q" 5 default_threshold
       = Ok semantic
       /\ hybrid_search length_encode (index_documents length_encode new ["a"; "bb"])
                        "q" ["a"; "bb"] 5 1
          = Ok hybrid
       /\ hybrid_ranking hybrid = ranking semantic.
Proof.
  assert (Hdistinct : distinct_scores length_encode ["a"; "bb"] "q").
  { intros i j Hi Hj Hne _ _.
    destruct i as [|[|i]], j as [|[|j]]; simpl in Hi, Hj; try lia;
      vm_compute; discriminate. }
  split; [exact Hdistinct|].
  exact (proj1 (hybrid_search_extremes length_encode new ["a"; "bb"] "q" 5) Hdistinct).
Defined.

(** C2 as stated fails on a tie: for two copies of one document the two
    rankings are each other's reverse. *)
Lemma hybrid_alpha_one_tie_differs :
  ~ (forall (encode : string -> list Q) (self : SemanticSearch)
            (docs : list string) (query : string) (top_k : Z),
       exists (semantic : list SearchResult) (hybrid : list HybridResult),
         search encode (index_documents encode self docs) query top_k
                default_threshold
         = Ok semantic
         /\ hybrid_search encode (index_documents encode self docs) query docs
                          top_k 1
            = Ok hybrid
         /\ hybrid_ranking hybrid = ranking semantic).
Proof.
  intros Hclaim.
  destruct (Hclaim constant_encode new ["a"; "a"] "q" 5)
    as (semantic & hybrid & Hs & Hh & Heq).
  pose proof search_tie_order as Hs'. rewrite Hs in Hs'.
  pose proof hybrid_tie_order as Hh'. rewrite Hh in Hh'.
  simpl in Hs', Hh'. congruence.
Qed.

Example hybrid_lexical_order :
  rank_of hybrid_ranking
    (hybrid_search constant_encode
       (index_documents constant_encode new ["x y"; "Red Fox"; "red"])
       "red fox" ["x y"; "Red Fox"; "red"] 5 0)
  = Some [1; 2]%nat.
Proof. vm_compute. reflexivity. Qed.

(** ** What the results of [search] are *)

Lemma sorted_prefix_dominates {A : Type} (R : A -> A -> Prop) (l : list A) :
  StronglySorted R l ->
  forall (n : nat) (a b : A),
    In a (firstn n l) -> In b l -> ~ In b (firstn n l) -> R a b.
Proof.
  induction 1 as [|x l Hs IH Hall]; intros [|n] a b Ha Hb Hnb; simpl in *;
    try tauto.
  destruct Hb as [<-|Hb]; [tauto|].
  destruct Ha as [<-|Ha].
  - exact (proj1 (List.Forall_forall _ _) Hall b Hb).
  - apply (IH n); tauto.
Qed.

Lemma NoDup_firstn {A : Type} (n : nat) (l : list A) :
  List.NoDup l -> List.NoDup (firstn n l).
Proof.
  intros Hl. rewrite <- (firstn_skipn n l) in Hl.
  exact (NoDup_app_remove_r _ _ Hl).
Qed.

Lemma take_beyond {A : Type} (l : list A) (k : Z) :
  Z.of_nat (length l) <= k -> take l k = l.
Proof.
  intros Hk. rewrite take_firstn. apply firstn_all2.
  unfold take_count, clamp_index.
  destruct (Z.ltb_spec k 0); lia.
Qed.

Section SearchResults.

Variable encode : string -> list Q.

Local Abbreviation search := (search encode).
Local Abbreviation index_documents := (index_documents encode).
Local Abbreviation similarities := (similarities encode).
Local Abbreviation sim := (sim encode).

Lemma ranking_indexed (docs : list string) (sims : list Q) (idxs : list nat) :
  ranking (map (result_at docs sims) idxs) = idxs.
Proof. unfold ranking. rewrite map_map. cbn [index result_at]. apply map_id. Qed.

(** X8: once documents are indexed, [search] returns, whatever the
    query, top_k and threshold; no document is returned twice, and every
    result carries the index of an indexed document, that document's text,
    its similarity to the query, and the text's lengths in characters and in
    whitespace-separated words. *)
Theorem search_results_wellformed (self : SemanticSearch) (docs : list string)
    (query : string) (top_k : Z) (threshold : Q) :
  exists results : list SearchResult,
    search (index_documents self docs) query top_k threshold = Ok results
    /\ List.NoDup (ranking results)
    /\ Forall (fun r =>
                 (index r < length docs)%nat
                 /\ text r = nth (index r) docs ""
                 /\ score r = sim docs query (index r)
                 /\ metadata r
                    = {| length_chars := String.length (text r);
                         length_words := length (split_ws (text r)) |})
              results.
Proof.
  eexists. split; [apply search_indexed|]. split.
  - rewrite ranking_indexed. apply List.NoDup_filter.
    rewrite take_firstn. apply NoDup_firstn.
    apply (Permutation_NoDup (l := seq 0 (length (similarities docs query)))).
    + etransitivity; [symmetry; apply argsort_perm|apply Permutation_rev].
    + apply seq_NoDup.
  - apply List.Forall_forall. intros r Hr.
    apply in_map_iff in Hr as (i & <- & Hi).
    apply List.filter_In in Hi as [Hi _].
    apply take_incl, in_rev, argsort_bound in Hi.
    rewrite similarities_length in Hi. cbn [index text score metadata result_at].
    repeat split. exact Hi.
Qed.

(** X9: [search] keeps the best documents. An indexed document that
    is not among the results either scores below the threshold or scores no
    more than every result; and when top_k is at least the number of indexed
    documents, the results are exactly the documents that reach the
    threshold. *)
Theorem search_keeps_best (self : SemanticSearch) (docs : list string)
    (query : string) (top_k : Z) (threshold : Q) :
  exists results : list SearchResult,
    search (index_documents self docs) query top_k threshold = Ok results
    /\ (forall i : nat,
          (i < length docs)%nat -> ~ In i (ranking results) ->
          (sim docs query i < threshold)%Q
          \/ Forall (fun r => (sim docs query i <= score r)%Q) results)
    /\ (Z.of_nat (length docs) <= top_k ->
        forall i : nat,
          In i (ranking results)
          <-> (i < length docs)%nat /\ (threshold <= sim docs query i)%Q).
Proof.
  eexists. split; [apply search_indexed|].
  set (sims := similarities docs query).
  set (order := rev (argsort sims)).
  rewrite ranking_indexed. split.
  - intros i Hi Hout.
    assert (Hin : In i order).
    { apply -> in_rev. apply argsort_in. unfold sims.
      rewrite similarities_length. exact Hi. }
    rewrite take_firstn in *.
    destruct (in_dec Nat.eq_dec i (firstn (take_count (length order) top_k) order))
      as [Hkept|Hcut].
    + left. apply Qltb_lt. unfold Qltb. apply negb_true_iff.
      destruct (Qle_bool threshold (Search.sim encode docs query i)) eqn:Hp;
        [|reflexivity].
      exfalso. apply Hout. apply List.filter_In. split; [exact Hkept|exact Hp].
    + right. apply List.Forall_forall. intros r Hr.
      apply in_map_iff in Hr as (j & <- & Hj).
      apply List.filter_In in Hj as [Hj _]. cbn [score result_at].
      exact (sorted_prefix_dominates _ order (rev_argsort_descending sims)
               _ j i Hj Hin Hcut).
  - intros Hk i.
    rewrite take_beyond
      by (unfold order, sims;
          rewrite length_rev, argsort_length, similarities_length; exact Hk).
    rewrite List.filter_In. unfold order. rewrite <- in_rev, argsort_in.
    unfold sims at 1. rewrite similarities_length, Qle_bool_iff. reflexivity.
Qed.

End SearchResults.

(** ** The keyword score *)

Lemma inject_nat_pos (n : nat) : (0 < n)%nat -> (0 < inject_Z (Z.of_nat n))%Q.
Proof. intros Hn. change 0%Q with (inject_Z 0). rewrite <- Zlt_Qlt. lia. Qed.

Lemma ratio_one (n m : nat) :
  (0 < m)%nat ->
  (inject_Z (Z.of_nat n) / inject_Z (Z.of_nat m) == 1)%Q <-> n = m.
Proof.
  intros Hm. pose proof (inject_nat_pos m Hm) as Hpos.
  assert (Hnz : ~ (inject_Z (Z.of_nat m) == 0)%Q)
    by (intros H0; rewrite H0 in Hpos; exact (Qlt_irrefl _ Hpos)).
  split.
  - intros Hone.
    assert (Heq : (inject_Z (Z.of_nat n) == inject_Z (Z.of_nat m))%Q).
    { rewrite <- (Qmult_div_r (inject_Z (Z.of_nat n)) (inject_Z (Z.of_nat m)) Hnz).
      rewrite Hone. ring. }
    apply (proj1 (inject_Z_injective _ _)) in Heq. lia.
  - intros ->. unfold Qdiv. apply Qmult_inv_r. exact Hnz.
Qed.

Lemma ratio_zero (n m : nat) :
  (0 < m)%nat ->
  (inject_Z (Z.of_nat n) / inject_Z (Z.of_nat m) == 0)%Q <-> n = 0%nat.
Proof.
  intros Hm. pose proof (inject_nat_pos m Hm) as Hpos.
  assert (Hnz : ~ (inject_Z (Z.of_nat m) == 0)%Q)
    by (intros H0; rewrite H0 in Hpos; exact (Qlt_irrefl _ Hpos)).
  split.
  - intros Hzero.
    assert (Heq : (inject_Z (Z.of_nat n) == inject_Z 0)%Q).
    { rewrite <- (Qmult_div_r (inject_Z (Z.of_nat n)) (inject_Z (Z.of_nat m)) Hnz).
      rewrite Hzero. ring. }
    apply (proj1 (inject_Z_injective _ _)) in Heq. lia.
  - intros ->. unfold Qdiv. simpl. ring.
Qed.

Lemma ratio_le_one (n m : nat) :
  (0 < m)%nat -> (n <= m)%nat ->
  (inject_Z (Z.of_nat n) / inject_Z (Z.of_nat m) <= 1)%Q.
Proof.
  intros Hm Hle. apply Qle_shift_div_r; [apply inject_nat_pos; exact Hm|].
  rewrite Qmult_1_l, <- Zle_Qle. lia.
Qed.

Lemma ratio_nonneg (n m : nat) :
  (0 <= inject_Z (Z.of_nat n) / inject_Z (Z.of_nat m))%Q.
Proof.
  unfold Qdiv. apply Qmult_le_0_compat.
  - change 0%Q with (inject_Z 0). rewrite <- Zle_Qle. lia.
  - apply Qinv_le_0_compat.
    change 0%Q with (inject_Z 0). rewrite <- Zle_Qle. lia.
Qed.

Lemma size_common_le (q d : gset string) : (size (q ∩ d) <= size q)%nat.
Proof. apply subseteq_size, intersection_subseteq_l. Qed.

Lemma size_nonempty_pos (q : gset string) : q <> ∅ -> (0 < size q)%nat.
Proof.
  intros Hq. destruct (size q) eqn:Hs; [|lia].
  exfalso. apply Hq. apply leibniz_equiv, size_empty_iff. exact Hs.
Qed.

Lemma keyword_ratio_bounds (q : gset string) (doc : string) :
  (0 <= keyword_ratio q doc)%Q /\ (keyword_ratio q doc <= 1)%Q.
Proof.
  unfold keyword_ratio. destruct (decide (q = ∅)) as [Hq|Hq].
  - split; discriminate.
  - split; [apply ratio_nonneg|].
    apply ratio_le_one; [apply size_nonempty_pos; exact Hq|apply size_common_le].
Qed.

(** X10: the keyword score of a document is a fraction between 0 and
    1. It is 1 exactly when the query has a term and every term of the query
    is a term of the document, and 0 exactly when the two share no term; an
    empty query scores 0 on every document. *)
Theorem keyword_ratio_range (query doc : string) :
  let r := keyword_ratio (terms query) doc in
  (0 <= r)%Q /\ (r <= 1)%Q
  /\ ((r == 1)%Q <-> terms query <> ∅ /\ terms query ⊆ terms doc)
  /\ ((r == 0)%Q <-> terms query ## terms doc).
Proof.
  cbv zeta.
  destruct (keyword_ratio_bounds (terms query) doc) as [Hlo Hhi].
  split; [exact Hlo|]. split; [exact Hhi|]. clear Hlo Hhi.
  unfold keyword_ratio. generalize (terms query) (terms doc). intros q d.
  destruct (decide (q = ∅)) as [Hq|Hq].
  - split.
    + split; [intros H01; discriminate H01|intros [Hne _]; contradiction].
    + split; [intros _; rewrite Hq; set_solver|reflexivity].
  - pose proof (size_nonempty_pos q Hq) as Hpos. split.
    + rewrite (ratio_one _ _ Hpos). split.
      * intros Hsize. split; [exact Hq|].
        assert (Heq : q ∩ d ≡ q)
          by (apply set_subseteq_size_equiv; [apply intersection_subseteq_l|lia]).
        exact (proj2 (subseteq_intersection q d) Heq).
      * intros [_ Hsub]. f_equal. apply subseteq_intersection_1_L. exact Hsub.
    + rewrite (ratio_zero _ _ Hpos), disjoint_intersection, size_empty_iff.
      reflexivity.
Qed.

(** ** What [hybrid_search] returns, whatever documents it is given *)

Lemma dict_get_cases {V : Type} (d : dict nat V) (i : nat) (default : V) :
  dict_get d i default = default \/ In (dict_get d i default) (values d).
Proof.
  unfold dict_get. induction d as [|[k v] d IH]; simpl; [left; reflexivity|].
  case_bool_decide; [right; left; reflexivity|].
  destruct IH as [IH|IH]; [left; exact IH|right; right; exact IH].
Qed.

Lemma normalized_bounds (d : dict nat Q) (i : nat) (m : Q) :
  Search.max_or_one d = Ok m ->
  Forall (fun v => (0 <= v)%Q) (values d) ->
  (0 <= normalized d i m)%Q /\ (normalized d i m <= 1)%Q.
Proof.
  intros Hm Hpos. unfold normalized.
  destruct (Qltb 0 m) eqn:Hlt; [|split; discriminate].
  apply Qltb_lt in Hlt.
  assert (Hget : (0 <= dict_get d i 0)%Q /\ (dict_get d i 0 <= m)%Q).
  { destruct (max_or_one_spec d) as (m' & Hm' & Hcases).
    rewrite Hm in Hm'. injection Hm' as <-.
    destruct (dict_get_cases d i 0%Q) as [->|Hin].
    - split; [apply Qle_refl|apply Qlt_le_weak; exact Hlt].
    - destruct Hcases as [[-> _]|[_ Hall]]; [destruct Hin|].
      split.
      + exact (proj1 (List.Forall_forall _ _) Hpos _ Hin).
      + exact (proj1 (List.Forall_forall _ _) Hall _ Hin). }
  split.
  - apply Qle_shift_div_l; [exact Hlt|rewrite Qmult_0_l; tauto].
  - apply Qle_shift_div_r; [exact Hlt|rewrite Qmult_1_l; tauto].
Qed.

Lemma stable_sort_descending {A : Type} (key : A -> Q) (l : list A) :
  StronglySorted (fun a b => (key b <= key a)%Q)
                 (stable_sort (fun a b => Qltb (key b) (key a)) l).
Proof.
  eapply sorted_weaken; [|apply stable_sort_sorted].
  - intros a b _ _ H. apply Qltb_ge in H. exact H.
  - intros a b H. apply Qltb_lt in H. apply Qltb_ge. apply Qlt_le_weak. exact H.
  - unfold may_precede. intros a b c Hab Hbc.
    apply Qltb_ge in Hab, Hbc. apply Qltb_ge. eapply Qle_trans; eassumption.
Qed.

Section HybridContract.

Variable encode : string -> list Q.
Variables indexed docs : list string.
Variable query : string.

Local Abbreviation keyword_dict := (keyword_dict docs query).

(** [hybrid_search] on an object that has indexed [indexed], called with
    the documents [docs]: the semantic scores are those of the indexed
    documents, the ranking runs over the positions of [docs]. *)
Lemma hybrid_search_form (self : SemanticSearch) (top_k : Z) (alpha : Q) :
  exists (sd : dict nat Q) (ms mk : Q) (blend : nat -> Q),
    Forall (fun v => (default_threshold <= v)%Q) (values sd)
    /\ Search.max_or_one sd = Ok ms
    /\ Search.max_or_one keyword_dict = Ok mk
    /\ (forall i, blend i
                  = (alpha * normalized sd i ms
                     + (1 - alpha) * normalized keyword_dict i mk)%Q)
    /\ hybrid_search encode (index_documents encode self indexed) query docs
         top_k alpha
       = Ok (map (hybrid_at docs sd keyword_dict)
               (List.filter (fun isc => Qltb 0 (snd isc))
                  (take (map (fun i => (i, blend i))
                           (stable_sort (fun a b => Qltb (blend b) (blend a))
                                        (seq 0 (length docs))))
                        top_k))).
Proof.
  unfold Search.hybrid_search. rewrite search_indexed. cbn [bind].
  rewrite map_map. cbn [index score result_at].
  set (sims := similarities encode indexed query).
  set (kept := List.filter _ (take (rev (argsort sims)) _)).
  assert (Hkept : List.NoDup kept).
  { apply List.NoDup_filter. rewrite take_firstn. apply NoDup_firstn.
    apply rev_argsort_nodup. }
  rewrite (dict_of_items_distinct (map (fun i => (i, nth i sims 0%Q)) kept)
             (seq_keys_nodup _ _ Hkept)).
  set (sd := map (fun i => (i, nth i sims 0%Q)) kept).
  set (kd := dict_of_items (map _ (enumerate docs))).
  assert (Hkd : kd = keyword_dict).
  { subst kd. rewrite (enumerate_nth ""), map_map. cbn [fst snd].
    exact (dict_of_items_distinct keyword_dict
             (seq_keys_nodup _ _ (seq_NoDup _ _))). }
  clearbody kd. subst kd.
  destruct (max_or_one_spec sd) as (ms & Hms & _).
  destruct (max_or_one_spec keyword_dict) as (mk & Hmk & _).
  exists sd, ms, mk,
    (fun i => (alpha * normalized sd i ms
               + (1 - alpha) * normalized keyword_dict i mk)%Q).
  split.
  { apply List.Forall_forall. intros v Hv. unfold values, sd in Hv.
    rewrite map_map in Hv. apply in_map_iff in Hv as (i & <- & Hi).
    apply List.filter_In in Hi as [_ Hi]. apply Qle_bool_iff in Hi. exact Hi. }
  split; [exact Hms|]. split; [exact Hmk|]. split; [reflexivity|].
  rewrite Hms, Hmk. cbn [bind].
  set (cd := dict_of_items (map _ (seq 0 (length docs)))).
  assert (Hcd : cd = map (fun i => (i, (alpha * normalized sd i ms
                                        + (1 - alpha) * normalized keyword_dict i mk)%Q))
                         (seq 0 (length docs)))
    by exact (dict_of_items_distinct _ (seq_keys_nodup _ _ (seq_NoDup _ _))).
  clearbody cd. subst cd.
  unfold sorted_reverse. rewrite stable_sort_map. cbn [snd].
  apply collect_hybrid_ok.
  apply List.Forall_forall. intros [i sc] Hi. cbn [fst].
  apply take_incl, in_map_iff in Hi as (j & Hj & Hin). injection Hj as <- _.
  apply stable_sort_in, in_seq in Hin. lia.
Qed.

(** X11: [hybrid_search] raises before any document is indexed.
    Afterwards it returns for every query, every list of documents, every
    top_k and every alpha: for top_k >= 0 at most top_k results, no position
    twice, each result at a position of the list it was given with the text
    found there, a combined score above zero, the keyword score of that
    text, and a semantic score that is 0 or at least the default threshold;
    and the results come in descending order of combined score. *)
Theorem hybrid_search_contract (self : SemanticSearch) (top_k : Z) (alpha : Q) :
  hybrid_search encode new query docs top_k alpha
  = Raise (ValueError "No documents indexed. Call index_documents first.")
  /\ exists results : list HybridResult,
       hybrid_search encode (index_documents encode self indexed) query docs
         top_k alpha = Ok results
       /\ (0 <= top_k -> Z.of_nat (length results) <= top_k)
       /\ List.NoDup (hybrid_ranking results)
       /\ Forall (fun r =>
                    (h_index r < length docs)%nat
                    /\ h_text r = nth (h_index r) docs ""
                    /\ (0 < h_score r)%Q
                    /\ keyword_score r = keyword_ratio (terms query) (h_text r)
                    /\ (semantic_score r = 0%Q
                        \/ (default_threshold <= semantic_score r)%Q))
                 results
       /\ StronglySorted (fun r1 r2 => (h_score r2 <= h_score r1)%Q) results.
Proof.
  split; [reflexivity|].
  destruct (hybrid_search_form self top_k alpha)
    as (sd & ms & mk & blend & Hsd & _ & _ & _ & Hrun).
  eexists. split; [exact Hrun|].
  set (order := stable_sort (fun a b => Qltb (blend b) (blend a))
                            (seq 0 (length docs))).
  split; [|split; [|split]].
  - intros Hk. rewrite length_map.
    etransitivity; [|apply (take_length_le (map (fun i => (i, blend i)) order)
                              top_k Hk)].
    apply Nat2Z.inj_le, List.filter_length_le.
  - unfold hybrid_ranking. rewrite map_map. cbn [h_index hybrid_at].
    rewrite take_map, filter_map_comm, map_map. cbn [fst snd]. rewrite map_id.
    apply List.NoDup_filter. rewrite take_firstn. apply NoDup_firstn.
    apply (Permutation_NoDup (l := seq 0 (length docs))).
    + symmetry. apply stable_sort_perm.
    + apply seq_NoDup.
  - apply List.Forall_forall. intros r Hr.
    apply in_map_iff in Hr as ([i sc] & <- & Hi).
    apply List.filter_In in Hi as [Hi Hpos]. cbn [snd] in Hpos.
    apply take_incl, in_map_iff in Hi as (j & Hj & Hin). injection Hj as -> _.
    apply stable_sort_in, in_seq in Hin.
    cbn [h_index h_text h_score keyword_score semantic_score hybrid_at fst snd].
    split; [lia|]. split; [reflexivity|]. split; [apply Qltb_lt; exact Hpos|].
    split.
    + rewrite keyword_dict_get by lia. reflexivity.
    + destruct (dict_get_cases sd i 0%Q) as [Hnone|Hsome]; [left; exact Hnone|].
      right. exact (proj1 (List.Forall_forall _ _) Hsd _ Hsome).
  - apply sorted_map. cbn [h_score hybrid_at]. apply sorted_filter.
    rewrite take_firstn. apply sorted_firstn.
    apply sorted_map. cbn [snd]. apply stable_sort_descending.
Qed.

(** X12: with a weight alpha between 0 and 1, no combined score that
    [hybrid_search] reports exceeds 1. *)
Theorem hybrid_scores_at_most_one (self : SemanticSearch) (top_k : Z) (alpha : Q)
    (results : list HybridResult) :
  (0 <= alpha)%Q -> (alpha <= 1)%Q ->
  hybrid_search encode (index_documents encode self indexed) query docs top_k alpha
  = Ok results ->
  Forall (fun r => (h_score r <= 1)%Q) results.
Proof.
  intros Hlo Hhi Hres.
  destruct (hybrid_search_form self top_k alpha)
    as (sd & ms & mk & blend & Hsd & Hms & Hmk & Hblend & Hrun).
  rewrite Hrun in Hres. injection Hres as <-.
  apply List.Forall_forall. intros r Hr.
  apply in_map_iff in Hr as ([i sc] & <- & Hi).
  apply List.filter_In in Hi as [Hi _].
  apply take_incl, in_map_iff in Hi as (j & Hj & _). injection Hj as -> <-.
  cbn [h_score hybrid_at snd]. rewrite Hblend.
  destruct (normalized_bounds sd i ms Hms) as [Hs0 Hs1].
  { apply List.Forall_forall. intros v Hv.
    apply (Qle_trans _ default_threshold); [discriminate|].
    exact (proj1 (List.Forall_forall _ _) Hsd v Hv). }
  destruct (normalized_bounds keyword_dict i mk Hmk) as [Hk0 Hk1].
  { apply List.Forall_forall. intros v Hv. unfold values, Search.keyword_dict in Hv.
    rewrite map_map in Hv. apply in_map_iff in Hv as (k & <- & _).
    apply keyword_ratio_bounds. }
  nra.
Qed.

End HybridContract.

Lemma hybrid_scores_at_most_one_witness :
  (0 <= 7 # 10)%Q /\ (7 # 10 <= 1)%Q /\
  exists results : list HybridResult,
    hybrid_search length_encode (index_documents length_encode new ["a b"; "c"])
                  "a c" ["a b"; "c"] 5 (7 # 10)
    = Ok results
    /\ hybrid_ranking results = [0; 1]%nat
    /\ Forall (fun r => (h_score r <= 1)%Q) results.
Proof.
  split; [discriminate|]. split; [discriminate|].
  eexists. split; [vm_compute; reflexivity|]. split; [reflexivity|].
  apply (hybrid_scores_at_most_one length_encode ["a b"; "c"] ["a b"; "c"] "a c"
           new 5 (7 # 10)); [discriminate|discriminate|vm_compute; reflexivity].
Defined.

(** Called with more documents than were indexed, [hybrid_search] still
    returns: the extra positions have no semantic score. *)
Example hybrid_search_longer_list :
  rank_of hybrid_ranking
    (hybrid_search length_encode (index_documents length_encode new ["a"])
                   "b" ["a"; "b"; "c b"] 5 (7 # 10))
  = Some [0; 1; 2]%nat.
Proof. vm_compute. reflexivity. Qed.

End SearchFacts.

(* ===================================================================== *)
(** * Properties of chunk_document.py *)
(* ===================================================================== *)

Module ChunkerFacts.
Import Chunker.

Lemma ceil_div_nonpos (x d : Z) : 0 < d -> x <= 0 -> ceil_div x d <= 0.
Proof.
  intros Hd Hx. unfold ceil_div.
  assert (0 <= (- x) / d) by (apply Z.div_pos; lia). lia.
Qed.

Lemma ceil_div_step (x d : Z) : 0 < d -> ceil_div x d = 1 + ceil_div (x - d) d.
Proof.
  intros Hd. unfold ceil_div.
  replace (- (x - d)) with (- x + 1 * d) by lia.
  rewrite Z.div_add by lia. lia.
Qed.

Lemma ceil_div_pos (x d : Z) : 0 < d -> 0 < x -> 1 <= ceil_div x d.
Proof.
  intros Hd Hx. rewrite ceil_div_step by assumption.
  unfold ceil_div.
  assert (- (x - d) < d) by lia.
  assert ((- (x - d)) / d < 1) by (apply Z.div_lt_upper_bound; lia).
  lia.
Qed.

Lemma ceil_div_count (x d : Z) :
  0 < d -> 0 < x ->
  Z.max 0 (ceil_div x d) = 1 + Z.max 0 (ceil_div (x - d) d).
Proof.
  intros Hd Hx.
  pose proof (ceil_div_pos x d Hd Hx).
  pose proof (ceil_div_step x d Hd). lia.
Qed.

Lemma len_app {A : Type} (l1 l2 : list A) : len (l1 ++ l2) = len l1 + len l2.
Proof. unfold len. rewrite length_app. lia. Qed.

Section TokenWindows.

Variable chunk_size overlap : Z.

Local Abbreviation token_body := (token_body chunk_size overlap).
Local Abbreviation token_loop := (token_loop chunk_size overlap).
Local Abbreviation start_after := (start_after chunk_size overlap).

Lemma token_body_start words st :
  fst (token_body words st) = fst st + (chunk_size - overlap).
Proof. destruct st as [start chunks]. simpl. lia. Qed.

Lemma start_after_eq k : forall words st,
  start_after k words st = fst st + Z.of_nat k * (chunk_size - overlap).
Proof.
  induction k as [|k IH]; intros words st.
  - simpl. lia.
  - cbn [Chunker.start_after]. rewrite IH, token_body_start. lia.
Qed.

(** With a positive stride the loop stops, after
    [max 0 (ceil ((N - start) / stride))] more passes, and for a
    non-negative overlap the windows it adds cover [start, N). *)
Lemma token_loop_spec (words : list string) :
  overlap < chunk_size ->
  forall (fuel : nat) (start : Z) (chunks : list TokenChunk),
    0 <= start ->
    len words - start <= Z.of_nat fuel ->
    exists more : list TokenChunk,
      token_loop fuel words (start, chunks) = Some (chunks ++ more)
      /\ len more = Z.max 0 (ceil_div (len words - start) (chunk_size - overlap))
      /\ (0 <= overlap ->
          forall i, start <= i < len words ->
            exists c, In c more /\ start_word c <= i < end_word c).
Proof.
  intros Hstride. induction fuel as [|fuel IH]; intros start chunks Hstart Hfuel.
  - exists []. cbn [Chunker.token_loop fst snd].
    destruct (Z.ltb_spec start (len words)); [lia|].
    rewrite app_nil_r. split; [reflexivity|]. split.
    + pose proof (ceil_div_nonpos (len words - start) (chunk_size - overlap)).
      unfold len at 1. simpl. lia.
    + intros; lia.
  - cbn [Chunker.token_loop fst snd].
    destruct (Z.ltb_spec start (len words)) as [Hlt|Hge].
    + cbn [Chunker.token_body].
      destruct (IH (start + chunk_size - overlap)
                  (chunks ++ [ {| text := Py.join " " (Py.slice words (Z.max 0 (start - overlap)) (start + chunk_size));
                                  start_word := Z.max 0 (start - overlap);
                                  end_word := start + chunk_size;
                                  chunk_id := len chunks |} ]))
        as (more & Hrun & Hlen & Hcov); [lia|lia|].
      eexists (_ :: more). split; [|split].
      * rewrite Hrun, <- app_assoc. reflexivity.
      * change (len (?c :: more)) with (Z.of_nat (S (length more))).
        rewrite Nat2Z.inj_succ. fold (len more). rewrite Hlen.
        rewrite (ceil_div_count (len words - start)) by lia.
        replace (len words - (start + chunk_size - overlap))
          with (len words - start - (chunk_size - overlap)) by lia. lia.
      * intros Hov i Hi.
        destruct (Z.lt_ge_cases i (start + chunk_size - overlap)) as [Hin|Hout].
        -- eexists. split; [left; reflexivity|]. simpl. lia.
        -- destruct (Hcov Hov i) as (c & Hc & Hr); [lia|].
           exists c. split; [right; exact Hc|exact Hr].
    + exists []. rewrite app_nil_r. split; [reflexivity|]. split.
      * pose proof (ceil_div_nonpos (len words - start) (chunk_size - overlap)).
        unfold len at 1. simpl. lia.
      * intros; lia.
Qed.

(** Without a positive stride [start] never moves past zero. *)
Lemma token_loop_stuck (words : list string) :
  chunk_size <= overlap -> words <> [] ->
  forall (fuel : nat) (start : Z) (chunks : list TokenChunk),
    start <= 0 -> token_loop fuel words (start, chunks) = None.
Proof.
  intros Hstride Hne. induction fuel as [|fuel IH]; intros start chunks Hstart.
  - cbn [Chunker.token_loop fst snd].
    destruct (Z.ltb_spec start (len words)) as [_|Hge]; [reflexivity|].
    destruct words; [congruence|]. unfold len in Hge. simpl in Hge. lia.
  - cbn [Chunker.token_loop fst snd].
    destruct (Z.ltb_spec start (len words)) as [_|Hge].
    + cbn [Chunker.token_body]. apply IH. lia.
    + destruct words; [congruence|]. unfold len in Hge. simpl in Hge. lia.
Qed.

Lemma token_loop_more_fuel (words : list string) (fuel fuel' : nat) :
  (fuel <= fuel')%nat ->
  forall (st : token_state) (chunks : list TokenChunk),
    token_loop fuel words st = Some chunks ->
    token_loop fuel' words st = Some chunks.
Proof.
  revert fuel'. induction fuel as [|fuel IH]; intros fuel' Hle st chunks Hrun.
  - cbn [Chunker.token_loop] in Hrun.
    destruct fuel'; cbn [Chunker.token_loop];
      destruct (fst st <? len words); congruence.
  - destruct fuel' as [|fuel']; [lia|].
    cbn [Chunker.token_loop] in *.
    destruct (fst st <? len words); [|exact Hrun].
    apply IH; [lia|exact Hrun].
Qed.

Lemma token_loop_deterministic (words : list string) (fuel1 fuel2 : nat)
    (st : token_state) (chunks1 chunks2 : list TokenChunk) :
  token_loop fuel1 words st = Some chunks1 ->
  token_loop fuel2 words st = Some chunks2 ->
  chunks1 = chunks2.
Proof.
  intros H1 H2.
  apply (token_loop_more_fuel words fuel1 (Nat.max fuel1 fuel2)) in H1; [|lia].
  apply (token_loop_more_fuel words fuel2 (Nat.max fuel1 fuel2)) in H2; [|lia].
  congruence.
Qed.

End TokenWindows.

Section TokenClaims.

Variable word_tokenize : string -> list string.
Variable chunk_size overlap : Z.

Local Abbreviation chunk_by_tokens := (chunk_by_tokens word_tokenize chunk_size overlap).

Lemma chunk_by_tokens_stops (text : string) :
  overlap < chunk_size ->
  exists chunks : list TokenChunk,
    chunk_by_tokens (length (word_tokenize text)) text = Some chunks.
Proof.
  intros Hstride.
  destruct (token_loop_spec chunk_size overlap (word_tokenize text) Hstride
              (length (word_tokenize text)) 0 [])
    as (chunks & Hrun & _); [lia|unfold len; lia|].
  exists chunks. exact Hrun.
Qed.

(** C1 (amended): for a text of N tokens and C > O, the loop of
    [chunk_by_tokens] stops (N passes of fuel are enough) and leaves exactly
    ceil(N / (C - O)) chunks; when moreover O >= 0, every index of [0, N)
    lies in the range [start_word, end_word) of one of them. *)
Theorem chunk_by_tokens_count_cover (text : string) :
  overlap < chunk_size ->
  exists chunks : list TokenChunk,
    (forall fuel : nat, (length (word_tokenize text) <= fuel)%nat ->
       chunk_by_tokens fuel text = Some chunks)
    /\ len chunks = ceil_div (len (word_tokenize text)) (chunk_size - overlap)
    /\ (0 <= overlap ->
        forall i, 0 <= i < len (word_tokenize text) ->
          exists c, In c chunks /\ start_word c <= i < end_word c).
Proof.
  intros Hstride.
  destruct (token_loop_spec chunk_size overlap (word_tokenize text) Hstride
              (length (word_tokenize text)) 0 [])
    as (chunks & Hrun & Hlen & Hcov); [lia|unfold len; lia|].
  exists chunks. split; [|split].
  - intros fuel Hfuel. unfold Chunker.chunk_by_tokens.
    apply (token_loop_more_fuel chunk_size overlap (word_tokenize text)
             (length (word_tokenize text))); assumption.
  - rewrite Hlen, Z.sub_0_r.
    destruct (word_tokenize text) as [|w ws].
    + reflexivity.
    + pose proof (ceil_div_pos (len (w :: ws)) (chunk_size - overlap)).
      unfold len in *. simpl length in *. lia.
  - intros Hov i Hi. apply Hcov; [exact Hov|lia].
Qed.

(** C10: the loop of [chunk_by_tokens] stops exactly when
    chunk_size > overlap or the text has no token; otherwise [start] never
    increases from one pass to the next and no amount of fuel is enough. *)
Theorem chunk_by_tokens_terminates_iff (text : string) :
  ((exists (fuel : nat) (chunks : list TokenChunk),
       chunk_by_tokens fuel text = Some chunks)
   <-> (overlap < chunk_size \/ word_tokenize text = []))
  /\ (chunk_size <= overlap -> word_tokenize text <> [] ->
      (forall k : nat,
         start_after chunk_size overlap (S k) (word_tokenize text) (0, [])
         <= start_after chunk_size overlap k (word_tokenize text) (0, []))
      /\ (forall fuel : nat, chunk_by_tokens fuel text = None)).
Proof.
  split; [split|].
  - intros (fuel & chunks & Hrun).
    destruct (Z.lt_ge_cases overlap chunk_size) as [Hlt|Hge]; [left; exact Hlt|].
    right. destruct (word_tokenize text) as [|w ws] eqn:Hw; [reflexivity|].
    unfold Chunker.chunk_by_tokens in Hrun. rewrite Hw in Hrun.
    rewrite (token_loop_stuck chunk_size overlap (w :: ws)) in Hrun
      by (congruence || lia). discriminate.
  - intros [Hlt|Hnil].
    + destruct (chunk_by_tokens_stops text Hlt) as (chunks & Hrun).
      exists (length (word_tokenize text)), chunks. exact Hrun.
    + exists O, []. unfold Chunker.chunk_by_tokens. rewrite Hnil. reflexivity.
  - intros Hge Hne. split.
    + intros k. rewrite !start_after_eq. simpl fst. nia.
    + intros fuel. unfold Chunker.chunk_by_tokens.
      apply token_loop_stuck; [exact Hge|exact Hne|lia].
Qed.

End TokenClaims.

Section SentenceWindows.

Variable word_tokenize : string -> list string.
Variable chunk_size overlap : Z.

Local Abbreviation overlap_loop := (overlap_loop word_tokenize overlap).
Local Abbreviation sentence_body := (sentence_body word_tokenize chunk_size overlap).
Local Abbreviation sentence_loop := (sentence_loop word_tokenize chunk_size overlap).
Local Abbreviation chunks_of_sentences :=
  (chunks_of_sentences word_tokenize chunk_size overlap).

(** What the inner loop keeps is an initial part of the reversed chunk,
    turned round again. *)
Lemma overlap_loop_takes (rest : list string) :
  forall (acc : list string) (n : Z),
    exists k : nat, fst (overlap_loop rest acc n) = rev (firstn k rest) ++ acc.
Proof.
  induction rest as [|s rest IH]; intros acc n.
  - exists O. reflexivity.
  - cbn [Chunker.overlap_loop].
    destruct (n + n_tokens word_tokenize s <=? overlap).
    + destruct (IH (s :: acc) (n + n_tokens word_tokenize s)) as (k & Hk).
      exists (S k). rewrite Hk. cbn [firstn rev]. rewrite <- app_assoc. reflexivity.
    + exists O. reflexivity.
Qed.

Lemma overlap_is_suffix (current_chunk : list string) :
  exists dropped : list string,
    current_chunk = dropped ++ fst (overlap_loop (rev current_chunk) [] 0).
Proof.
  destruct (overlap_loop_takes (rev current_chunk) [] 0) as (k & Hk).
  exists (rev (skipn k (rev current_chunk))).
  rewrite Hk, app_nil_r, <- rev_app_distr, firstn_skipn, rev_involutive.
  reflexivity.
Qed.

Lemma sentence_body_inv (sentences seen : list string) (sentence : string)
    (st : sentence_state) :
  sentence_inv sentences seen st ->
  (exists rest, sentences = (seen ++ [sentence]) ++ rest) ->
  sentence_inv sentences (seen ++ [sentence]) (sentence_body (len seen) sentence st).
Proof.
  destruct st as [[chunks cur] cur_len].
  intros (Hpre & (before & Hseen) & Hwhole & Hcov) Hext.
  cbn [Chunker.sentence_body].
  destruct ((chunk_size <? cur_len + n_tokens word_tokenize sentence)
            && negb (Nat.eqb (length cur) 0)) eqn:Hflush.
  - apply andb_true_iff in Hflush as [_ Hne].
    apply negb_true_iff, Nat.eqb_neq in Hne.
    destruct (overlap_is_suffix cur) as (dropped & Hsuf).
    destruct (Chunker.overlap_loop word_tokenize overlap (rev cur) [] 0)
      as [kept kept_len] eqn:Hloop.
    cbn [fst] in Hsuf. unfold sentence_inv.
    split; [exact Hext|]. split; [|split].
    + exists (before ++ dropped). rewrite Hseen, Hsuf, <- !app_assoc. reflexivity.
    + apply Forall_app. split; [exact Hwhole|].
      constructor; [|constructor].
      destruct Hpre as (rest & Hrest).
      exists before, cur, rest. cbn.
      split; [rewrite Hrest, Hseen, <- app_assoc; reflexivity|].
      split; [intros ->; simpl in Hne; lia|].
      split; [reflexivity|].
      rewrite Hseen, !len_app. lia.
    + intros j Hj.
      destruct (Z.lt_ge_cases j (len seen - len cur)) as [Hold|Hnew].
      * destruct (Hcov j) as (c & Hc & Hr); [lia|].
        exists c. split; [apply in_or_app; left; exact Hc|exact Hr].
      * eexists. split; [apply in_or_app; right; left; reflexivity|].
        cbn. rewrite !len_app in Hj. unfold len in *. simpl length in *. lia.
  - unfold sentence_inv.
    split; [exact Hext|]. split; [|split].
    + exists before. rewrite Hseen, <- app_assoc. reflexivity.
    + exact Hwhole.
    + intros j Hj. apply Hcov. rewrite !len_app in Hj. lia.
Qed.

Lemma sentence_loop_inv (sentences : list string) :
  forall (rest seen : list string) (st : sentence_state),
    sentences = seen ++ rest ->
    sentence_inv sentences seen st ->
    sentence_inv sentences sentences (sentence_loop (len seen) rest st).
Proof.
  induction rest as [|sentence rest IH]; intros seen st Hsplit Hinv.
  - rewrite app_nil_r in Hsplit. subst seen. exact Hinv.
  - cbn [Chunker.sentence_loop].
    replace (len seen + 1) with (len (seen ++ [sentence]))
      by (rewrite len_app; reflexivity).
    apply IH.
    + rewrite Hsplit, <- app_assoc. reflexivity.
    + apply sentence_body_inv; [exact Hinv|].
      exists rest. rewrite Hsplit, <- app_assoc. reflexivity.
Qed.

Lemma chunks_of_sentences_spec (sentences : list string) :
  Forall (whole sentences) (chunks_of_sentences sentences)
  /\ (forall j : Z, 0 <= j < len sentences ->
        exists c, In c (chunks_of_sentences sentences)
                  /\ start_sentence c <= j <= end_sentence c).
Proof.
  pose proof (sentence_loop_inv sentences sentences [] ([], [], 0) eq_refl) as Hinv.
  change (len []) with 0 in Hinv.
  unfold Chunker.chunks_of_sentences.
  destruct (Chunker.sentence_loop word_tokenize chunk_size overlap 0 sentences ([], [], 0))
    as [[chunks cur] cur_len].
  destruct Hinv as (_ & (before & Hseen) & Hwhole & Hcov).
  { cbn. split; [exists sentences; reflexivity|].
    split; [exists []; reflexivity|]. split; [constructor|].
    intros j Hj. unfold len in Hj. simpl in Hj. lia. }
  destruct (Nat.eqb_spec (length cur) 0) as [Hempty|Hne]; cbn [negb].
  - split; [exact Hwhole|].
    intros j Hj. apply Hcov. unfold len at 2. rewrite Hempty. simpl. lia.
  - split.
    + apply Forall_app. split; [exact Hwhole|].
      constructor; [|constructor].
      exists before, cur, []. cbn.
      split; [rewrite app_nil_r; exact Hseen|].
      split; [intros ->; simpl in Hne; lia|].
      split; [reflexivity|].
      rewrite Hseen at 1 2. rewrite !len_app. lia.
    + intros j Hj.
      destruct (Z.lt_ge_cases j (len sentences - len cur)) as [Hold|Hnew].
      * destruct (Hcov j) as (c & Hc & Hr); [lia|].
        exists c. split; [apply in_or_app; left; exact Hc|exact Hr].
      * eexists. split; [apply in_or_app; right; left; reflexivity|].
        cbn. lia.
Qed.

Variable sent_tokenize : string -> list string.

(** C6: every chunk of [chunk_by_sentences] is the join of a run of whole
    sentences of the input (those numbered [start_sentence .. end_sentence]),
    and every sentence of the input is one of the sentences of some chunk. *)
Theorem chunk_by_sentences_whole_and_complete (text : string) :
  Forall (whole (sent_tokenize text))
         (chunk_by_sentences word_tokenize sent_tokenize chunk_size overlap text)
  /\ (forall (j : nat) (s : string),
        nth_error (sent_tokenize text) j = Some s ->
        exists (c : SentenceChunk) (before body after : list string),
          In c (chunk_by_sentences word_tokenize sent_tokenize chunk_size overlap text)
          /\ sent_tokenize text = before ++ body ++ after
          /\ s_text c = Py.join " " body
          /\ nth_error body (j - length before) = Some s
          /\ In s body).
Proof.
  unfold Chunker.chunk_by_sentences.
  destruct (chunks_of_sentences_spec (sent_tokenize text)) as [Hwhole Hcov].
  split; [exact Hwhole|].
  intros j s Hj.
  assert (Hlt : (j < length (sent_tokenize text))%nat)
    by (apply nth_error_Some; congruence).
  destruct (Hcov (Z.of_nat j)) as (c & Hc & Hr); [unfold len; lia|].
  pose proof (proj1 (List.Forall_forall _ _) Hwhole c Hc)
    as (before & body & after & Hsplit & _ & Htext & Hstart & Hend).
  assert (Hnth : nth_error body (j - length before) = Some s).
  { rewrite Hsplit in Hj. unfold len in *.
    rewrite nth_error_app2 in Hj by lia.
    rewrite nth_error_app1 in Hj by lia. exact Hj. }
  exists c, before, body, after.
  repeat split; try assumption.
  eapply nth_error_In; exact Hnth.
Qed.

End SentenceWindows.

(** Three words, windows of two with an overlap of one: three chunks, the
    last two reaching back by the overlap. *)
Example chunk_by_tokens_three_words :
  chunk_by_tokens Py.split_ws 2 1 3 "a b c"
  = Some [ mkTokenChunk "a b" 0 2 0; mkTokenChunk "a b c" 0 3 1;
           mkTokenChunk "b c" 1 4 2 ].
Proof. vm_compute. reflexivity. Qed.

Lemma chunk_by_tokens_count_cover_witness :
  1 < 2 /\
  exists chunks : list TokenChunk,
    (forall fuel : nat, (length (Py.split_ws "a b c") <= fuel)%nat ->
       chunk_by_tokens Py.split_ws 2 1 fuel "a b c" = Some chunks)
    /\ len chunks = ceil_div (len (Py.split_ws "a b c")) (2 - 1)
    /\ (0 <= 1 ->
        forall i, 0 <= i < len (Py.split_ws "a b c") ->
          exists c, In c chunks /\ start_word c <= i < end_word c).
Proof.
  split; [lia|].
  apply (chunk_by_tokens_count_cover Py.split_ws 2 1 "a b c"). lia.
Defined.

(** A negative overlap leaves gaps: with C = 2 and O = -1 the only chunk
    of a three-word text is [1, 2), so index 0 is in no chunk. *)
Example chunk_by_tokens_negative_overlap_gap :
  chunk_by_tokens Py.split_ws 2 (-1) 3 "a b c" = Some [ mkTokenChunk "b" 1 2 0 ].
Proof. vm_compute. reflexivity. Qed.

(** C1 as stated fails twice over. On three words with C = 2 and O = 1
    the loop leaves three chunks where ceil((N - O) / (C - O)) is two; and
    C > O alone does not give coverage, as the gap above shows. *)
Lemma chunk_by_tokens_claimed_count_fails :
  ~ (forall (word_tokenize : string -> list string) (chunk_size overlap : Z)
            (text : string),
       overlap < chunk_size ->
       exists (fuel : nat) (chunks : list TokenChunk),
         chunk_by_tokens word_tokenize chunk_size overlap fuel text = Some chunks
         /\ len chunks
            = ceil_div (len (word_tokenize text) - overlap) (chunk_size - overlap))
  /\ ~ (forall (word_tokenize : string -> list string) (chunk_size overlap : Z)
               (text : string),
          overlap < chunk_size ->
          exists (fuel : nat) (chunks : list TokenChunk),
            chunk_by_tokens word_tokenize chunk_size overlap fuel text = Some chunks
            /\ forall i, 0 <= i < len (word_tokenize text) ->
                 exists c, In c chunks /\ start_word c <= i < end_word c).
Proof.
  split; intros Hclaim.
  - destruct (Hclaim Py.split_ws 2 1 "a b c") as (fuel & chunks & Hrun & Hlen);
      [lia|].
    pose proof (token_loop_deterministic 2 1 _ _ _ _ _ _ Hrun
                  chunk_by_tokens_three_words) as ->.
    vm_compute in Hlen. discriminate.
  - destruct (Hclaim Py.split_ws 2 (-1) "a b c") as (fuel & chunks & Hrun & Hcov);
      [lia|].
    pose proof (token_loop_deterministic 2 (-1) _ _ _ _ _ _ Hrun
                  chunk_by_tokens_negative_overlap_gap) as ->.
    destruct (Hcov 0) as (c & [<-|[]] & Hc); [vm_compute; split; congruence|].
    simpl in Hc. lia.
Qed.

(** Equal chunk size and overlap: the guard still holds after any number
    of passes. *)
Example chunk_by_tokens_no_progress :
  chunk_by_tokens Py.split_ws 2 2 1000 "a b c" = None.
Proof. vm_compute. reflexivity. Qed.

Example chunk_by_sentences_two_chunks :
  chunk_by_sentences Py.split_ws (fun t => Py.split t "|") 3 1 "a b|c|d e"
  = [ mkSentenceChunk "a b c" 0 1 0; mkSentenceChunk "c d e" 1 2 1 ].
Proof. vm_compute. reflexivity. Qed.

(** ** The windows of chunk_by_tokens in closed form *)

Section TokenClosedForm.

Variable word_tokenize : string -> list string.
Variable chunk_size overlap : Z.

Local Abbreviation stride := (chunk_size - overlap).
Local Abbreviation window := (token_window chunk_size overlap).

(** From the state reached after [k] passes, the loop appends the
    windows [k], [k + 1], ... up to the last one that starts inside the
    text. *)
Lemma token_loop_windows (words : list string) :
  overlap < chunk_size ->
  forall (fuel k : nat) (chunks : list TokenChunk),
    len chunks = Z.of_nat k ->
    len words - Z.of_nat k * stride <= Z.of_nat fuel ->
    token_loop chunk_size overlap fuel words (Z.of_nat k * stride, chunks)
    = Some (chunks
            ++ map (window words)
                   (seq k (Z.to_nat (Z.max 0 (ceil_div (len words - Z.of_nat k * stride)
                                                       stride))))).
Proof.
  intros Hstride. induction fuel as [|fuel IH]; intros k chunks Hk Hfuel.
  - cbn [Chunker.token_loop fst snd].
    destruct (Z.ltb_spec (Z.of_nat k * stride) (len words)); [lia|].
    pose proof (ceil_div_nonpos (len words - Z.of_nat k * stride) stride).
    replace (Z.max 0 _) with 0 by lia. simpl. rewrite app_nil_r. reflexivity.
  - cbn [Chunker.token_loop fst snd].
    destruct (Z.ltb_spec (Z.of_nat k * stride) (len words)) as [Hlt|Hge].
    + cbn [Chunker.token_body].
      replace (Z.of_nat k * stride + chunk_size - overlap)
        with (Z.of_nat (S k) * stride) by lia.
      rewrite IH; [|rewrite len_app; unfold len at 2; simpl; lia|lia].
      rewrite <- app_assoc. f_equal.
      rewrite (ceil_div_count (len words - Z.of_nat k * stride)) by lia.
      replace (len words - Z.of_nat (S k) * stride)
        with (len words - Z.of_nat k * stride - stride) by lia.
      set (m := Z.max 0 (ceil_div (len words - Z.of_nat k * stride - stride) stride)).
      replace (Z.to_nat (1 + m)) with (S (Z.to_nat m)) by lia.
      cbn [seq map app]. f_equal.
      unfold Chunker.token_window. rewrite Hk. reflexivity.
    + pose proof (ceil_div_nonpos (len words - Z.of_nat k * stride) stride).
      replace (Z.max 0 _) with 0 by lia. simpl. rewrite app_nil_r. reflexivity.
Qed.

(** X1: for C > O the chunks of [chunk_by_tokens] are the windows
    0, 1, ..., ceil(N / (C - O)) - 1: window k has chunk_id k, spans the
    words from max(0, k (C - O) - O) to k (C - O) + C, and its text joins
    the words of that slice. *)
Theorem chunk_by_tokens_windows (text : string) (fuel : nat) :
  overlap < chunk_size ->
  (length (word_tokenize text) <= fuel)%nat ->
  chunk_by_tokens word_tokenize chunk_size overlap fuel text
  = Some (map (window (word_tokenize text))
              (seq 0 (Z.to_nat (ceil_div (len (word_tokenize text)) stride)))).
Proof.
  intros Hstride Hfuel. unfold Chunker.chunk_by_tokens.
  pose proof (token_loop_windows (word_tokenize text) Hstride fuel 0 []) as Hrun.
  change (Z.of_nat 0 * stride) with 0 in Hrun. rewrite Z.sub_0_r in Hrun.
  rewrite Hrun; [|reflexivity|unfold len; lia]. simpl app.
  do 3 f_equal.
  destruct (word_tokenize text) as [|w ws]; [reflexivity|].
  pose proof (ceil_div_pos (len (w :: ws)) stride).
  unfold len in *. simpl length in *. lia.
Qed.

Lemma nth_error_windows (words : list string) (n k : nat) (c : TokenChunk) :
  nth_error (map (window words) (seq 0 n)) k = Some c ->
  (k < n)%nat /\ c = window words k.
Proof.
  intros Hk.
  assert (Hlt : (k < n)%nat).
  { assert (Hl : (k < length (map (window words) (seq 0 n)))%nat)
      by (apply nth_error_Some; congruence).
    rewrite length_map, length_seq in Hl. exact Hl. }
  split; [exact Hlt|].
  rewrite nth_error_map, nth_error_seq in Hk.
  destruct (Nat.ltb_spec k n); [|lia]. simpl in Hk. congruence.
Qed.

(** X2: for C > O every chunk of [chunk_by_tokens] starts 2 O words before
    the end of the chunk before it (or at word 0) and ends C - O words after
    it: neighbours share 2 O words, not O; and for O >= 0 a chunk spans at
    most C + O words. *)
Theorem chunk_by_tokens_neighbours (text : string) (fuel : nat)
    (chunks : list TokenChunk) :
  overlap < chunk_size ->
  chunk_by_tokens word_tokenize chunk_size overlap fuel text = Some chunks ->
  (forall (k : nat) (c1 c2 : TokenChunk),
     nth_error chunks k = Some c1 -> nth_error chunks (S k) = Some c2 ->
     start_word c2 = Z.max 0 (end_word c1 - 2 * overlap)
     /\ end_word c2 = end_word c1 + (chunk_size - overlap))
  /\ (0 <= overlap ->
      forall c, In c chunks -> end_word c - start_word c <= chunk_size + overlap).
Proof.
  intros Hstride Hrun.
  pose proof (chunk_by_tokens_stops word_tokenize chunk_size overlap text Hstride)
    as (chunks' & Hrun').
  pose proof (token_loop_deterministic chunk_size overlap _ _ _ _ _ _ Hrun Hrun')
    as ->.
  unfold Chunker.chunk_by_tokens in Hrun'.
  pose proof (token_loop_windows (word_tokenize text) Hstride
                (length (word_tokenize text)) 0 []) as Hclosed.
  change (Z.of_nat 0 * stride) with 0 in Hclosed.
  rewrite Hclosed in Hrun'; [|reflexivity|unfold len; lia].
  simpl app in Hrun'. injection Hrun' as <-.
  split.
  - intros k c1 c2 H1 H2.
    apply nth_error_windows in H1 as [_ ->].
    apply nth_error_windows in H2 as [_ ->].
    unfold Chunker.token_window. cbn [start_word end_word]. lia.
  - intros Hov c Hc. apply in_map_iff in Hc as (k & <- & _).
    unfold Chunker.token_window. cbn [start_word end_word]. lia.
Qed.

End TokenClosedForm.

(** ** The order of the chunks of chunk_by_sentences *)

Lemma skipn_length_app {A : Type} (l1 l2 : list A) :
  skipn (length l1) (l1 ++ l2) = l2.
Proof. induction l1 as [|x l1 IH]; simpl; [reflexivity|exact IH]. Qed.

Lemma firstn_length_app {A : Type} (l1 l2 : list A) :
  firstn (length l1) (l1 ++ l2) = l1.
Proof. induction l1 as [|x l1 IH]; simpl; [reflexivity|rewrite IH; reflexivity]. Qed.

Lemma slice_middle {A : Type} (before body after : list A) :
  Py.slice (before ++ body ++ after) (len before) (len before + len body) = body.
Proof.
  unfold Py.slice, Py.clamp_index, len. rewrite !length_app.
  destruct (Z.ltb_spec (Z.of_nat (length before)) 0); [lia|].
  destruct (Z.ltb_spec (Z.of_nat (length before) + Z.of_nat (length body)) 0); [lia|].
  rewrite Z.min_l by lia. rewrite Z.min_l by lia.
  replace (Z.to_nat (Z.of_nat (length before) + Z.of_nat (length body)
                     - Z.of_nat (length before)))
    with (length body) by lia.
  rewrite Nat2Z.id, skipn_length_app. apply firstn_length_app.
Qed.

Lemma Sorted_snoc {A : Type} (R : A -> A -> Prop) (l : list A) (c : A) :
  Sorted R l -> (forall a, last l = Some a -> R a c) -> Sorted R (l ++ [c]).
Proof.
  induction 1 as [|a l Hs IH Hhd]; intros Hlast; simpl.
  - repeat constructor.
  - constructor.
    + apply IH. intros b Hb. apply Hlast.
      destruct l; [discriminate|]. exact Hb.
    + destruct Hhd as [|b l Hab]; simpl.
      * constructor. apply Hlast. reflexivity.
      * constructor. exact Hab.
Qed.

Lemma Sorted_weaken {A : Type} (R S : A -> A -> Prop) (l : list A) :
  (forall a b, R a b -> S a b) -> Sorted R l -> Sorted S l.
Proof.
  intros Himp. induction 1 as [|a l Hs IH Hhd]; constructor.
  - exact IH.
  - destruct Hhd; constructor. apply Himp. assumption.
Qed.

Lemma nth_error_snoc {A : Type} (l : list A) (c x : A) (k : nat) :
  nth_error (l ++ [c]) k = Some x ->
  nth_error l k = Some x \/ (k = length l /\ x = c).
Proof.
  intros Hk. destruct (Nat.lt_ge_cases k (length l)) as [Hlt|Hge].
  - left. rewrite nth_error_app1 in Hk by exact Hlt. exact Hk.
  - right. rewrite nth_error_app2 in Hk by exact Hge.
    destruct (k - length l)%nat as [|j] eqn:Hj; simpl in Hk.
    + split; [lia|congruence].
    + destruct j; discriminate.
Qed.

Lemma head_snoc {A : Type} (l : list A) (c x : A) :
  head (l ++ [c]) = Some x -> head l = Some x \/ (l = [] /\ x = c).
Proof. destruct l; simpl; intros [= <-]; auto. Qed.

Section SentenceOrder.

Variable word_tokenize : string -> list string.
Variable chunk_size overlap : Z.

Local Abbreviation total := (total_tokens word_tokenize).
Local Abbreviation order_inv := (sentence_order_inv word_tokenize overlap).

Lemma total_tokens_app (l1 l2 : list string) : total (l1 ++ l2) = total l1 + total l2.
Proof.
  induction l1 as [|s l1 IH]; simpl; [reflexivity|].
  unfold Chunker.total_tokens in *. simpl. rewrite IH. lia.
Qed.

Lemma total_tokens_nonneg (l : list string) : 0 <= total l.
Proof.
  induction l as [|s l IH]; simpl; [lia|].
  unfold n_tokens, len. lia.
Qed.

(** What the inner loop keeps, it has counted, and it fits the overlap. *)
Lemma overlap_loop_counts (rest : list string) :
  forall (acc : list string) (n : Z),
    n = total acc -> n <= Z.max 0 overlap ->
    snd (Chunker.overlap_loop word_tokenize overlap rest acc n)
    = total (fst (Chunker.overlap_loop word_tokenize overlap rest acc n))
    /\ total (fst (Chunker.overlap_loop word_tokenize overlap rest acc n))
       <= Z.max 0 overlap.
Proof.
  induction rest as [|s rest IH]; intros acc n Hn Hle; cbn [Chunker.overlap_loop].
  - simpl. split; [exact Hn|]. rewrite <- Hn. exact Hle.
  - destruct (Z.leb_spec (n + n_tokens word_tokenize s) overlap) as [Hfit|Hnot].
    + apply IH.
      * unfold Chunker.total_tokens. simpl. fold (total acc). lia.
      * lia.
    + simpl. split; [exact Hn|]. rewrite <- Hn. exact Hle.
Qed.

(** Closing the chunk in hand keeps the numbering, the first start and
    the order. *)
Lemma close_chunk_order (sentences seen : list string)
    (chunks : list SentenceChunk) (cur : list string) (cur_len : Z) (txt : string) :
  order_inv sentences seen (chunks, cur, cur_len) ->
  cur <> [] ->
  let c := {| s_text := txt;
              start_sentence := len seen - len cur;
              end_sentence := len seen - 1;
              s_chunk_id := len chunks |} in
  (forall k x, nth_error (chunks ++ [c]) k = Some x -> s_chunk_id x = Z.of_nat k)
  /\ (forall x, head (chunks ++ [c]) = Some x -> start_sentence x = 0)
  /\ Sorted (follows word_tokenize overlap sentences) (chunks ++ [c]).
Proof.
  intros ((rest & Hrest) & (before0 & Hseen) & Hlen & Hids & Hfirst & Hhead & Hlast
          & Hsorted) Hne c.
  split; [|split].
  - intros k x Hk. apply nth_error_snoc in Hk as [Hk|[-> ->]].
    + apply Hids. exact Hk.
    + reflexivity.
  - intros x Hx. apply head_snoc in Hx as [Hx|[-> ->]].
    + apply Hhead. exact Hx.
    + subst c. cbn. rewrite (Hfirst eq_refl). lia.
  - apply Sorted_snoc; [exact Hsorted|].
    intros a Ha.
    destruct (Hlast a Ha)
      as (before & kept & fresh & Hsplit & Hcur & Hfresh & Hend & Hstart & Hkept).
    assert (Hfresh_len : 1 <= len fresh)
      by (destruct fresh; [congruence|unfold len; simpl; lia]).
    assert (Hseen_len : len seen = len before + len kept + len fresh)
      by (rewrite Hsplit, !len_app; lia).
    assert (Hcur_len : len cur = len kept + len fresh)
      by (rewrite Hcur, len_app; lia).
    assert (Hkept_len : 0 <= len kept) by (unfold len; lia).
    unfold follows, shared_sentences. subst c. cbn.
    split; [lia|]. split; [lia|].
    replace (len seen - len cur) with (len before) by lia.
    rewrite Hend.
    rewrite Hrest, Hsplit, <- !app_assoc.
    rewrite slice_middle. exact Hkept.
Qed.

Lemma sentence_body_order (sentences seen : list string) (sentence : string)
    (st : sentence_state) :
  order_inv sentences seen st ->
  (exists rest, sentences = (seen ++ [sentence]) ++ rest) ->
  order_inv sentences (seen ++ [sentence])
            (Chunker.sentence_body word_tokenize chunk_size overlap (len seen)
               sentence st).
Proof.
  destruct st as [[chunks cur] cur_len]. intros Hinv Hext.
  cbn [Chunker.sentence_body].
  destruct ((chunk_size <? cur_len + n_tokens word_tokenize sentence)
            && negb (Nat.eqb (length cur) 0)) eqn:Hflush.
  - apply andb_true_iff in Hflush as [_ Hne].
    apply negb_true_iff, Nat.eqb_neq in Hne.
    assert (Hcur : cur <> []) by (intros ->; simpl in Hne; lia).
    destruct (close_chunk_order sentences seen chunks cur cur_len
                (Py.join " " cur) Hinv Hcur) as (Hids' & Hhead' & Hsorted').
    destruct Hinv as (_ & (before0 & Hseen) & _).
    destruct (overlap_is_suffix word_tokenize overlap cur) as (dropped & Hsuf).
    pose proof (overlap_loop_counts (rev cur) [] 0 eq_refl ltac:(lia))
      as [Hcount Hfit].
    destruct (Chunker.overlap_loop word_tokenize overlap (rev cur) [] 0)
      as [kept kept_len] eqn:Hloop.
    cbn [fst snd] in Hsuf, Hcount, Hfit.
    unfold sentence_order_inv.
    split; [exact Hext|].
    split; [exists (before0 ++ dropped);
            rewrite Hseen, Hsuf, <- !app_assoc; reflexivity|].
    split; [rewrite total_tokens_app, Hcount;
            unfold Chunker.total_tokens; simpl; lia|].
    split; [exact Hids'|].
    split; [intros Hnil; destruct chunks; discriminate|].
    split; [exact Hhead'|].
    split; [|exact Hsorted'].
    intros c Hc. rewrite last_snoc in Hc. injection Hc as <-.
    exists (before0 ++ dropped), kept, [sentence]. cbn.
    split; [rewrite Hseen, Hsuf, <- !app_assoc; reflexivity|].
    split; [reflexivity|]. split; [discriminate|].
    assert (Hl : len seen = len before0 + len dropped + len kept)
      by (rewrite Hseen, Hsuf, !len_app; lia).
    assert (Hc : len cur = len dropped + len kept)
      by (rewrite Hsuf, len_app; lia).
    rewrite !len_app.
    split; [lia|]. split; [unfold len in *; lia|exact Hfit].
  - destruct Hinv as (_ & (before0 & Hseen) & Hlen & Hids & Hfirst & Hhead & Hlast
                      & Hsorted).
    unfold sentence_order_inv.
    split; [exact Hext|].
    split; [exists before0; rewrite Hseen, <- app_assoc; reflexivity|].
    split; [rewrite total_tokens_app, Hlen;
            unfold Chunker.total_tokens; simpl; lia|].
    split; [exact Hids|].
    split; [intros Hnil; rewrite (Hfirst Hnil); reflexivity|].
    split; [exact Hhead|].
    split; [|exact Hsorted].
    intros c Hc.
    destruct (Hlast c Hc)
      as (before & kept & fresh & Hsplit & Hcur & Hfresh & Hend & Hstart & Hkept).
    exists before, kept, (fresh ++ [sentence]).
    split; [rewrite Hsplit, <- !app_assoc; reflexivity|].
    split; [rewrite Hcur, <- app_assoc; reflexivity|].
    split; [destruct fresh; discriminate|].
    repeat split; assumption.
Qed.

Lemma sentence_loop_order (sentences : list string) :
  forall (rest seen : list string) (st : sentence_state),
    sentences = seen ++ rest ->
    order_inv sentences seen st ->
    order_inv sentences sentences
              (Chunker.sentence_loop word_tokenize chunk_size overlap (len seen)
                 rest st).
Proof.
  induction rest as [|sentence rest IH]; intros seen st Hsplit Hinv.
  - rewrite app_nil_r in Hsplit. subst seen. exact Hinv.
  - cbn [Chunker.sentence_loop].
    replace (len seen + 1) with (len (seen ++ [sentence]))
      by (rewrite len_app; reflexivity).
    apply IH.
    + rewrite Hsplit, <- app_assoc. reflexivity.
    + apply sentence_body_order; [exact Hinv|].
      exists rest. rewrite Hsplit, <- app_assoc. reflexivity.
Qed.

Lemma chunks_of_sentences_order (sentences : list string) :
  let chunks := Chunker.chunks_of_sentences word_tokenize chunk_size overlap sentences in
  (forall k c, nth_error chunks k = Some c -> s_chunk_id c = Z.of_nat k)
  /\ (forall c, head chunks = Some c -> start_sentence c = 0)
  /\ (forall c, last chunks = Some c -> end_sentence c = len sentences - 1)
  /\ (chunks = [] <-> sentences = [])
  /\ Sorted (follows word_tokenize overlap sentences) chunks.
Proof.
  pose proof (sentence_loop_order sentences sentences [] ([], [], 0) eq_refl)
    as Hinv.
  change (len []) with 0 in Hinv.
  unfold Chunker.chunks_of_sentences.
  destruct (Chunker.sentence_loop word_tokenize chunk_size overlap 0 sentences
              ([], [], 0)) as [[chunks cur] cur_len].
  assert (Hstart : order_inv sentences [] ([], [], 0)).
  { cbn. split; [exists sentences; reflexivity|].
    split; [exists []; reflexivity|]. split; [reflexivity|].
    split; [intros [|k] c; discriminate|]. split; [reflexivity|].
    split; [discriminate|]. split; [discriminate|constructor]. }
  specialize (Hinv Hstart).
  destruct (Nat.eqb_spec (length cur) 0) as [Hempty|Hne]; cbn [negb].
  - destruct Hinv as (_ & (before0 & Hseen) & _ & Hids & Hfirst & Hhead & Hlast
                      & Hsorted).
    destruct cur; [|discriminate].
    split; [exact Hids|]. split; [exact Hhead|].
    split; [|split; [|exact Hsorted]].
    + intros c Hc.
      destruct (Hlast c Hc) as (b & k & f & _ & Hcur & Hf & _).
      destruct k, f; simpl in Hcur; congruence.
    + split.
      * intros ->. symmetry. apply Hfirst. reflexivity.
      * intros ->. destruct chunks as [|c chunks]; [reflexivity|].
        exfalso.
        assert (Hl : is_Some (last (c :: chunks))).
        { destruct (last (c :: chunks)) eqn:Hl; [eauto|].
          apply last_None in Hl. discriminate. }
        destruct Hl as [x Hx].
        destruct (Hlast x Hx) as (b & k & f & _ & Hcur & Hf & _).
        destruct k, f; simpl in Hcur; congruence.
  - assert (Hcur : cur <> []) by (intros ->; simpl in Hne; lia).
    destruct (close_chunk_order sentences sentences chunks cur cur_len
                (Py.join " " cur) Hinv Hcur) as (Hids' & Hhead' & Hsorted').
    split; [exact Hids'|]. split; [exact Hhead'|].
    split; [|split; [|exact Hsorted']].
    + intros c Hc. rewrite last_snoc in Hc. injection Hc as <-. reflexivity.
    + split.
      * intros Hnil. destruct chunks; discriminate.
      * intros ->. destruct Hinv as (_ & (b & Hb) & _).
        destruct b, cur; simpl in Hb; congruence.
Qed.

Variable sent_tokenize : string -> list string.

(** X3: the chunks of [chunk_by_sentences] come in reading order. They
    are numbered 0, 1, 2, ...; the first starts at sentence 0 and the last
    ends at the last sentence; each chunk starts no earlier than the one
    before it and at most one sentence past its end (no sentence is passed
    over), and ends strictly later. No chunk is produced exactly when the
    text has no sentence. *)
Theorem chunk_by_sentences_in_order (text : string) :
  let chunks :=
    chunk_by_sentences word_tokenize sent_tokenize chunk_size overlap text in
  (forall k c, nth_error chunks k = Some c -> s_chunk_id c = Z.of_nat k)
  /\ (forall c, head chunks = Some c -> start_sentence c = 0)
  /\ (forall c, last chunks = Some c ->
        end_sentence c = len (sent_tokenize text) - 1)
  /\ (chunks = [] <-> sent_tokenize text = [])
  /\ Sorted (fun c1 c2 =>
               start_sentence c1 <= start_sentence c2 <= end_sentence c1 + 1
               /\ end_sentence c1 < end_sentence c2)
            chunks.
Proof.
  unfold Chunker.chunk_by_sentences.
  destruct (chunks_of_sentences_order (sent_tokenize text))
    as (Hids & Hhead & Hlast & Hnil & Hsorted).
  repeat split; try assumption; try apply Hnil.
  eapply Sorted_weaken; [|exact Hsorted].
  intros a b (H1 & H2 & _). split; assumption.
Qed.

(** X4: the sentences that a chunk of [chunk_by_sentences] repeats from
    the chunk before it, those from its own start to the end of that chunk,
    hold at most max(0, overlap) tokens in all. *)
Theorem chunk_by_sentences_overlap_budget (text : string) :
  Sorted (fun c1 c2 =>
            total (shared_sentences (sent_tokenize text) c1 c2) <= Z.max 0 overlap)
         (chunk_by_sentences word_tokenize sent_tokenize chunk_size overlap text).
Proof.
  unfold Chunker.chunk_by_sentences.
  destruct (chunks_of_sentences_order (sent_tokenize text))
    as (_ & _ & _ & _ & Hsorted).
  eapply Sorted_weaken; [|exact Hsorted].
  intros a b (_ & _ & H). exact H.
Qed.

End SentenceOrder.

(** ** The size of the chunks of chunk_by_sentences *)

Section SentenceBudget.

Variable word_tokenize : string -> list string.
Variable chunk_size overlap : Z.

Local Abbreviation total := (total_tokens word_tokenize).
Local Abbreviation sentence_body := (Chunker.sentence_body word_tokenize chunk_size overlap).
Local Abbreviation sentence_loop := (Chunker.sentence_loop word_tokenize chunk_size overlap).

(** A property of the sentences read and the state that every pass
    keeps holds when the loop is over. *)
Lemma sentence_loop_preserves (I : list string -> sentence_state -> Prop)
    (sentences : list string) :
  (forall seen s st,
     (exists rest, sentences = (seen ++ [s]) ++ rest) ->
     I seen st -> I (seen ++ [s]) (sentence_body (len seen) s st)) ->
  forall (rest seen : list string) (st : sentence_state),
    sentences = seen ++ rest ->
    I seen st -> I sentences (sentence_loop (len seen) rest st).
Proof.
  intros Hstep. induction rest as [|sentence rest IH]; intros seen st Hsplit Hinv.
  - rewrite app_nil_r in Hsplit. subst seen. exact Hinv.
  - cbn [Chunker.sentence_loop].
    replace (len seen + 1) with (len (seen ++ [sentence]))
      by (rewrite len_app; reflexivity).
    apply IH.
    + rewrite Hsplit, <- app_assoc. reflexivity.
    + apply Hstep; [|exact Hinv].
      exists rest. rewrite Hsplit, <- app_assoc. reflexivity.
Qed.

Lemma chunks_of_sentences_budget (sentences : list string) :
  0 <= overlap ->
  (forall s, In s sentences -> n_tokens word_tokenize s <= chunk_size - overlap) ->
  Forall (fun c => total (chunk_sentences sentences c) <= chunk_size)
         (Chunker.chunks_of_sentences word_tokenize chunk_size overlap sentences).
Proof.
  intros Hov Hfit.
  pose (I := fun (seen : list string) (st : sentence_state) =>
               let '(chunks, cur, cur_len) := st in
               (exists before rest, sentences = before ++ cur ++ rest
                                    /\ seen = before ++ cur)
               /\ cur_len = total cur
               /\ (cur = [] \/ total cur <= chunk_size)
               /\ Forall (fun c => total (chunk_sentences sentences c) <= chunk_size)
                         chunks).
  assert (Hclose : forall seen chunks cur cur_len txt,
             I seen (chunks, cur, cur_len) -> cur <> [] ->
             Forall (fun c => total (chunk_sentences sentences c) <= chunk_size)
                    (chunks ++ [ {| s_text := txt;
                                    start_sentence := len seen - len cur;
                                    end_sentence := len seen - 1;
                                    s_chunk_id := len chunks |} ])).
  { intros seen chunks cur cur_len txt
           ((before & rest & Hsplit & Hseen) & _ & Hcur & Hall) Hne.
    apply Forall_app. split; [exact Hall|]. constructor; [|constructor].
    unfold chunk_sentences. cbn.
    replace (len seen - len cur) with (len before)
      by (rewrite Hseen, len_app; lia).
    replace (len seen - 1 + 1) with (len before + len cur)
      by (rewrite Hseen, len_app; lia).
    rewrite Hsplit, slice_middle. destruct Hcur; [congruence|assumption]. }
  assert (Hloop : I sentences (sentence_loop 0 sentences ([], [], 0))).
  { apply (sentence_loop_preserves I sentences) with (seen := []); [|reflexivity|].
    - intros seen s [[chunks cur] cur_len] (rest & Hext) Hinv.
      assert (Hs : n_tokens word_tokenize s <= chunk_size - overlap).
      { apply Hfit. rewrite Hext. apply in_or_app. left.
        apply in_or_app. right. left. reflexivity. }
      cbn [Chunker.sentence_body].
      destruct ((chunk_size <? cur_len + n_tokens word_tokenize s)
                && negb (Nat.eqb (length cur) 0)) eqn:Hflush.
      + apply andb_true_iff in Hflush as [_ Hne].
        apply negb_true_iff, Nat.eqb_neq in Hne.
        assert (Hcur : cur <> []) by (intros ->; simpl in Hne; lia).
        pose proof (Hclose seen chunks cur cur_len (Py.join " " cur) Hinv Hcur)
          as Hall'.
        destruct Hinv as ((before & rest0 & Hsplit & Hseen) & _).
        destruct (overlap_is_suffix word_tokenize overlap cur) as (dropped & Hsuf).
        pose proof (overlap_loop_counts word_tokenize overlap (rev cur) [] 0
                      eq_refl ltac:(lia)) as [Hcount Hkept].
        destruct (Chunker.overlap_loop word_tokenize overlap (rev cur) [] 0)
          as [kept kept_len].
        cbn [fst snd] in Hsuf, Hcount, Hkept. unfold I.
        split; [|split; [|split; [|exact Hall']]].
        * exists (before ++ dropped), rest. split.
          -- rewrite Hext, Hseen, Hsuf, <- !app_assoc. reflexivity.
          -- rewrite Hseen, Hsuf, <- !app_assoc. reflexivity.
        * rewrite total_tokens_app, Hcount. unfold Chunker.total_tokens. simpl. lia.
        * right. rewrite total_tokens_app.
          unfold Chunker.total_tokens at 2. simpl. lia.
      + destruct Hinv as ((before & rest0 & Hsplit & Hseen) & Hlen & Hcur & Hall).
        unfold I.
        split; [|split; [|split; [|exact Hall]]].
        * exists before, rest. split.
          -- rewrite Hext, Hseen, <- !app_assoc. reflexivity.
          -- rewrite Hseen, <- !app_assoc. reflexivity.
        * rewrite total_tokens_app, Hlen. unfold Chunker.total_tokens. simpl. lia.
        * right. rewrite total_tokens_app.
          unfold Chunker.total_tokens at 2. simpl.
          apply andb_false_iff in Hflush as [Hsmall|Hempty].
          -- apply Z.ltb_ge in Hsmall. lia.
          -- apply negb_false_iff, Nat.eqb_eq in Hempty.
             destruct cur; [|discriminate]. simpl. lia.
    - unfold I. split; [exists [], sentences; split; reflexivity|].
      split; [reflexivity|]. split; [left; reflexivity|constructor]. }
  unfold Chunker.chunks_of_sentences.
  destruct (Chunker.sentence_loop word_tokenize chunk_size overlap 0 sentences
              ([], [], 0)) as [[chunks cur] cur_len] eqn:Hrun.
  destruct (Nat.eqb_spec (length cur) 0) as [Hempty|Hne]; cbn [negb].
  - destruct Hloop as (_ & _ & _ & Hall). exact Hall.
  - apply (Hclose sentences chunks cur cur_len _ Hloop).
    intros ->. simpl in Hne. lia.
Qed.

Lemma chunks_of_sentences_single (sentences : list string) :
  sentences <> [] ->
  total sentences <= chunk_size ->
  Chunker.chunks_of_sentences word_tokenize chunk_size overlap sentences
  = [ {| s_text := Py.join " " sentences;
         start_sentence := 0;
         end_sentence := len sentences - 1;
         s_chunk_id := 0 |} ].
Proof.
  intros Hne Hsmall.
  pose (I := fun (seen : list string) (st : sentence_state) =>
               st = ([], seen, total seen)).
  assert (Hloop : I sentences (sentence_loop 0 sentences ([], [], 0))).
  { apply (sentence_loop_preserves I sentences) with (seen := []);
      [|reflexivity|reflexivity].
    intros seen s st (rest & Hext) ->. unfold I. cbn [Chunker.sentence_body].
    assert (Hle : total seen + n_tokens word_tokenize s <= chunk_size).
    { rewrite Hext, !total_tokens_app in Hsmall.
      pose proof (total_tokens_nonneg word_tokenize rest).
      unfold Chunker.total_tokens at 2 in Hsmall. simpl in Hsmall. lia. }
    destruct (Z.ltb_spec chunk_size (total seen + n_tokens word_tokenize s));
      [lia|].
    cbn [andb]. rewrite total_tokens_app.
    unfold Chunker.total_tokens at 3. simpl. do 2 f_equal. lia. }
  unfold Chunker.chunks_of_sentences. rewrite Hloop.
  destruct sentences as [|s0 sentences]; [congruence|].
  cbn [length Nat.eqb negb app]. do 2 f_equal. lia.
Qed.

Variable sent_tokenize : string -> list string.

(** X5: when the overlap is not negative and no sentence has more than
    chunk_size - overlap tokens, every chunk of [chunk_by_sentences] holds
    at most chunk_size tokens. *)
Theorem chunk_by_sentences_within_budget (text : string) :
  0 <= overlap ->
  (forall s, In s (sent_tokenize text) ->
             n_tokens word_tokenize s <= chunk_size - overlap) ->
  Forall (fun c => total (chunk_sentences (sent_tokenize text) c) <= chunk_size)
         (chunk_by_sentences word_tokenize sent_tokenize chunk_size overlap text).
Proof. intros Hov Hfit. apply chunks_of_sentences_budget; assumption. Qed.

(** X6: a text whose sentences hold at most chunk_size tokens in all
    comes back as one chunk, numbered 0, that joins all its sentences. *)
Theorem chunk_by_sentences_single_chunk (text : string) :
  sent_tokenize text <> [] ->
  total (sent_tokenize text) <= chunk_size ->
  chunk_by_sentences word_tokenize sent_tokenize chunk_size overlap text
  = [ {| s_text := Py.join " " (sent_tokenize text);
         start_sentence := 0;
         end_sentence := len (sent_tokenize text) - 1;
         s_chunk_id := 0 |} ].
Proof. intros Hne Hsmall. apply chunks_of_sentences_single; assumption. Qed.

End SentenceBudget.

(** ** chunk_by_paragraphs *)

Section ParagraphWindows.

Variable word_tokenize : string -> list string.
Variable chunk_size : Z.

Local Abbreviation paragraph_body := (Chunker.paragraph_body word_tokenize chunk_size).
Local Abbreviation paragraph_loop := (Chunker.paragraph_loop word_tokenize chunk_size).

Lemma paragraph_loop_preserves (I : list string -> paragraph_state -> Prop)
    (paragraphs : list string) :
  (forall seen p st,
     (exists rest, paragraphs = (seen ++ [p]) ++ rest) ->
     I seen st -> I (seen ++ [p]) (paragraph_body (len seen) p st)) ->
  forall (rest seen : list string) (st : paragraph_state),
    paragraphs = seen ++ rest ->
    I seen st -> I paragraphs (paragraph_loop (len seen) rest st).
Proof.
  intros Hstep. induction rest as [|para rest IH]; intros seen st Hsplit Hinv.
  - rewrite app_nil_r in Hsplit. subst seen. exact Hinv.
  - cbn [Chunker.paragraph_loop].
    replace (len seen + 1) with (len (seen ++ [para]))
      by (rewrite len_app; reflexivity).
    apply IH.
    + rewrite Hsplit, <- app_assoc. reflexivity.
    + apply Hstep; [|exact Hinv].
      exists rest. rewrite Hsplit, <- app_assoc. reflexivity.
Qed.

Lemma close_paragraphs (paragraphs seen : list string)
    (chunks : list ParagraphChunk) (cur : list string) (cur_len : Z) :
  paragraph_inv paragraphs seen (chunks, cur, cur_len) ->
  cur <> [] ->
  let c := {| p_text := Py.join blank_line cur;
              start_para := len seen - len cur;
              end_para := len seen - 1;
              p_chunk_id := len chunks |} in
  (forall k x, nth_error (chunks ++ [c]) k = Some x -> p_chunk_id x = Z.of_nat k)
  /\ (forall x, head (chunks ++ [c]) = Some x -> start_para x = 0)
  /\ Forall (spans paragraphs) (chunks ++ [c])
  /\ (forall j, 0 <= j < len seen ->
        exists x, In x (chunks ++ [c]) /\ start_para x <= j <= end_para x)
  /\ Sorted resumes (chunks ++ [c]).
Proof.
  intros ((before & rest & Hsplit & Hseen) & Hids & Hfirst & Hhead & Hlast & Hspans
          & Hcov & Hsorted) Hne c.
  assert (Hcur_len : 1 <= len cur)
    by (destruct cur; [congruence|unfold len; simpl; lia]).
  assert (Hseen_len : len seen = len before + len cur)
    by (rewrite Hseen, len_app; lia).
  assert (Hbefore : 0 <= len before) by (unfold len; lia).
  split; [|split; [|split; [|split]]].
  - intros k x Hk. apply nth_error_snoc in Hk as [Hk|[-> ->]].
    + apply Hids. exact Hk.
    + reflexivity.
  - intros x Hx. apply head_snoc in Hx as [Hx|[-> ->]].
    + apply Hhead. exact Hx.
    + subst c. cbn. rewrite (Hfirst eq_refl). lia.
  - apply Forall_app. split; [exact Hspans|]. constructor; [|constructor].
    unfold spans, chunk_paragraphs. subst c. cbn.
    split; [lia|]. split.
    + rewrite Hsplit, !len_app. unfold len in *. lia.
    + replace (len seen - len cur) with (len before) by lia.
      replace (len seen - 1 + 1) with (len before + len cur) by lia.
      rewrite Hsplit, slice_middle. reflexivity.
  - intros j Hj.
    destruct (Z.lt_ge_cases j (len seen - len cur)) as [Hold|Hnew].
    + destruct (Hcov j) as (x & Hx & Hr); [lia|].
      exists x. split; [apply in_or_app; left; exact Hx|exact Hr].
    + exists c. split; [apply in_or_app; right; left; reflexivity|].
      subst c. cbn. lia.
  - apply Sorted_snoc; [exact Hsorted|].
    intros a Ha. destruct (Hlast a Ha) as [Hend Htwo].
    unfold resumes. subst c. cbn. lia.
Qed.

Lemma paragraph_body_inv (paragraphs seen : list string) (para : string)
    (st : paragraph_state) :
  (exists rest, paragraphs = (seen ++ [para]) ++ rest) ->
  paragraph_inv paragraphs seen st ->
  paragraph_inv paragraphs (seen ++ [para]) (paragraph_body (len seen) para st).
Proof.
  destruct st as [[chunks cur] cur_len]. intros (rest' & Hext) Hinv.
  cbn [Chunker.paragraph_body].
  destruct ((chunk_size <? cur_len + n_tokens word_tokenize para)
            && negb (Nat.eqb (length cur) 0)) eqn:Hflush.
  - apply andb_true_iff in Hflush as [_ Hne].
    apply negb_true_iff, Nat.eqb_neq in Hne.
    assert (Hcur : cur <> []) by (intros ->; simpl in Hne; lia).
    destruct (close_paragraphs paragraphs seen chunks cur cur_len Hinv Hcur)
      as (Hids' & Hhead' & Hspans' & Hcov' & Hsorted').
    destruct Hinv as ((before & rest & Hsplit & Hseen) & _).
    destruct (rev cur) as [|last_para init] eqn:Hrev.
    { apply (f_equal (@rev string)) in Hrev. rewrite rev_involutive in Hrev.
      simpl in Hrev. congruence. }
    assert (Hcur_eq : cur = rev init ++ [last_para]).
    { rewrite <- (rev_involutive cur), Hrev. reflexivity. }
    unfold paragraph_inv.
    split; [|split; [exact Hids'|split; [|split; [exact Hhead'|split;
           [|split; [exact Hspans'|split; [|exact Hsorted']]]]]]].
    + exists (before ++ rev init), rest'. split.
      * rewrite Hext, Hseen, Hcur_eq, <- !app_assoc. reflexivity.
      * rewrite Hseen, Hcur_eq, <- !app_assoc. reflexivity.
    + intros Hnil. destruct chunks; discriminate.
    + intros c Hc. rewrite last_snoc in Hc. injection Hc as <-. cbn.
      rewrite !len_app. unfold len. simpl. lia.
    + intros j Hj. apply Hcov'.
      rewrite !len_app in Hj. unfold len in *. simpl in Hj. lia.
  - destruct Hinv as ((before & rest & Hsplit & Hseen) & Hids & Hfirst & Hhead
                      & Hlast & Hspans & Hcov & Hsorted).
    unfold paragraph_inv.
    split; [|split; [exact Hids|split; [|split; [exact Hhead|split;
           [|split; [exact Hspans|split; [|exact Hsorted]]]]]]].
    + exists before, rest'. split.
      * rewrite Hext, Hseen, <- !app_assoc. reflexivity.
      * rewrite Hseen, <- !app_assoc. reflexivity.
    + intros Hnil. rewrite (Hfirst Hnil). reflexivity.
    + intros c Hc. destruct (Hlast c Hc) as [Hend Htwo].
      rewrite !len_app. unfold len in *. simpl. lia.
    + intros j Hj. apply Hcov.
      rewrite !len_app in Hj. unfold len in *. simpl in Hj. lia.
Qed.

(** X7: [chunk_by_paragraphs] cuts the text into runs of whole
    paragraphs. The chunks are numbered 0, 1, 2, ...; each joins the
    paragraphs [start_para .. end_para] with blank lines; the first starts
    at paragraph 0, the last ends at the last paragraph, every paragraph is
    in a chunk; and each chunk after the first starts with exactly the last
    paragraph of the chunk before it, whatever the overlap setting. *)
Theorem chunk_by_paragraphs_resumes (text : string) :
  let paragraphs := paragraphs_of text in
  let chunks := chunk_by_paragraphs word_tokenize chunk_size text in
  (forall k c, nth_error chunks k = Some c -> p_chunk_id c = Z.of_nat k)
  /\ Forall (spans paragraphs) chunks
  /\ (forall c, head chunks = Some c -> start_para c = 0)
  /\ (forall c, last chunks = Some c -> end_para c = len paragraphs - 1)
  /\ (forall j, 0 <= j < len paragraphs ->
        exists c, In c chunks /\ start_para c <= j <= end_para c)
  /\ Sorted resumes chunks.
Proof.
  cbv zeta. unfold Chunker.chunk_by_paragraphs.
  set (paragraphs := paragraphs_of text).
  assert (Hloop : paragraph_inv paragraphs paragraphs
                    (paragraph_loop 0 paragraphs ([], [], 0))).
  { apply (paragraph_loop_preserves (paragraph_inv paragraphs) paragraphs)
      with (seen := []); [|reflexivity|].
    - intros seen p st Hext Hinv. apply paragraph_body_inv; assumption.
    - cbn. split; [exists [], paragraphs; split; reflexivity|].
      split; [intros [|k] c; discriminate|]. split; [reflexivity|].
      split; [discriminate|]. split; [discriminate|].
      split; [constructor|]. split; [|constructor].
      intros j Hj. unfold len in Hj. simpl in Hj. lia. }
  unfold Chunker.chunks_of_paragraphs.
  destruct (Chunker.paragraph_loop word_tokenize chunk_size 0 paragraphs ([], [], 0))
    as [[chunks cur] cur_len].
  destruct (Nat.eqb_spec (length cur) 0) as [Hempty|Hne]; cbn [negb].
  - destruct Hloop as (_ & Hids & _ & Hhead & Hlast & Hspans & Hcov & Hsorted).
    destruct cur; [|discriminate].
    split; [exact Hids|]. split; [exact Hspans|]. split; [exact Hhead|].
    split; [|split; [|exact Hsorted]].
    + intros c Hc. destruct (Hlast c Hc) as [_ Htwo].
      unfold len in Htwo. simpl in Htwo. lia.
    + intros j Hj. apply Hcov. unfold len at 2. simpl. lia.
  - assert (Hcur : cur <> []) by (intros ->; simpl in Hne; lia).
    destruct (close_paragraphs paragraphs paragraphs chunks cur cur_len Hloop Hcur)
      as (Hids' & Hhead' & Hspans' & Hcov' & Hsorted').
    split; [exact Hids'|]. split; [exact Hspans'|]. split; [exact Hhead'|].
    split; [|split; [exact Hcov'|exact Hsorted']].
    intros c Hc. rewrite last_snoc in Hc. injection Hc as <-. reflexivity.
Qed.

End ParagraphWindows.

(** ** The closed forms at concrete inputs *)

Lemma chunk_by_tokens_windows_witness :
  1 < 2 /\ (length (Py.split_ws "a b c") <= 3)%nat /\
  chunk_by_tokens Py.split_ws 2 1 3 "a b c"
  = Some (map (token_window 2 1 (Py.split_ws "a b c"))
              (seq 0 (Z.to_nat (ceil_div (len (Py.split_ws "a b c")) (2 - 1))))).
Proof.
  split; [lia|]. split; [vm_compute; lia|].
  apply (chunk_by_tokens_windows Py.split_ws 2 1 "a b c" 3); [lia|vm_compute; lia].
Defined.

Lemma chunk_by_tokens_neighbours_witness :
  1 < 2 /\
  chunk_by_tokens Py.split_ws 2 1 3 "a b c"
  = Some [ mkTokenChunk "a b" 0 2 0; mkTokenChunk "a b c" 0 3 1;
           mkTokenChunk "b c" 1 4 2 ] /\
  (forall (k : nat) (c1 c2 : TokenChunk),
     nth_error [ mkTokenChunk "a b" 0 2 0; mkTokenChunk "a b c" 0 3 1;
                 mkTokenChunk "b c" 1 4 2 ] k = Some c1 ->
     nth_error [ mkTokenChunk "a b" 0 2 0; mkTokenChunk "a b c" 0 3 1;
                 mkTokenChunk "b c" 1 4 2 ] (S k) = Some c2 ->
     start_word c2 = Z.max 0 (end_word c1 - 2 * 1)
     /\ end_word c2 = end_word c1 + (2 - 1))
  /\ (0 <= 1 ->
      forall c, In c [ mkTokenChunk "a b" 0 2 0; mkTokenChunk "a b c" 0 3 1;
                       mkTokenChunk "b c" 1 4 2 ] ->
                end_word c - start_word c <= 2 + 1).
Proof.
  split; [lia|]. split; [vm_compute; reflexivity|].
  apply (chunk_by_tokens_neighbours Py.split_ws 2 1 "a b c" 3);
    [lia|vm_compute; reflexivity].
Defined.

Lemma chunk_by_sentences_within_budget_witness :
  0 <= 1 /\
  (forall s, In s (Py.split "a b|c|d e" "|") -> n_tokens Py.split_ws s <= 3 - 1) /\
  Forall (fun c => total_tokens Py.split_ws
                     (chunk_sentences (Py.split "a b|c|d e" "|") c) <= 3)
         (chunk_by_sentences Py.split_ws (fun t => Py.split t "|") 3 1 "a b|c|d e").
Proof.
  assert (Hfit : forall s, In s (Py.split "a b|c|d e" "|") ->
                           n_tokens Py.split_ws s <= 3 - 1).
  { intros s Hs. vm_compute in Hs.
    destruct Hs as [<-|[<-|[<-|[]]]]; vm_compute; discriminate. }
  split; [lia|]. split; [exact Hfit|].
  apply (chunk_by_sentences_within_budget Py.split_ws 3 1 (fun t => Py.split t "|")
           "a b|c|d e"); [lia|exact Hfit].
Defined.

Lemma chunk_by_sentences_single_chunk_witness :
  Py.split "a b|c" "|" <> [] /\
  total_tokens Py.split_ws (Py.split "a b|c" "|") <= 3 /\
  chunk_by_sentences Py.split_ws (fun t => Py.split t "|") 3 1 "a b|c"
  = [ {| s_text := Py.join " " (Py.split "a b|c" "|");
         start_sentence := 0;
         end_sentence := len (Py.split "a b|c" "|") - 1;
         s_chunk_id := 0 |} ].
Proof.
  split; [vm_compute; discriminate|]. split; [vm_compute; discriminate|].
  apply (chunk_by_sentences_single_chunk Py.split_ws 3 1 (fun t => Py.split t "|")
           "a b|c"); vm_compute; discriminate.
Defined.

(** Three paragraphs of two words with chunk_size 3: every chunk after the
    first starts with the last paragraph of the chunk before it. *)
Example chunk_by_paragraphs_three :
  chunk_by_paragraphs Py.split_ws 3
    ("a b" +:+ blank_line +:+ "c d" +:+ blank_line +:+ "e f")
  = [ mkParagraphChunk "a b" 0 0 0;
      mkParagraphChunk ("a b" +:+ blank_line +:+ "c d") 0 1 1;
      mkParagraphChunk ("c d" +:+ blank_line +:+ "e f") 1 2 2 ].
Proof. vm_compute. reflexivity. Qed.

End ChunkerFacts.
